(** * Design Dev Toolbox: the PDF export script and the base64 image fixer

    A shallow embedding of the two Node scripts of the repository:

    - [PdfExport]: the Figma Make to PDF export script (TypeScript, Puppeteer
      and pdf-lib): [loadConfig], [waitForAnimation], [navigateToSlide],
      [navigateSubSlide], [hideUIElements], [waitForSlideContent],
      [takeScreenshot], [convertImageToPDF], [checkDevServer],
      [findChromeExecutable], [exportPresentationToPDF] and the script's
      entry point;
    - [ImageFix]: the base64 image fixer (JavaScript): [isBase64Encoded],
      [decodeBase64ToBuffer], [processFile], [findPngFiles] and [main].

    Both scripts are sequential programs that act on the outside world (the
    file system, the console, an HTTP server, a headless browser).  They are
    embedded in one monad: a computation takes the state of the world and
    gives an outcome (a value, a [process.exit], or a thrown error), the new
    state of the world, and the list of actions it performed, oldest first.

    JavaScript numbers are embedded as integers ([Z]); [NaN], where the code
    can meet it, is [None] of [option Z].  Fractions are outside the model. *)

From Stdlib Require Import ZArith List String Ascii Bool QArith Lia.
From Stdlib.Strings Require Import Byte.
From stdpp Require Import base option gmap strings list pretty.

Close Scope Q_scope.
Open Scope Z_scope.
Set Warnings "-register-all".

(** The line feed, written [\n] in the scripts. *)
Definition nl : string := String "010"%char EmptyString.

(** ** Errors, outcomes and the monad of effects *)

(** The JavaScript exceptions the two scripts can meet. *)
Inductive JsError : Type :=
| Error (message : string)
| TypeError
| SyntaxError
| TimeoutError
| SystemError (code : string).

(** [error.message], shortened to the name of the error for the errors the
    runtime raises. *)
Definition errorMessage (e : JsError) : string :=
  match e with
  | Error message => message
  | TypeError => "TypeError"
  | SyntaxError => "SyntaxError"
  | TimeoutError => "TimeoutError"
  | SystemError code => code
  end.

(** How a computation ends: with a value, with [process.exit(code)] (which
    no [catch] and no [finally] sees), or with a thrown error. *)
Inductive Outcome (A : Type) : Type :=
| Ret (a : A)
| Exit (code : Z)
| Throw (e : JsError).

Arguments Ret {A} a.
Arguments Exit {A} code.
Arguments Throw {A} e.

(** [M W E A]: computations over worlds [W] that emit actions [E]. *)
Definition M (W E A : Type) : Type := W -> Outcome A * W * list E.

Definition outcome {W E A} (r : Outcome A * W * list E) : Outcome A := fst (fst r).
Definition final {W E A} (r : Outcome A * W * list E) : W := snd (fst r).
Definition events {W E A} (r : Outcome A * W * list E) : list E := snd r.

Definition ret {W E A} (a : A) : M W E A := fun w => (Ret a, w, []).

Definition bind {W E A B} (m : M W E A) (f : A -> M W E B) : M W E B :=
  fun w =>
    match m w with
    | (Ret a, w1, t1) => match f a w1 with (r, w2, t2) => (r, w2, t1 ++ t2) end
    | (Exit c, w1, t1) => (Exit c, w1, t1)
    | (Throw e, w1, t1) => (Throw e, w1, t1)
    end.

Definition emit {W E} (e : E) : M W E unit := fun w => (Ret tt, w, [e]).
Definition gets {W E A} (f : W -> A) : M W E A := fun w => (Ret (f w), w, []).
Definition modify {W E} (f : W -> W) : M W E unit := fun w => (Ret tt, f w, []).
Definition exit {W E A} (code : Z) : M W E A := fun w => (Exit code, w, []).
Definition throw {W E A} (e : JsError) : M W E A := fun w => (Throw e, w, []).

(** [try { m } catch (e) { h e }]. *)
Definition try_catch {W E A} (m : M W E A) (h : JsError -> M W E A) : M W E A :=
  fun w =>
    match m w with
    | (Throw e, w1, t1) => match h e w1 with (r, w2, t2) => (r, w2, t1 ++ t2) end
    | r => r
    end.

(** [try { m } finally { c }]: [c] runs after a value and after a throw, and
    its own exit or throw replaces the outcome of [m]. *)
Definition try_finally {W E A} (m : M W E A) (c : M W E unit) : M W E A :=
  fun w =>
    match m w with
    | (Exit code, w1, t1) => (Exit code, w1, t1)
    | (r, w1, t1) =>
        match c w1 with
        | (Ret _, w2, t2) => (r, w2, t1 ++ t2)
        | (Exit code, w2, t2) => (Exit code, w2, t1 ++ t2)
        | (Throw e, w2, t2) => (Throw e, w2, t1 ++ t2)
        end
    end.

Declare Scope effect_scope.
Delimit Scope effect_scope with eff.
Notation "x <- m ;; k" := (bind m (fun x => k))
  (at level 100, m at next level, right associativity) : effect_scope.
Notation "m ;; k" := (bind m (fun _ => k))
  (at level 100, right associativity) : effect_scope.
Open Scope effect_scope.

(** [for (let i = start; cond(i); i++) body], threading the local variables
    the body updates as [s].  The loop stops when [cond] fails; [fuel] bounds
    the number of iterations so that the definition is structural. *)
Fixpoint for_loop {W E S} (fuel : nat) (cond : Z -> bool) (i : Z)
    (body : Z -> S -> M W E S) (s : S) : M W E S :=
  match fuel with
  | O => ret s
  | Datatypes.S fuel' =>
      if cond i
      then s' <- body i s ;; for_loop fuel' cond (i + 1) body s'
      else ret s
  end.

(** [for (let i = lo; i < hi; i++)]: [hi - lo] iterations are enough. *)
Definition for_lt {W E S} (lo hi : Z) (body : Z -> S -> M W E S) (s : S) : M W E S :=
  for_loop (Z.to_nat (hi - lo)) (fun i => i <? hi) lo body s.

(** [for (let i = lo; i <= hi; i++)]. *)
Definition for_le {W E S} (lo hi : Z) (body : Z -> S -> M W E S) (s : S) : M W E S :=
  for_loop (Z.to_nat (hi + 1 - lo)) (fun i => i <=? hi) lo body s.

(** [for (const x of xs)]. *)
Fixpoint for_of {W E X S} (xs : list X) (body : X -> S -> M W E S) (s : S) : M W E S :=
  match xs with
  | [] => ret s
  | x :: xs' => s' <- body x s ;; for_of xs' body s'
  end.

(** JavaScript's [a || b] on numbers: [b] when [a] is [undefined] or [0]. *)
Definition or_default (a : option Z) (b : Z) : Z :=
  match a with
  | Some n => if n =? 0 then b else n
  | None => b
  end.

(** ** The PDF export script *)

Module PdfExport.

(** *** JSON values, as [JSON.parse] returns them *)

Inductive json : Type :=
| JNull
| JBool (b : bool)
| JNumber (n : Z)
| JString (s : string)
| JArray (items : list json)
| JObject (members : list (string * json)).

(** *** Configuration: the interfaces [SlideConfig] and [ExportConfig] *)

Inductive SlideType : Type := subSlide | step.

Record SlideConfig : Type := {
  type : SlideType;
  max : Z;
  comment : option json
}.

Record Viewport : Type := { width : Z; height : Z }.

Record Selectors : Type := {
  progressBar : string;
  mainContent : string;
  header : string;
  navigation : string
}.

Record SpecialSlide : Type := {
  typewriterEffect : option bool;
  typewriterWaitTime : option Z;
  specialComment : option json
}.

(** The field [hideUIElements] of the interface is [hideUIElementsFlag] here:
    the function of that name keeps it.  The script never reads
    [pdfFormat], [landscape] and [hideUIElements], nor a [comment]: they
    are kept as the values [JSON.parse] gave, whatever they are ([None]
    where the file has none). *)
Record ExportConfig : Type := {
  devServerUrl : string;
  totalSlides : Z;
  slidesWithSubSlides : gmap string SlideConfig;
  pdfFormat : option json;
  landscape : option json;
  hideUIElementsFlag : option json;
  animationWaitTime : Z;
  slideTransitionWaitTime : Z;
  subSlideTransitionWaitTime : Z;
  viewport : Viewport;
  selectors : Selectors;
  specialSlides : option (gmap string SpecialSlide)
}.

(** *** Reading JSON values *)

(** The members of an object, one per key (as [JSON.parse] leaves them). *)
Fixpoint assoc (k : string) (ms : list (string * json)) : option json :=
  match ms with
  | [] => None
  | (k', v) :: ms' => if String.eqb k k' then Some v else assoc k ms'
  end.

(** [v.k] in JavaScript: a [TypeError] on [null], [undefined] ([None]) when
    [v] has no such property. *)
Definition getProp (v : json) (k : string) : JsError + option json :=
  match v with
  | JNull => inl TypeError
  | JObject ms => inr (assoc k ms)
  | _ => inr None
  end.

(** JavaScript truthiness of a property that may be [undefined]. *)
Definition truthy (v : option json) : bool :=
  match v with
  | None => false
  | Some JNull => false
  | Some (JBool b) => b
  | Some (JNumber n) => negb (n =? 0)
  | Some (JString s) => negb (String.eqb s "")
  | Some (JArray _) => true
  | Some (JObject _) => true
  end.

(** The TypeScript cast [as ExportConfig] checks nothing at run time.  The
    functions below read a JSON value at the type the cast claims; they are
    defined ([Some]) on the values that have that type in every field the
    script reads. *)
Definition field (k : string) (v : json) : option json :=
  match v with JObject ms => assoc k ms | _ => None end.

Definition asString (v : json) : option string :=
  match v with JString s => Some s | _ => None end.
Definition asNumber (v : json) : option Z :=
  match v with JNumber n => Some n | _ => None end.
Definition asBool (v : json) : option bool :=
  match v with JBool b => Some b | _ => None end.
Definition asMembers (v : json) : option (list (string * json)) :=
  match v with JObject ms => Some ms | _ => None end.

(** An optional property [k?: T]. *)
Definition optional {A} (k : string) (as_T : json -> option A) (v : json) : option (option A) :=
  match field k v with
  | None => Some None
  | Some x => Some <$> as_T x
  end.

Definition asSlideType (v : json) : option SlideType :=
  match v with
  | JString s =>
      if String.eqb s "subSlide" then Some subSlide
      else if String.eqb s "step" then Some step
      else None
  | _ => None
  end.

Definition asSlideConfig (v : json) : option SlideConfig :=
  t ← field "type" v ≫= asSlideType;
  m ← field "max" v ≫= asNumber;
  let c := field "comment" v in
  Some {| type := t; max := m; comment := c |}.

Definition asViewport (v : json) : option Viewport :=
  w ← field "width" v ≫= asNumber;
  h ← field "height" v ≫= asNumber;
  Some {| width := w; height := h |}.

Definition asSelectors (v : json) : option Selectors :=
  p ← field "progressBar" v ≫= asString;
  m ← field "mainContent" v ≫= asString;
  h ← field "header" v ≫= asString;
  n ← field "navigation" v ≫= asString;
  Some {| progressBar := p; mainContent := m; header := h; navigation := n |}.

Definition asSpecialSlide (v : json) : option SpecialSlide :=
  _ ← asMembers v;
  e ← optional "typewriterEffect" asBool v;
  t ← optional "typewriterWaitTime" asNumber v;
  let c := field "comment" v in
  Some {| typewriterEffect := e; typewriterWaitTime := t; specialComment := c |}.

(** [Record<string, T>]. *)
Definition asRecord {A} (as_T : json -> option A) (v : json) : option (gmap string A) :=
  ms ← asMembers v;
  kvs ← mapM (fun kv : string * json => pair (fst kv) <$> as_T (snd kv)) ms;
  Some (list_to_map kvs).

Definition asExportConfig (v : json) : option ExportConfig :=
  url ← field "devServerUrl" v ≫= asString;
  total ← field "totalSlides" v ≫= asNumber;
  subs ← field "slidesWithSubSlides" v ≫= asRecord asSlideConfig;
  let fmt := field "pdfFormat" v in
  let land := field "landscape" v in
  let hide := field "hideUIElements" v in
  anim ← field "animationWaitTime" v ≫= asNumber;
  slide ← field "slideTransitionWaitTime" v ≫= asNumber;
  sub ← field "subSlideTransitionWaitTime" v ≫= asNumber;
  view ← field "viewport" v ≫= asViewport;
  sels ← field "selectors" v ≫= asSelectors;
  special ← optional "specialSlides" (asRecord asSpecialSlide) v;
  Some {| devServerUrl := url; totalSlides := total; slidesWithSubSlides := subs;
          pdfFormat := fmt; landscape := land; hideUIElementsFlag := hide;
          animationWaitTime := anim; slideTransitionWaitTime := slide;
          subSlideTransitionWaitTime := sub; viewport := view; selectors := sels;
          specialSlides := special |}.

(** *** The outside world *)

Inductive Key : Type := ArrowRight | ArrowLeft | ArrowDown | ArrowUp.

(** What Node, the browser and pdf-lib provide and the script only calls.
    A [Page] is the state of the one browser page of a run; a [Dom] is the
    document a script evaluated in the page sees.

    The calls to the browser that the script does not guard (the launch,
    the page load, a key, an evaluation, a screenshot) are the calls as they
    succeed; the two waits can time out.

    [pdfSave] is [PDFDocument.save] on the pages of a document, each with
    its width, its height and the image drawn on it.  [pdfPagesIn] is what a
    reader finds in the bytes of a PDF file, page by page; [None] is a page
    without an image, of pdf-lib's default size (A4).  [save] serializes the
    pages it is given, and, as its option [addDefaultPage] is left on, one
    blank page when it is given none. *)
Class Runtime : Type := {
  Page : Type;
  Dom : Type;
  Element : Type;
  Buffer : Type;
  (* Node *)
  path_join : string -> string -> string;
  JSON_parse : string -> option json;
  utf8 : Buffer -> string;
  (* in the page *)
  parseInt : string -> option Z;
  querySelector : string -> Dom -> option Element;
  querySelectorAll : string -> Dom -> list Element;
  elementQuerySelectorAll : string -> Element -> list Element;
  getAttribute : string -> Element -> option string;
  textContent : Element -> option string;
  computedOpacity : Element -> Q;
  displayNone : Element -> Dom -> Dom;
  (* Puppeteer *)
  document : Page -> Dom;
  setDocument : Dom -> Page -> Page;
  keyboardPress : Key -> Page -> Page;
  elapse : Z -> Page -> Page;
  pageSetViewport : Z -> Z -> Page -> Page;
  pageGoto : string -> Page -> Page;
  pageWaitForSelector : string -> bool -> Z -> Page -> bool * Page;
  pageWaitForFunction : (Dom -> bool) -> Z -> Page -> bool * Page;
  pageScreenshot : Page -> Buffer;
  (* pdf-lib *)
  pngSize : Buffer -> Z * Z;
  pdfSave : list (Z * Z * Buffer) -> Buffer;
  pdfPagesIn : Buffer -> list (option (Z * Z * Buffer));
  pdfPagesIn_save : forall pages,
    pdfPagesIn (pdfSave pages) = match pages with [] => [None] | _ => Some <$> pages end
}.

Section Script.
Context `{Runtime}.

(** A page of a PDF document: its size and the image drawn on it. *)
Record PdfPage : Type := { pageWidth : Z; pageHeight : Z; image : Buffer }.
Definition PDFDocument : Type := list PdfPage.

Definition save (doc : PDFDocument) : Buffer :=
  pdfSave (map (fun p => (pageWidth p, pageHeight p, image p)) doc).

Inductive FileData : Type :=
| Text (s : string)
| Binary (b : Buffer).

(** What the one call of [http.get] in [checkDevServer] meets: an answer,
    an error of the connection, or nothing within the 2 seconds; or the
    refusal of [http.get] itself, which throws a [TypeError] and sends no
    request when the url does not parse or its protocol is not [http:]. *)
Inductive Probe : Type :=
| Response (statusCode : Z)
| NetworkError
| NoAnswer
| Refused.

Record World : Type := {
  cwd : string;
  platform : string;
  files : gmap string FileData;
  dirs : gset string;
  server : string -> Probe;
  page : Page
}.

Inductive Level : Type := Log | Warn | Err.

(** The actions of the script on the world, as the trace records them. *)
Inductive Event : Type :=
| Console (level : Level) (text : string)
| ConsoleError (text : string) (error : JsError)
| HttpGet (url : string) (timeout : Z)
| Mkdir (path : string)
| WriteFile (path : string)
| Launch (executablePath : option string) (timeout : Z)
| NewPage
| SetDefaultTimeout (timeout : Z)
| SetDefaultNavigationTimeout (timeout : Z)
| SetViewport (w h : Z)
| Goto (url : string) (timeout : Z)
| WaitForSelector (selector : string) (visible : bool) (timeout : Z)
| WaitForFunction (timeout : Z)
| Evaluate
| KeyPress (key : Key)
| Sleep (ms : Z)
| Screenshot
| Close.

Abbreviation Eff := (M World Event).

Definition console (level : Level) (text : string) : Eff unit := emit (Console level text).

(** [console.error(text, error)]: the text, then the error object. *)
Definition consoleError (text : string) (error : JsError) : Eff unit :=
  emit (ConsoleError text error).

Definition setPage (p : Page) (w : World) : World :=
  {| cwd := cwd w; platform := platform w; files := files w; dirs := dirs w;
     server := server w; page := p |}.

Definition setFiles (fs : gmap string FileData) (w : World) : World :=
  {| cwd := cwd w; platform := platform w; files := fs; dirs := dirs w;
     server := server w; page := page w |}.

Definition setDirs (ds : gset string) (w : World) : World :=
  {| cwd := cwd w; platform := platform w; files := files w; dirs := ds;
     server := server w; page := page w |}.

(** **** [fs]

    The world knows its files and directories by their paths.  [mkdirSync]
    and [writeFileSync] are the calls as they succeed: Node's throw where a
    file is in the way of a directory or a directory in the way of a file,
    which the world does not tell them. *)

Definition existsSync (path : string) : Eff bool :=
  gets (fun w => bool_decide (is_Some (files w !! path)) || bool_decide (path ∈ dirs w)).

Definition readFileSync (path : string) : Eff string :=
  fun w =>
    match files w !! path with
    | Some (Text s) => (Ret s, w, [])
    | Some (Binary b) => (Ret (utf8 b), w, [])
    | None =>
        if bool_decide (path ∈ dirs w)
        then (Throw (SystemError "EISDIR"), w, [])
        else (Throw (SystemError "ENOENT"), w, [])
    end.

Definition mkdirSync (path : string) : Eff unit :=
  emit (Mkdir path) ;; modify (fun w => setDirs ({[path]} ∪ dirs w) w).

Definition writeFileSync (path : string) (data : FileData) : Eff unit :=
  emit (WriteFile path) ;; modify (fun w => setFiles (<[path := data]> (files w)) w).

(** **** [setTimeout] and the page *)

Definition sleep (ms : Z) : Eff unit :=
  emit (Sleep ms) ;; modify (fun w => setPage (elapse ms (page w)) w).

Definition press (key : Key) : Eff unit :=
  emit (KeyPress key) ;; modify (fun w => setPage (keyboardPress key (page w)) w).

Definition setViewport (w h : Z) : Eff unit :=
  emit (SetViewport w h) ;; modify (fun s => setPage (pageSetViewport w h (page s)) s).

Definition goto (url : string) (timeout : Z) : Eff unit :=
  emit (Goto url timeout) ;; modify (fun w => setPage (pageGoto url (page w)) w).

(** [page.evaluate] of a script that reads the document. *)
Definition evaluate {A} (script : Dom -> A) : Eff A :=
  emit Evaluate ;; gets (fun w => script (document (page w))).

(** [page.evaluate] of a script that changes the document. *)
Definition evaluateUpdate (script : Dom -> Dom) : Eff unit :=
  emit Evaluate ;;
  modify (fun w => setPage (setDocument (script (document (page w))) (page w)) w).

(** [page.waitForSelector]: throws a [TimeoutError] when the selector did
    not match within [timeout]. *)
Definition waitForSelector (selector : string) (visible : bool) (timeout : Z) : Eff unit :=
  emit (WaitForSelector selector visible timeout) ;;
  found <- (fun w => let r := pageWaitForSelector selector visible timeout (page w) in
                     (Ret (fst r), setPage (snd r) w, [])) ;;
  if found : bool then ret tt else throw TimeoutError.

(** [page.waitForFunction]: polls [predicate] in the page, and throws a
    [TimeoutError] when it did not hold within [timeout]. *)
Definition waitForFunction (predicate : Dom -> bool) (timeout : Z) : Eff unit :=
  emit (WaitForFunction timeout) ;;
  held <- (fun w => let r := pageWaitForFunction predicate timeout (page w) in
                    (Ret (fst r), setPage (snd r) w, [])) ;;
  if held : bool then ret tt else throw TimeoutError.

(** **** [loadConfig] *)

Definition no_config_hint : string :=
  "   Please run the installer first: npm run install (in Figma-Make-to-pdf folder)".

(** [config.k] inside a [try] block. *)
Definition prop (v : json) (k : string) : Eff (option json) :=
  match getProp v k with
  | inl e => throw e
  | inr x => ret x
  end.

(** [JSON.parse], which throws a [SyntaxError] on malformed text. *)
Definition parse (text : string) : Eff json :=
  match JSON_parse text with
  | Some v => ret v
  | None => throw SyntaxError
  end.

(** [loadConfig] returns the parsed value itself; the cast to
    [ExportConfig] is erased at run time. *)
Definition loadConfig : Eff json :=
  dir <- gets cwd ;;
  let configPath := path_join dir "pdf-export.config.json" in
  found <- existsSync configPath ;;
  if negb found then
    console Err "❌ Configuration file not found: pdf-export.config.json" ;;
    console Err no_config_hint ;;
    exit 1
  else
    try_catch
      (configContent <- readFileSync configPath ;;
       config <- parse configContent ;;
       url <- prop config "devServerUrl" ;;
       missing <- (if negb (truthy url) then ret true
                   else total <- prop config "totalSlides" ;; ret (negb (truthy total))) ;;
       if missing : bool
       then throw (Error "Invalid configuration: missing required fields")
       else ret config)
      (fun error =>
         consoleError "❌ Failed to load configuration:" error ;;
         exit 1).

(** **** Paths *)

Definition OUTPUT_DIR (w : World) : string := path_join (cwd w) "exports".
Definition SCREENSHOTS_DIR (w : World) : string := path_join (OUTPUT_DIR w) "screenshots".
Definition OUTPUT_FILE (w : World) : string := path_join (OUTPUT_DIR w) "presentation.pdf".

(** **** [waitForAnimation] *)

(** The variable [config] as the page knows it.  A function given to
    [page.waitForFunction] is sent to the page as its text and runs there on
    the arguments that follow the options.  [waitForAnimation] passes none
    (where [navigateToSlide] and [hideUIElements] pass the selectors to
    [page.evaluate]), so the [config] of the polled function is not the
    script's but a global of the page, and a presentation defines none:
    reading it throws a [ReferenceError]. *)
Definition pageConfig : option ExportConfig := None.

(** The function polled in the page, as it is written: "the main content
    element exists and its computed opacity is above 0.9".  [None]: the
    call throws, before it looks at the document. *)
Definition mainContentVisible (d : Dom) : option bool :=
  config ← pageConfig;
  match querySelector (mainContent (selectors config)) d with
  | None => Some false
  | Some main => Some (negb (Qle_bool (computedOpacity main) (9 # 10)))
  end.

(** A poll holds on a document when the polled function returns a truthy
    value there.  A call that throws gives the poll no value: the poll goes
    on to its timeout. *)
Definition holds (predicate : Dom -> option bool) (d : Dom) : bool :=
  default false (predicate d).

Definition waitForAnimation (config : ExportConfig) (delay : option Z) : Eff unit :=
  let waitTime := or_default delay (animationWaitTime config) in
  sleep waitTime ;;
  try_catch
    (waitForFunction (holds mainContentVisible) 3000)
    (fun e => ret tt).

(** **** [navigateToSlide] *)

(** The script evaluated in the page: the zero-based index of the current
    slide, read from the progress bar ([None] is [NaN]). *)
Definition readCurrentSlide (selector : string) (d : Dom) : option Z :=
  let ariaValueNow := querySelector selector d ≫= getAttribute "aria-valuenow" in
  match ariaValueNow with
  | Some s => if String.eqb s "" then Some 0 else (fun n => n - 1) <$> parseInt s
  | None => Some 0
  end.

Definition keyThenWait (key : Key) (config : ExportConfig) (delay : Z) (i : Z) (u : unit)
    : Eff unit :=
  press key ;;
  waitForAnimation config (Some delay).

Definition navigateToSlide (slideIndex : Z) (config : ExportConfig) : Eff unit :=
  currentSlide <- evaluate (readCurrentSlide (progressBar (selectors config))) ;;
  let steps := (fun c => slideIndex - c) <$> currentSlide in
  match steps with
  | Some steps =>
      if 0 <? steps then
        for_lt 0 steps (keyThenWait ArrowRight config (slideTransitionWaitTime config)) tt
      else if steps <? 0 then
        for_lt 0 (Z.abs steps) (keyThenWait ArrowLeft config (slideTransitionWaitTime config)) tt
      else
        waitForAnimation config (Some 500)
  | None => waitForAnimation config (Some 500)
  end.

(** **** [navigateSubSlide] *)

Inductive Direction : Type := down | up.

Definition navigateSubSlide (direction : Direction) (config : ExportConfig) : Eff unit :=
  let key := match direction with down => ArrowDown | up => ArrowUp end in
  press key ;;
  waitForAnimation config (Some (subSlideTransitionWaitTime config)).

(** **** [hideUIElements] *)

Definition quoted (s : string) : string :=
  String "034"%char (s +:+ String "034"%char "").

Definition hideIfFound (selector : string) (d : Dom) : Dom :=
  match querySelector selector d with
  | Some e => displayNone e d
  | None => d
  end.

Definition includesSlash (text : option string) : bool :=
  match text with
  | Some s => existsb (Ascii.eqb "/"%char) (list_ascii_of_string s)
  | None => false
  end.

Definition hideScript (sels : Selectors) (d : Dom) : Dom :=
  let d := hideIfFound (header sels) d in
  let d := hideIfFound (navigation sels) d in
  let d := hideIfFound (progressBar sels) d in
  let indicators := querySelectorAll ("[class*=" +:+ quoted "fixed bottom" +:+ "]") d in
  fold_left (fun d indicator =>
               if includesSlash (textContent indicator) then displayNone indicator d else d)
            indicators d.

Definition hideUIElements (config : ExportConfig) : Eff unit :=
  evaluateUpdate (hideScript (selectors config)) ;;
  waitForAnimation config (Some 300).

(** **** [waitForSlideContent] *)

Definition typewriterDone (d : Dom) : bool :=
  let terminal :=
    match querySelector ("[class*=" +:+ quoted "Terminal" +:+ "]") d with
    | Some e => Some e
    | None => querySelector ("[class*=" +:+ quoted "terminal" +:+ "]") d
    end in
  match terminal with
  | Some t => 20 <? Z.of_nat (length (elementQuerySelectorAll "div, p, span" t))
  | None => true
  end.

Definition waitForSlideContent (slideIndex : Z) (config : ExportConfig) : Eff unit :=
  try_catch
    (waitForSelector (mainContent (selectors config)) true 5000)
    (fun e => ret tt) ;;
  let specialSlide := specialSlides config ≫= (fun m => m !! pretty slideIndex) in
  (match specialSlide ≫= typewriterEffect with
   | Some true =>
       let waitTime := or_default (specialSlide ≫= typewriterWaitTime) 3000 in
       try_catch (waitForFunction typewriterDone waitTime) (fun e => ret tt) ;;
       sleep waitTime
   | _ => ret tt
   end) ;;
  waitForAnimation config (Some 1500).

(** **** [takeScreenshot] *)

Definition takeScreenshot (filename : string) (slideIndex : Z) (config : ExportConfig)
    : Eff Buffer :=
  setViewport (width (viewport config)) (height (viewport config)) ;;
  waitForSlideContent slideIndex config ;;
  emit Screenshot ;;
  gets (fun w => pageScreenshot (page w)).

(** **** [convertImageToPDF] *)

Definition convertImageToPDF (imageBuffer : Buffer) : PDFDocument :=
  let imageDims := pngSize imageBuffer in
  [ {| pageWidth := fst imageDims; pageHeight := snd imageDims; image := imageBuffer |} ].

(** **** [checkDevServer] *)

(** [http.get] is called in the executor of the promise: when it throws,
    the promise is rejected, and the [await] of the caller throws. *)
Definition checkDevServer (url : string) : Eff bool :=
  answer <- gets (fun w => server w url) ;;
  match answer with
  | Refused => throw TypeError
  | Response statusCode => emit (HttpGet url 2000) ;; ret (statusCode =? 200)
  | NetworkError => emit (HttpGet url 2000) ;; ret false
  | NoAnswer => emit (HttpGet url 2000) ;; ret false
  end.

(** **** [findChromeExecutable] *)

Definition firstExisting (chromePaths : list string) : Eff (option string) :=
  for_of chromePaths
    (fun chromePath found =>
       match found with
       | Some _ => ret found
       | None => there <- existsSync chromePath ;;
                 ret (if there : bool then Some chromePath else None)
       end)
    None.

Definition findChromeExecutable : Eff (option string) :=
  os <- gets platform ;;
  if String.eqb os "darwin" then
    firstExisting [ "/Applications/Google Chrome.app/Contents/MacOS/Google Chrome";
                    "/Applications/Chromium.app/Contents/MacOS/Chromium" ]
  else if String.eqb os "win32" then
    firstExisting [ "C:\Program Files\Google\Chrome\Application\chrome.exe";
                    "C:\Program Files (x86)\Google\Chrome\Application\chrome.exe" ]
  else ret None.

(** **** [exportPresentationToPDF] *)

(** The local variables of the export loop. *)
Record Locals : Type := {
  mergedPdf : PDFDocument;
  screenshotFiles : list string;
  totalPages : Z
}.

Definition typeName (t : SlideType) : string :=
  match t with subSlide => "subSlide" | step => "step" end.

(** The statements both branches of the loop share: hide the UI, take the
    screenshot, write it next to the others, and append its one page to the
    merged document. *)
Definition exportPage (filename : string) (slideIndex : Z) (config : ExportConfig)
    (l : Locals) : Eff Locals :=
  hideUIElements config ;;
  dir <- gets SCREENSHOTS_DIR ;;
  let filepath := path_join dir filename in
  screenshot <- takeScreenshot filename slideIndex config ;;
  writeFileSync filepath (Binary screenshot) ;;
  let pdfDoc := convertImageToPDF screenshot in
  ret {| mergedPdf := mergedPdf l ++ pdfDoc;
         screenshotFiles := screenshotFiles l ++ [filepath];
         totalPages := totalPages l + 1 |}.

(** The body of the loop over the sub-slides of one slide. *)
Definition exportSubSlide (config : ExportConfig) (slideIndex : Z) (t : SlideType)
    (startIndex : Z) (subIndex : Z) (l : Locals) : Eff Locals :=
  (if startIndex <? subIndex then navigateSubSlide down config else ret tt) ;;
  let filename :=
    "slide-" +:+ pretty (slideIndex + 1) +:+ "-" +:+ typeName t +:+ "-" +:+
    pretty (subIndex + match t with step => 0 | subSlide => 1 end) +:+ ".png" in
  l' <- exportPage filename slideIndex config l ;;
  let displayIndex := match t with step => subIndex | subSlide => subIndex + 1 end in
  console Log ("      ✓ Exported " +:+ typeName t +:+ " " +:+ pretty displayIndex) ;;
  ret l'.

(** "Reset to first sub-slide for next main slide". *)
Definition resetSubSlides (config : ExportConfig) (t : SlideType) (endIndex : Z) : Eff unit :=
  match t with
  | subSlide => for_lt 0 endIndex (fun i u => navigateSubSlide up config) tt
  | step => navigateSubSlide down config
  end.

(** The branch of a slide that has sub-slides. *)
Definition exportSubSlides (config : ExportConfig) (slideIndex : Z) (subSlideConfig : SlideConfig)
    (l : Locals) : Eff Locals :=
  let t := type subSlideConfig in
  let startIndex := match t with subSlide => 0 | step => 1 end in
  let endIndex := match t with subSlide => max subSlideConfig | step => max subSlideConfig end in
  console Log ("   └─ Found " +:+ pretty (endIndex - startIndex + 1) +:+ " " +:+
               match t with subSlide => "sub-slides" | step => "steps" end) ;;
  l' <- for_le startIndex endIndex (exportSubSlide config slideIndex t startIndex) l ;;
  resetSubSlides config t endIndex ;;
  ret l'.

(** The body of the loop over the slides. *)
Definition exportSlide (config : ExportConfig) (slideIndex : Z) (l : Locals) : Eff Locals :=
  console Log ("📄 Exporting slide " +:+ pretty (slideIndex + 1) +:+ "/" +:+
               pretty (totalSlides config) +:+ "...") ;;
  navigateToSlide slideIndex config ;;
  match slidesWithSubSlides config !! pretty slideIndex with
  | Some subSlideConfig => exportSubSlides config slideIndex subSlideConfig l
  | None =>
      l' <- exportPage ("slide-" +:+ pretty (slideIndex + 1) +:+ ".png") slideIndex config l ;;
      console Log "   ✓ Exported" ;;
      ret l'
  end.

Definition exportSlides (config : ExportConfig) (l : Locals) : Eff Locals :=
  for_lt 0 (totalSlides config) (exportSlide config) l.

Definition noPages : Locals :=
  {| mergedPdf := []; screenshotFiles := []; totalPages := 0 |}.

(** The [try] block of [exportPresentationToPDF]. *)
Definition exportBody (config : ExportConfig) : Eff unit :=
  console Log ("🌐 Navigating to " +:+ devServerUrl config +:+ "...") ;;
  goto (devServerUrl config) 30000 ;;
  try_catch
    (waitForSelector (progressBar (selectors config)) false 10000)
    (fun e => console Warn "⚠️  Progress bar not found, continuing anyway...") ;;
  waitForAnimation config (Some 1000) ;;
  console Log ("✅ Presentation loaded" +:+ nl) ;;
  l <- exportSlides config noPages ;;
  console Log (nl +:+ "💾 Saving PDF (" +:+ pretty (totalPages l) +:+ " pages)...") ;;
  let pdfBytes := save (mergedPdf l) in
  out <- gets OUTPUT_FILE ;;
  writeFileSync out (Binary pdfBytes) ;;
  shots <- gets SCREENSHOTS_DIR ;;
  console Log (nl +:+ "✅ PDF exported successfully!") ;;
  console Log ("📁 Location: " +:+ out) ;;
  console Log ("📊 Total pages: " +:+ pretty (totalPages l)) ;;
  console Log ("📸 Screenshots saved in: " +:+ shots).

Definition ensureDir (path : string) : Eff unit :=
  found <- existsSync path ;;
  if found : bool then ret tt else mkdirSync path.

(** [exportPresentationToPDF] once the dev server was found running: from
    "Create output directories" to the end of the function. *)
Definition exportWithBrowser (config : ExportConfig) : Eff unit :=
  console Log ("✅ Dev server is running" +:+ nl) ;;
  out <- gets OUTPUT_DIR ;;
  ensureDir out ;;
  shots <- gets SCREENSHOTS_DIR ;;
  ensureDir shots ;;
  console Log "🌐 Launching browser..." ;;
  executablePath <- findChromeExecutable ;;
  (match executablePath with
   | Some chrome => console Log ("   Using Chrome: " +:+ chrome)
   | None => ret tt
   end) ;;
  emit (Launch executablePath 60000) ;;
  emit NewPage ;;
  emit (SetDefaultTimeout 60000) ;;
  emit (SetDefaultNavigationTimeout 60000) ;;
  setViewport (width (viewport config)) (height (viewport config)) ;;
  try_finally
    (try_catch
       (exportBody config)
       (fun error => consoleError "❌ Error during export:" error ;;
                     throw error))
    (emit Close).

(** [exportPresentationToPDF] from the line after [loadConfig] on. *)
Definition exportWithConfig (config : ExportConfig) : Eff unit :=
  console Log ("📋 Configuration loaded: " +:+ pretty (totalSlides config) +:+ " slides" +:+ nl) ;;
  console Log "🔍 Checking if dev server is running..." ;;
  serverRunning <- checkDevServer (devServerUrl config) ;;
  if negb serverRunning then
    console Err "❌ Dev server is not running!" ;;
    console Err ("   Expected URL: " +:+ devServerUrl config) ;;
    console Err "   Please run: npm run dev" ;;
    console Err "   Then in another terminal run: npm run export:pdf" ;;
    exit 1
  else
    exportWithBrowser config.

(** The value [loadConfig] returned, used at the type [ExportConfig].  On a
    value that does not have that type in a field the script reads, the run
    depends on what JavaScript does with the ill-typed field (a coercion, an
    [undefined], a [TypeError] at the place of use); the model stops there
    with a [TypeError], and the properties of a run below are about
    configurations that have the type. *)
Definition typed (raw : json) : Eff ExportConfig :=
  match asExportConfig raw with
  | Some config => ret config
  | None => throw TypeError
  end.

Definition exportPresentationToPDF : Eff unit :=
  console Log ("🚀 Starting PDF export (screenshot-based)..." +:+ nl) ;;
  raw <- loadConfig ;;
  config <- typed raw ;;
  exportWithConfig config.

(** "Run export": the script's entry point. *)
Definition main : Eff unit :=
  try_catch
    (exportPresentationToPDF ;;
     console Log (nl +:+ "🎉 Export completed!") ;;
     exit 0)
    (fun error =>
       consoleError (nl +:+ "💥 Export failed:") error ;;
       exit 1).

(** *** Reading a trace *)

(** The keys pressed, in order. *)
Definition keys (t : list Event) : list Key :=
  omap (fun e => match e with KeyPress k => Some k | _ => None end) t.

(** The keys pressed and the screenshots taken, in order. *)
Inductive Step : Type := Pressed (k : Key) | Captured.

Definition steps (t : list Event) : list Step :=
  omap (fun e => match e with
                 | KeyPress k => Some (Pressed k)
                 | Screenshot => Some Captured
                 | _ => None
                 end) t.

(** The actions that need a browser. *)
Definition isBrowserEvent (e : Event) : bool :=
  match e with
  | Console _ _ | ConsoleError _ _ | HttpGet _ _ | Mkdir _ | WriteFile _ | Sleep _ => false
  | _ => true
  end.

Definition isHttpGet (e : Event) : bool :=
  match e with HttpGet _ _ => true | _ => false end.

(** The trace of one call [waitForAnimation(page, config, delay)]. *)
Definition settle (config : ExportConfig) (delay : Z) : list Event :=
  [ Sleep (or_default (Some delay) (animationWaitTime config)); WaitForFunction 3000 ].

(** The screenshots of [n] successive states of a slide, with one ArrowDown
    between two of them. *)
Definition captureStates (n : nat) : list Step :=
  match n with
  | O => []
  | Datatypes.S k => Captured :: concat (repeat [Pressed ArrowDown; Captured] k)
  end.

(** A configuration with another sub-slide mapping. *)
Definition withSubSlides (m : gmap string SlideConfig) (config : ExportConfig) : ExportConfig :=
  {| devServerUrl := devServerUrl config; totalSlides := totalSlides config;
     slidesWithSubSlides := m;
     pdfFormat := pdfFormat config; landscape := landscape config;
     hideUIElementsFlag := hideUIElementsFlag config;
     animationWaitTime := animationWaitTime config;
     slideTransitionWaitTime := slideTransitionWaitTime config;
     subSlideTransitionWaitTime := subSlideTransitionWaitTime config;
     viewport := viewport config; selectors := selectors config;
     specialSlides := specialSlides config |}.

(** *** What the specification expects of the exported document *)

(** The number of pages of a slide: [max + 1] for a "subSlide" specification
    (the states [0..max]), [max] for a "step" specification (the steps
    [1..max]), one page for a slide without a specification. *)
Definition pagesOfSlide (config : ExportConfig) (slideIndex : Z) : Z :=
  match slidesWithSubSlides config !! pretty slideIndex with
  | Some subSlideConfig =>
      match type subSlideConfig with
      | subSlide => max subSlideConfig + 1
      | step => max subSlideConfig
      end
  | None => 1
  end.

Definition expectedPages (config : ExportConfig) : Z :=
  foldr Z.add 0 (pagesOfSlide config <$> seqZ 0 (totalSlides config)).

(** The range [min, max] of a specification. *)
Definition firstState (t : SlideType) : Z :=
  match t with subSlide => 0 | step => 1 end.

(** A well-formed configuration: a positive number of slides, and no
    specification with an empty range. *)
Definition wellFormed (config : ExportConfig) : Prop :=
  0 < totalSlides config /\
  forall k subSlideConfig,
    slidesWithSubSlides config !! k = Some subSlideConfig ->
    firstState (type subSlideConfig) <= max subSlideConfig.

(** *** The vocabulary of the proofs *)

(** [total m P]: on every world [m] returns a value, leaves the working
    directory where it was, and its value and trace satisfy [P]. *)
Definition total {A} (m : Eff A) (P : A -> list Event -> Prop) : Prop :=
  forall w, exists a w' t, m w = (Ret a, w', t) /\ cwd w' = cwd w /\ P a t.

(** [lands m Q]: as [total], with a postcondition on the final world too. *)
Definition lands {A} (m : Eff A) (Q : A -> World -> list Event -> Prop) : Prop :=
  forall w, exists a w' t, m w = (Ret a, w', t) /\ cwd w' = cwd w /\ Q a w' t.

(** [n] pages more: what exporting does to the local variables. *)
Definition morePages (n : nat) (l l' : Locals) : Prop :=
  (exists ps, mergedPdf l' = mergedPdf l ++ ps /\ length ps = n) /\
  totalPages l' = totalPages l + Z.of_nat n.

(** The number of sub-states the loop of [exportSubSlides] goes through. *)
Definition statesOf (subSlideConfig : SlideConfig) : nat :=
  Z.to_nat (max subSlideConfig + 1 - firstState (type subSlideConfig)).

(** The number of pages the loop adds for a slide. *)
Definition pagesAdded (config : ExportConfig) (slideIndex : Z) : nat :=
  match slidesWithSubSlides config !! pretty slideIndex with
  | Some subSlideConfig => statesOf subSlideConfig
  | None => 1%nat
  end.

(** What a run that reached the end of the [try] block left on disk. *)
Definition exported (config : ExportConfig) (w' : World) : Prop :=
  exists l,
    files w' !! OUTPUT_FILE w' = Some (Binary (save (mergedPdf l))) /\
    morePages (sum_list (pagesAdded config <$> seqZ 0 (totalSlides config))) noPages l.

(** The path of the configuration file. *)
Definition configPath (w : World) : string := path_join (cwd w) "pdf-export.config.json".

(** What the loader prints for a configuration without its required
    fields. *)
Definition rejected : Event :=
  ConsoleError "❌ Failed to load configuration:"
                 (Error "Invalid configuration: missing required fields").

(** *** More vocabulary: the run of an export, from outside the page *)

(** The waits and the actions inside the open page (the loading of a URL
    is not one of them). *)
Definition inPage (e : Event) : bool :=
  match e with
  | SetViewport _ _ | WaitForSelector _ _ _ | WaitForFunction _
  | Evaluate | KeyPress _ | Sleep _ | Screenshot => true
  | _ => false
  end.

Definition isGoto (e : Event) : bool :=
  match e with Goto _ _ => true | _ => false end.

(** Every use of the [page] object. *)
Definition onPage (e : Event) : bool := inPage e || isGoto e.

Definition isConsole (e : Event) : bool :=
  match e with Console _ _ | ConsoleError _ _ => true | _ => false end.

(** What a run does outside the page and the console: its requests and
    page loads, and its actions on the file system and the browser process,
    in order. *)
Definition outward (t : list Event) : list Event :=
  filter (fun e => negb (inPage e || isConsole e)) t.

Definition slideFile (slideIndex : Z) : string :=
  "slide-" +:+ pretty (slideIndex + 1) +:+ ".png".

Definition subSlideFile (slideIndex : Z) (t : SlideType) (subIndex : Z) : string :=
  "slide-" +:+ pretty (slideIndex + 1) +:+ "-" +:+ typeName t +:+ "-" +:+
  pretty (subIndex + match t with step => 0 | subSlide => 1 end) +:+ ".png".

(** The screenshots of a slide, by name: one per state of its range. *)
Definition screenshotNames (config : ExportConfig) (slideIndex : Z) : list string :=
  match slidesWithSubSlides config !! pretty slideIndex with
  | Some subSlideConfig =>
      let t := type subSlideConfig in
      subSlideFile slideIndex t <$> seqZ (firstState t) (max subSlideConfig + 1 - firstState t)
  | None => [slideFile slideIndex]
  end.

Definition allScreenshotNames (config : ExportConfig) : list string :=
  seqZ 0 (totalSlides config) ≫= screenshotNames config.

(** The trace of [waitForSlideContent]. *)
Definition contentWaits (slideIndex : Z) (config : ExportConfig) : list Event :=
  let specialSlide := specialSlides config ≫= (fun m => m !! pretty slideIndex) in
  WaitForSelector (mainContent (selectors config)) true 5000 ::
  match specialSlide ≫= typewriterEffect with
  | Some true =>
      let waitTime := or_default (specialSlide ≫= typewriterWaitTime) 3000 in
      [WaitForFunction waitTime; Sleep waitTime]
  | _ => []
  end ++ settle config 1500.

(** [landsIn c m Q]: as [lands], for the runs that start in the working
    directory [c]. *)
Definition landsIn {A} (c : string) (m : Eff A) (Q : A -> World -> list Event -> Prop) : Prop :=
  forall w, cwd w = c -> exists a w' t, m w = (Ret a, w', t) /\ cwd w' = c /\ Q a w' t.

Definition shotsDir (c : string) : string := path_join (path_join c "exports") "screenshots".

(** The local variables after the screenshots [names] were added. *)
Definition grown (dir : string) (names : list string) (l l' : Locals) : Prop :=
  exists shots : list Buffer,
    length shots = length names /\
    mergedPdf l' = mergedPdf l ++ (shots ≫= convertImageToPDF) /\
    screenshotFiles l' = screenshotFiles l ++ (path_join dir <$> names) /\
    totalPages l' = totalPages l + Z.of_nat (length names).

Definition outDir (c : string) : string := path_join c "exports".
Definition outFile (c : string) : string := path_join (path_join c "exports") "presentation.pdf".

(** How a browser session starts. *)
Definition launching (executablePath : option string) : list Event :=
  [ Launch executablePath 60000; NewPage; SetDefaultTimeout 60000;
    SetDefaultNavigationTimeout 60000 ].

(** The trace [t] and the final world [w'] of an export with a browser
    session, started in the working directory [c]: what comes before the
    launch acts on no page and creates at most the directories [mkdirs];
    between the launch and the closing of the browser, the presentation is
    loaded once, and the screenshots and then the document are written. *)
Definition session (c : string) (config : ExportConfig) (mkdirs : list Event)
    (w' : World) (t : list Event) : Prop :=
  exists pre executablePath body l,
    t = pre ++ launching executablePath ++ body ++ [Close] /\
    Forall (fun e => inPage e = false) pre /\
    sublist (outward pre) mkdirs /\
    outward body = Goto (devServerUrl config) 30000 ::
                   (WriteFile <$> (path_join (shotsDir c) <$> allScreenshotNames config))
                   ++ [WriteFile (outFile c)] /\
    grown (shotsDir c) (allScreenshotNames config) noPages l /\
    files w' !! outFile c = Some (Binary (save (mergedPdf l))).

(** The worlds where nothing is in the way of what the export writes: at the
    paths of its two directories there is no file, and at the paths of its
    files (the document, and the screenshots [names]) there is no
    directory.  Elsewhere [fs.mkdirSync] or [fs.writeFileSync] throws
    (ENOTDIR, EISDIR), which [mkdirSync] and [writeFileSync] above leave
    out. *)
Definition outputsFree (names : list string) (w : World) : Prop :=
  files w !! OUTPUT_DIR w = None /\
  files w !! SCREENSHOTS_DIR w = None /\
  (OUTPUT_FILE w ∉ dirs w) /\
  Forall (fun name => path_join (SCREENSHOTS_DIR w) name ∉ dirs w) names.


Definition isWriteFile (e : Event) : bool :=
  match e with WriteFile _ => true | _ => false end.

(** The actions on the browser process. *)
Definition onBrowserProcess (e : Event) : bool :=
  match e with
  | Launch _ _ | NewPage | SetDefaultTimeout _ | SetDefaultNavigationTimeout _ | Close => true
  | _ => false
  end.

(** Where [findChromeExecutable] looks for Chrome on a platform. *)
Definition chromePaths (os : string) : list string :=
  if String.eqb os "darwin" then
    [ "/Applications/Google Chrome.app/Contents/MacOS/Google Chrome";
      "/Applications/Chromium.app/Contents/MacOS/Chromium" ]
  else if String.eqb os "win32" then
    [ "C:\Program Files\Google\Chrome\Application\chrome.exe";
      "C:\Program Files (x86)\Google\Chrome\Application\chrome.exe" ]
  else [].

(** [fs.existsSync], as a property of the world. *)
Definition pathExists (w : World) (path : string) : bool :=
  bool_decide (is_Some (files w !! path)) || bool_decide (path ∈ dirs w).

End Script.
End PdfExport.

(** ** A sample runtime: an ideal deck

    A presentation that follows every key at once: ArrowRight and ArrowLeft
    move between slides (and show the slide's first state), ArrowDown and
    ArrowUp move between the states of a slide.  Its progress bar shows the
    one-based number of the current slide, its content is always opaque, and
    a screenshot is a picture of the current (slide, state).  It is used to
    run the script on concrete inputs. *)

Module IdealDeck.
Import PdfExport.

Record Shown : Type := { slide : Z; state : Z }.

(** The buffers of this runtime: a screenshot is the picture of what the
    page shows, a PDF file is the list of its pages. *)
Inductive Bytes : Type :=
| Png (shown : Shown)
| Pdf (pages : list (option (Z * Z * Bytes))).

(** [parseInt(s)], on the ASCII strings an attribute of this deck holds:
    leading white space is skipped, a sign is read, then the digits as far
    as they go, in base 16 after [0x] or [0X] and in base 10 otherwise;
    [NaN] ([None]) when there is no digit. *)
Definition isSpace (c : ascii) : bool :=
  let n := Z.of_nat (nat_of_ascii c) in
  ((9 <=? n) && (n <=? 13)) || (n =? 32).

Fixpoint skipSpace (s : string) : string :=
  match s with
  | String c s' => if isSpace c then skipSpace s' else s
  | EmptyString => EmptyString
  end.

Definition digit (radix : Z) (c : ascii) : option Z :=
  let n := Z.of_nat (nat_of_ascii c) in
  d ← (if (48 <=? n) && (n <=? 57) then Some (n - 48)
       else if (97 <=? n) && (n <=? 122) then Some (n - 87)
       else if (65 <=? n) && (n <=? 90) then Some (n - 55)
       else None);
  if d <? radix then Some d else None.

Fixpoint digits (radix : Z) (acc : option Z) (s : string) : option Z :=
  match s with
  | EmptyString => acc
  | String c s' =>
      match digit radix c with
      | Some d => digits radix (Some (radix * default 0 acc + d)) s'
      | None => acc
      end
  end.

Definition jsParseInt (s : string) : option Z :=
  let s := skipSpace s in
  let signed :=
    match s with
    | String "-"%char s' => (-1, s')
    | String "+"%char s' => (1, s')
    | _ => (1, s)
    end in
  let based :=
    match snd signed with
    | String "0"%char (String "x"%char s') => (16, s')
    | String "0"%char (String "X"%char s') => (16, s')
    | s' => (10, s')
    end in
  Z.mul (fst signed) <$> digits (fst based) None (snd based).

Definition sampleConfigText : string := "pdf-export.config.json of the sample project".

(** Three slides; the second one has the sub-slides 0, 1 and 2. *)
Definition sampleConfigJson : json :=
  JObject [
    ("devServerUrl", JString "http://localhost:5173");
    ("totalSlides", JNumber 3);
    ("slidesWithSubSlides",
       JObject [ ("1", JObject [ ("type", JString "subSlide"); ("max", JNumber 2) ]) ]);
    ("pdfFormat", JString "A4");
    ("landscape", JBool true);
    ("hideUIElements", JBool true);
    ("animationWaitTime", JNumber 1000);
    ("slideTransitionWaitTime", JNumber 800);
    ("subSlideTransitionWaitTime", JNumber 1200);
    ("viewport", JObject [ ("width", JNumber 1920); ("height", JNumber 1080) ]);
    ("selectors",
       JObject [ ("progressBar", JString "[role=progressbar]");
                 ("mainContent", JString "main");
                 ("header", JString "header");
                 ("navigation", JString "nav") ])
  ].

Definition sampleConfig : ExportConfig :=
  {| devServerUrl := "http://localhost:5173";
     totalSlides := 3;
     slidesWithSubSlides := {[ "1" := {| type := subSlide; max := 2; comment := None |} ]};
     pdfFormat := Some (JString "A4");
     landscape := Some (JBool true);
     hideUIElementsFlag := Some (JBool true);
     animationWaitTime := 1000;
     slideTransitionWaitTime := 800;
     subSlideTransitionWaitTime := 1200;
     viewport := {| width := 1920; height := 1080 |};
     selectors := {| progressBar := "[role=progressbar]"; mainContent := "main";
                     header := "header"; navigation := "nav" |};
     specialSlides := None |}.

(** The sample configuration with no wait between two slides. *)
Definition instantConfig : ExportConfig :=
  {| devServerUrl := devServerUrl sampleConfig;
     totalSlides := totalSlides sampleConfig;
     slidesWithSubSlides := slidesWithSubSlides sampleConfig;
     pdfFormat := pdfFormat sampleConfig;
     landscape := landscape sampleConfig;
     hideUIElementsFlag := hideUIElementsFlag sampleConfig;
     animationWaitTime := animationWaitTime sampleConfig;
     slideTransitionWaitTime := 0;
     subSlideTransitionWaitTime := subSlideTransitionWaitTime sampleConfig;
     viewport := viewport sampleConfig;
     selectors := selectors sampleConfig;
     specialSlides := specialSlides sampleConfig |}.

(** The sample configuration with a specification for a tenth slide it does
    not have. *)
Definition strayConfig : ExportConfig :=
  withSubSlides (<[ "9" := {| type := step; max := 4; comment := None |} ]>
                   (slidesWithSubSlides sampleConfig))
                sampleConfig.

(** The sample configuration with the address of a dev server behind TLS:
    [http.get] refuses its url. *)
Definition secureConfigText : string := "pdf-export.config.json with an https url".

Definition secureConfigJson : json :=
  JObject (("devServerUrl", JString "https://localhost:5173")
           :: tail (match sampleConfigJson with JObject members => members | _ => [] end)).

(** A configuration file of a deck without slides. *)
Definition emptyDeckText : string := "pdf-export.config.json of an empty deck".

Definition emptyDeckJson : json :=
  JObject [ ("devServerUrl", JString "http://localhost:5173"); ("totalSlides", JNumber 0) ].

(** The texts [JSON.parse] knows in this runtime, with their values. *)
Definition documents : list (string * json) :=
  [ (sampleConfigText, sampleConfigJson); (emptyDeckText, emptyDeckJson);
    (secureConfigText, secureConfigJson) ].

#[export] Instance runtime : Runtime := {|
  Page := Shown;
  Dom := Shown;
  Element := Shown;
  Buffer := Bytes;
  path_join := fun a b => a +:+ "/" +:+ b;
  JSON_parse := fun text => assoc text documents;
  utf8 := fun _ => "";
  parseInt := jsParseInt;
  querySelector := fun _ d => Some d;
  querySelectorAll := fun _ _ => [];
  elementQuerySelectorAll := fun _ _ => [];
  getAttribute := fun name e =>
    if String.eqb name "aria-valuenow" then Some (pretty (slide e + 1)) else None;
  textContent := fun _ => None;
  computedOpacity := fun _ => 1%Q;
  displayNone := fun _ d => d;
  document := fun p => p;
  setDocument := fun d _ => d;
  keyboardPress := fun key p =>
    match key with
    | ArrowRight => {| slide := slide p + 1; state := 0 |}
    | ArrowLeft => {| slide := slide p - 1; state := 0 |}
    | ArrowDown => {| slide := slide p; state := state p + 1 |}
    | ArrowUp => {| slide := slide p; state := state p - 1 |}
    end;
  elapse := fun _ p => p;
  pageSetViewport := fun _ _ p => p;
  pageGoto := fun _ _ => {| slide := 0; state := 0 |};
  pageWaitForSelector := fun _ _ _ p => (true, p);
  pageWaitForFunction := fun predicate _ p => (predicate p, p);
  pageScreenshot := Png;
  pngSize := fun _ => (1920, 1080);
  pdfSave := fun pages => Pdf (match pages with [] => [None] | _ => Some <$> pages end);
  pdfPagesIn := fun bytes => match bytes with Pdf pages => pages | Png _ => [] end;
  pdfPagesIn_save := fun pages => eq_refl
|}.

(** A project directory with a configuration file, its dev server answering
    (or not), and the browser showing slide [shown]. *)
Definition project (configText : string) (answer : Probe) (shown : Z) : World :=
  {| cwd := "/project";
     platform := "linux";
     files := {[ "/project/pdf-export.config.json" := Text configText ]};
     dirs := {[ "/project" ]};
     server := fun _ => answer;
     page := {| slide := shown; state := 0 |} |}.

End IdealDeck.

(** ** A second sample runtime: a page that stands still

    The page is its progress bar: the value of the bar's [aria-valuenow]
    attribute, or no progress bar at all ([None]).  No key moves it.  It is
    used to run the script where the progress bar cannot be read, and the
    loader on files that hold other JSON than an object. *)

Module BareDeck.
Import PdfExport.

(** The texts [JSON.parse] knows in this runtime, with their values. *)
Definition documents : list (string * json) :=
  [ ("null", JNull); ("[1, 2]", JArray [JNumber 1; JNumber 2]); ("42", JNumber 42) ].

#[export] Instance runtime : Runtime := {|
  Page := option string;
  Dom := option string;
  Element := option string;
  Buffer := IdealDeck.Bytes;
  path_join := fun a b => a +:+ "/" +:+ b;
  JSON_parse := fun text => assoc text documents;
  utf8 := fun _ => "";
  parseInt := IdealDeck.jsParseInt;
  querySelector := fun selector d =>
    if String.eqb selector "[role=progressbar]"
    then match d with Some value => Some (Some value) | None => None end
    else Some None;
  querySelectorAll := fun _ _ => [];
  elementQuerySelectorAll := fun _ _ => [];
  getAttribute := fun name e => if String.eqb name "aria-valuenow" then e else None;
  textContent := fun _ => None;
  computedOpacity := fun _ => 1%Q;
  displayNone := fun _ d => d;
  document := fun p => p;
  setDocument := fun d _ => d;
  keyboardPress := fun _ p => p;
  elapse := fun _ p => p;
  pageSetViewport := fun _ _ p => p;
  pageGoto := fun _ p => p;
  pageWaitForSelector := fun _ _ _ p => (true, p);
  pageWaitForFunction := fun predicate _ p => (predicate p, p);
  pageScreenshot := fun _ => IdealDeck.Png {| IdealDeck.slide := 0; IdealDeck.state := 0 |};
  pngSize := fun _ => (1920, 1080);
  pdfSave := fun pages =>
    IdealDeck.Pdf (match pages with [] => [None] | _ => Some <$> pages end);
  pdfPagesIn := fun bytes =>
    match bytes with IdealDeck.Pdf pages => pages | IdealDeck.Png _ => [] end;
  pdfPagesIn_save := fun pages => eq_refl
|}.

(** A project directory with a configuration file, on a platform, with the
    files [others] besides, and the page showing the progress bar [bar]. *)
Definition project (configText : string) (os : string) (others : list string)
    (bar : option string) : World :=
  {| cwd := "/project";
     platform := os;
     files := list_to_map ((fun path => (path, Text "")) <$> others)
              ∪ {[ "/project/pdf-export.config.json" := Text configText ]};
     dirs := {[ "/project" ]};
     server := fun _ => NoAnswer;
     page := bar |}.

(** The sample configuration, with a typewriter effect on its second slide
    and no wait time given for it. *)
Definition typewriterConfig : ExportConfig :=
  {| devServerUrl := devServerUrl IdealDeck.sampleConfig;
     totalSlides := totalSlides IdealDeck.sampleConfig;
     slidesWithSubSlides := slidesWithSubSlides IdealDeck.sampleConfig;
     pdfFormat := pdfFormat IdealDeck.sampleConfig;
     landscape := landscape IdealDeck.sampleConfig;
     hideUIElementsFlag := hideUIElementsFlag IdealDeck.sampleConfig;
     animationWaitTime := animationWaitTime IdealDeck.sampleConfig;
     slideTransitionWaitTime := slideTransitionWaitTime IdealDeck.sampleConfig;
     subSlideTransitionWaitTime := subSlideTransitionWaitTime IdealDeck.sampleConfig;
     viewport := viewport IdealDeck.sampleConfig;
     selectors := selectors IdealDeck.sampleConfig;
     specialSlides :=
       Some {[ "1" := {| typewriterEffect := Some true; typewriterWaitTime := None;
                         specialComment := None |} ]} |}.

End BareDeck.

(** ** The base64 image fixer *)

Module ImageFix.

(** *** JavaScript strings and buffers

    A buffer is a list of bytes.  A string is the list of its code points
    (every character the script looks at is in the Basic Multilingual Plane,
    where code points and UTF-16 code units agree). *)

Abbreviation jsstring := (list Z).

Definition codes (s : string) : jsstring :=
  map (fun c => Z.of_nat (nat_of_ascii c)) (list_ascii_of_string s).

Definition byteZ (b : Byte.byte) : Z := Z.of_N (Byte.to_N b).

#[export] Instance byte_eq_decision : EqDecision Byte.byte := Byte.byte_eq_dec.

(** [buffer.toString('utf8')]: the UTF-8 decoder, which replaces every
    ill-formed sequence by U+FFFD and keeps a byte order mark. *)
Record Utf8State : Type := {
  needed : Z;
  seen : Z;
  codePoint : Z;
  lower : Z;
  upper : Z
}.

Definition utf8_initial : Utf8State :=
  {| needed := 0; seen := 0; codePoint := 0; lower := 0x80; upper := 0xBF |}.

(** A byte met when no sequence is open: the code point to emit, if any,
    and the state after it. *)
Definition utf8_lead (b : Z) : option Z * Utf8State :=
  if b <=? 0x7F then (Some b, utf8_initial)
  else if (0xC2 <=? b) && (b <=? 0xDF) then
    (None, {| needed := 1; seen := 0; codePoint := Z.land b 0x1F;
              lower := 0x80; upper := 0xBF |})
  else if (0xE0 <=? b) && (b <=? 0xEF) then
    (None, {| needed := 2; seen := 0; codePoint := Z.land b 0xF;
              lower := if b =? 0xE0 then 0xA0 else 0x80;
              upper := if b =? 0xED then 0x9F else 0xBF |})
  else if (0xF0 <=? b) && (b <=? 0xF4) then
    (None, {| needed := 3; seen := 0; codePoint := Z.land b 0x7;
              lower := if b =? 0xF0 then 0x90 else 0x80;
              upper := if b =? 0xF4 then 0x8F else 0xBF |})
  else (Some 0xFFFD, utf8_initial).

Fixpoint utf8_from (st : Utf8State) (bs : list Z) : jsstring :=
  match bs with
  | [] => if needed st =? 0 then [] else [0xFFFD]
  | b :: bs' =>
      if needed st =? 0 then
        match utf8_lead b with
        | (Some c, st') => c :: utf8_from st' bs'
        | (None, st') => utf8_from st' bs'
        end
      else if (lower st <=? b) && (b <=? upper st) then
        let cp := Z.lor (Z.shiftl (codePoint st) 6) (Z.land b 0x3F) in
        if seen st + 1 =? needed st
        then cp :: utf8_from utf8_initial bs'
        else utf8_from {| needed := needed st; seen := seen st + 1; codePoint := cp;
                          lower := 0x80; upper := 0xBF |} bs'
      else
        0xFFFD ::
        match utf8_lead b with
        | (Some c, st') => c :: utf8_from st' bs'
        | (None, st') => utf8_from st' bs'
        end
  end.

Definition toStringUtf8 (buffer : list Byte.byte) : jsstring :=
  utf8_from utf8_initial (map byteZ buffer).

(** White space and line terminators: what [trim] strips and [\s] matches. *)
Definition isWhiteSpace (c : Z) : bool :=
  ((0x09 <=? c) && (c <=? 0x0D)) || (c =? 0x20) || (c =? 0xA0) || (c =? 0x1680)
  || ((0x2000 <=? c) && (c <=? 0x200A)) || (c =? 0x2028) || (c =? 0x2029)
  || (c =? 0x202F) || (c =? 0x205F) || (c =? 0x3000) || (c =? 0xFEFF).

Fixpoint trimStart (s : jsstring) : jsstring :=
  match s with
  | c :: s' => if isWhiteSpace c then trimStart s' else s
  | [] => []
  end.

Definition trim (s : jsstring) : jsstring := rev (trimStart (rev (trimStart s))).

Fixpoint startsWith (s searchString : jsstring) : bool :=
  match searchString, s with
  | [], _ => true
  | p :: ps, c :: cs => (c =? p) && startsWith cs ps
  | _ :: _, [] => false
  end.

(** [s.replace(/\s/g, '')]. *)
Definition removeWhiteSpace (s : jsstring) : jsstring :=
  filter (fun c => isWhiteSpace c = false) s.

(** [name.endsWith('.png')]. *)
Definition endsWith (s suffix : string) : bool :=
  let n := String.length s in
  let k := String.length suffix in
  (k <=? n)%nat && String.eqb (String.substring (n - k) k s) suffix.

(** *** The outside world *)

(** What Node provides and the script only calls: [path.join],
    [path.basename], and [Buffer.from(s, 'base64')]. *)
Class Node : Type := {
  path_join : string -> string -> string;
  path_basename : string -> string;
  bufferFromBase64 : jsstring -> list Byte.byte
}.

Record Dirent : Type := { name : string; isFile : bool }.

(** A file system: the bytes of each file, the entries of each directory,
    and the files that cannot be written. *)
Record World : Type := {
  argv2 : option string;
  cwd : string;
  files : gmap string (list Byte.byte);
  dirs : gmap string (list Dirent);
  readOnly : gset string
}.

Inductive Event : Type :=
| ConsoleLog (text : string)
| WriteFile (path : string).

Abbreviation Eff := (M World Event).

Definition setFiles (fs : gmap string (list Byte.byte)) (w : World) : World :=
  {| argv2 := argv2 w; cwd := cwd w; files := fs; dirs := dirs w; readOnly := readOnly w |}.

Definition existsSync (path : string) : Eff bool :=
  gets (fun w => bool_decide (is_Some (files w !! path)) || bool_decide (is_Some (dirs w !! path))).

Definition readFileSync (path : string) : Eff jsstring :=
  fun w =>
    match files w !! path with
    | Some bytes => (Ret (toStringUtf8 bytes), w, [])
    | None =>
        if bool_decide (is_Some (dirs w !! path))
        then (Throw (SystemError "EISDIR"), w, [])
        else (Throw (SystemError "ENOENT"), w, [])
    end.

Definition writeFileSync (path : string) (data : list Byte.byte) : Eff unit :=
  fun w =>
    if bool_decide (path ∈ readOnly w)
    then (Throw (SystemError "EACCES"), w, [])
    else (Ret tt, setFiles (<[path := data]> (files w)) w, [WriteFile path]).

Definition readdirSync (path : string) : Eff (list Dirent) :=
  fun w =>
    match dirs w !! path with
    | Some items => (Ret items, w, [])
    | None =>
        if bool_decide (is_Some (files w !! path))
        then (Throw (SystemError "ENOTDIR"), w, [])
        else (Throw (SystemError "ENOENT"), w, [])
    end.

Section Script.
Context `{Node}.

(** *** The script *)

Definition PROJECT_ROOT (w : World) : string :=
  match argv2 w with
  | Some root => if String.eqb root "" then cwd w else root
  | None => cwd w
  end.

Definition ASSET_DIRS : list string := [ "public/assets"; "src/assets"; "build/assets" ].

(** The base64 text of the PNG signature. *)
Definition base64Header : jsstring := codes "iVBORw0KGgo".

Definition isBase64Encoded (filePath : string) : Eff bool :=
  try_catch
    (content <- readFileSync filePath ;;
     ret (startsWith (trim content) base64Header))
    (fun error => ret false).

(** [Buffer.from] does not throw on a string, so the [catch] of the source
    is never entered. *)
Definition decodeBase64ToBuffer (base64String : jsstring) : Eff (list Byte.byte) :=
  try_catch
    (let cleanBase64 := removeWhiteSpace (trim base64String) in
     ret (bufferFromBase64 cleanBase64))
    (fun error => throw (Error ("Failed to decode base64: " +:+ errorMessage error))).

Record Result : Type := {
  processed : bool;
  reason : option string;
  size : option Z
}.

Definition pngMagicBytes : list Byte.byte :=
  [ Byte.x89; Byte.x50; Byte.x4e; Byte.x47; Byte.x0d; Byte.x0a; Byte.x1a; Byte.x0a ].

Definition processFile (filePath : string) : Eff Result :=
  encoded <- isBase64Encoded filePath ;;
  if negb encoded then
    ret {| processed := false; reason := Some "Not base64-encoded"; size := None |}
  else
    try_catch
      (base64Content <- readFileSync filePath ;;
       binaryBuffer <- decodeBase64ToBuffer base64Content ;;
       if negb (bool_decide (take 8 binaryBuffer = pngMagicBytes)) then
         ret {| processed := false; reason := Some "Decoded content is not a valid PNG";
                size := None |}
       else
         writeFileSync filePath binaryBuffer ;;
         ret {| processed := true; reason := None;
                size := Some (Z.of_nat (length binaryBuffer)) |})
      (fun error =>
         ret {| processed := false; reason := Some (errorMessage error); size := None |}).

Definition findPngFiles (dir : string) : Eff (list string) :=
  found <- existsSync dir ;;
  if negb found then ret []
  else
    items <- readdirSync dir ;;
    for_of items
      (fun item files =>
         let fullPath := path_join dir (name item) in
         ret (if isFile item && endsWith (name item) ".png"
              then files ++ [fullPath] else files))
      [].

(** [(size / 1024).toFixed(2)]: the exact quotient rounded to two decimals,
    halves up. *)
Definition toFixed2 (bytes : Z) : string :=
  let hundredths := (200 * bytes + 1024) / 2048 in
  let cents := hundredths mod 100 in
  pretty (hundredths / 100) +:+ "." +:+ (if cents <? 10 then "0" else "") +:+ pretty cents.

Record Totals : Type := {
  totalProcessed : Z;
  totalSkipped : Z;
  totalErrors : Z
}.

(** The body of the loop over the files of one directory. *)
Definition countFile (file : string) (t : Totals) : Eff Totals :=
  result <- processFile file ;;
  if processed result then
    emit (ConsoleLog ("  ✅ Decoded: " +:+ path_basename file +:+ " (" +:+
                      toFixed2 (default 0 (size result)) +:+ " KB)")) ;;
    ret {| totalProcessed := totalProcessed t + 1; totalSkipped := totalSkipped t;
           totalErrors := totalErrors t |}
  else if bool_decide (reason result = Some "Not base64-encoded") then
    ret {| totalProcessed := totalProcessed t; totalSkipped := totalSkipped t + 1;
           totalErrors := totalErrors t |}
  else
    emit (ConsoleLog ("  ❌ Error: " +:+ path_basename file +:+ " - " +:+
                      default "undefined" (reason result))) ;;
    ret {| totalProcessed := totalProcessed t; totalSkipped := totalSkipped t;
           totalErrors := totalErrors t + 1 |}.

(** The body of the loop over [ASSET_DIRS]. *)
Definition scanDir (dir : string) (t : Totals) : Eff Totals :=
  root <- gets PROJECT_ROOT ;;
  let fullDirPath := path_join root dir in
  found <- existsSync fullDirPath ;;
  if negb found then
    emit (ConsoleLog ("⚠️  Directory not found: " +:+ dir)) ;;
    ret t
  else
    emit (ConsoleLog ("📁 Checking: " +:+ dir)) ;;
    files <- findPngFiles fullDirPath ;;
    for_of files countFile t.

Definition main : Eff unit :=
  root <- gets PROJECT_ROOT ;;
  emit (ConsoleLog ("🔍 Scanning for base64-encoded PNG images in: " +:+ root +:+ nl)) ;;
  t <- for_of ASSET_DIRS scanDir
         {| totalProcessed := 0; totalSkipped := 0; totalErrors := 0 |} ;;
  emit (ConsoleLog (nl +:+ "📊 Summary:")) ;;
  emit (ConsoleLog ("   ✅ Decoded: " +:+ pretty (totalProcessed t))) ;;
  emit (ConsoleLog ("   ⏭️  Skipped (already binary): " +:+ pretty (totalSkipped t))) ;;
  emit (ConsoleLog ("   ❌ Errors: " +:+ pretty (totalErrors t))) ;;
  if 0 <? totalProcessed t then
    emit (ConsoleLog (nl +:+ "✨ Successfully decoded " +:+ pretty (totalProcessed t) +:+ " image(s)!")) ;;
    exit 0
  else
    emit (ConsoleLog (nl +:+ "✨ No base64-encoded images found. All images are already binary.")) ;;
    exit 0.

(** The script as Node runs it: an exception no [catch] took ends the
    process with exit code 1. *)
Definition script : Eff unit :=
  fun w =>
    match main w with
    | (Throw e, w', t) => (Exit 1, w', t)
    | r => r
    end.

(** *** The vocabulary of the proofs *)

(** What [processFile] answers when it leaves the file alone. *)
Definition skipped (why : string) : Result :=
  {| processed := false; reason := Some why; size := None |}.

(** The bytes [processFile] decodes from the text of a file. *)
Definition decoded (bytes : list Byte.byte) : list Byte.byte :=
  bufferFromBase64 (removeWhiteSpace (trim (toStringUtf8 bytes))).

(** [processFile] in one expression: what it returns, and what it writes. *)
Definition processFile_result (filePath : string) (w : World) : Outcome Result * World * list Event :=
  match files w !! filePath with
  | None => (Ret (skipped "Not base64-encoded"), w, [])
  | Some bytes =>
      if negb (startsWith (trim (toStringUtf8 bytes)) base64Header) then
        (Ret (skipped "Not base64-encoded"), w, [])
      else if negb (bool_decide (take 8 (decoded bytes) = pngMagicBytes)) then
        (Ret (skipped "Decoded content is not a valid PNG"), w, [])
      else if bool_decide (filePath ∈ readOnly w) then
        (Ret (skipped "EACCES"), w, [])
      else
        (Ret {| processed := true; reason := None;
                size := Some (Z.of_nat (length (decoded bytes))) |},
         setFiles (<[filePath := decoded bytes]> (files w)) w,
         [WriteFile filePath])
  end.

(** A file [processFile] leaves alone: there is none, or it has no base64
    header, or it does not decode to a PNG, or it cannot be written. *)
Definition settled (filePath : string) (w : World) : Prop :=
  match files w !! filePath with
  | None => True
  | Some bytes =>
      startsWith (trim (toStringUtf8 bytes)) base64Header = false \/
      take 8 (decoded bytes) <> pngMagicBytes \/
      filePath ∈ readOnly w
  end.

(** What a run of the script never changes: the arguments, the working
    directory, the directories, the write protections, and which files
    there are. *)
Definition shape (w : World) : option string * string * gmap string (list Dirent) * gset string * gset string :=
  (argv2 w, cwd w, dirs w, readOnly w, dom (files w)).

(** An asset directory the script can scan: if something is at its path, it
    is a directory. *)
Definition scannable (dir : string) (w : World) : Prop :=
  is_Some (files w !! path_join (PROJECT_ROOT w) dir) ->
  is_Some (dirs w !! path_join (PROJECT_ROOT w) dir).

(** [w'] comes after [w] in a run: same shape, and the files the script
    leaves alone in [w] are left alone in [w']. *)
Definition follows (w w' : World) : Prop :=
  shape w' = shape w /\ forall filePath, settled filePath w -> settled filePath w'.

(** The PNG files of a directory, as [findPngFiles] lists them. *)
Definition pngFilesIn (dir : string) (items : list Dirent) : list string :=
  omap (fun item => if isFile item && endsWith (name item) ".png"
                    then Some (path_join dir (name item)) else None) items.

(** A directory the script goes over without a change: its PNG files, if it
    is a directory, are all settled. *)
Definition quiet (dir : string) (w : World) : Prop :=
  forall items, dirs w !! path_join (PROJECT_ROOT w) dir = Some items ->
                Forall (fun file => settled file w)
                       (pngFilesIn (path_join (PROJECT_ROOT w) dir) items).

(** *** More vocabulary: what a scan counts and writes *)

(** The paths written, in order. *)
Definition written (t : list Event) : list string :=
  omap (fun e => match e with WriteFile path => Some path | ConsoleLog _ => None end) t.

(** The PNG files of an asset directory, as the scan lists them. *)
Definition assetFilesIn (w : World) (dir : string) : list string :=
  match dirs w !! path_join (PROJECT_ROOT w) dir with
  | Some items => pngFilesIn (path_join (PROJECT_ROOT w) dir) items
  | None => []
  end.

Definition assetFiles (w : World) : list string := ASSET_DIRS ≫= assetFilesIn w.

(** The number of files the totals account for. *)
Definition counted (t : Totals) : Z := totalProcessed t + totalSkipped t + totalErrors t.

(** The lines that end the output of [main]. *)
Definition summary (t : Totals) : list Event :=
  [ ConsoleLog (nl +:+ "📊 Summary:");
    ConsoleLog ("   ✅ Decoded: " +:+ pretty (totalProcessed t));
    ConsoleLog ("   ⏭️  Skipped (already binary): " +:+ pretty (totalSkipped t));
    ConsoleLog ("   ❌ Errors: " +:+ pretty (totalErrors t));
    if 0 <? totalProcessed t
    then ConsoleLog (nl +:+ "✨ Successfully decoded " +:+ pretty (totalProcessed t)
                     +:+ " image(s)!")
    else ConsoleLog (nl +:+ "✨ No base64-encoded images found. All images are already binary.") ].

(** [trimEnd]: the second half of [trim]. *)
Definition trimEnd (s : jsstring) : jsstring := rev (trimStart (rev s)).

End Script.
End ImageFix.

(** ** A sample project for the image fixer

    [Buffer.from(s, 'base64')] as Node decodes it: characters outside the
    alphabet (standard or URL-safe) are skipped, a [=] ends the input, and a
    last group of two or three characters gives one or two bytes. *)

Module SampleAssets.
Import ImageFix.

Definition unbase64 (c : Z) : option Z :=
  if (65 <=? c) && (c <=? 90) then Some (c - 65)
  else if (97 <=? c) && (c <=? 122) then Some (c - 71)
  else if (48 <=? c) && (c <=? 57) then Some (c + 4)
  else if (c =? 43) || (c =? 45) then Some 62
  else if (c =? 47) || (c =? 95) then Some 63
  else None.

Fixpoint sextets (s : jsstring) : list Z :=
  match s with
  | [] => []
  | c :: s' =>
      if c =? 61 then []
      else match unbase64 c with
           | Some v => v :: sextets s'
           | None => sextets s'
           end
  end.

Definition toByte (n : Z) : Byte.byte :=
  default Byte.x00 (Byte.of_N (Z.to_N (n mod 256))).

Fixpoint octets (vs : list Z) : list Byte.byte :=
  match vs with
  | a :: b :: c :: d :: rest =>
      toByte (a * 4 + b / 16) :: toByte (b * 16 + c / 4) :: toByte (c * 64 + d) :: octets rest
  | [a; b; c] => [ toByte (a * 4 + b / 16); toByte (b * 16 + c / 4) ]
  | [a; b] => [ toByte (a * 4 + b / 16) ]
  | _ => []
  end.

Fixpoint lastSegment (acc p : string) : string :=
  match p with
  | EmptyString => acc
  | String c p' =>
      if Ascii.eqb c "/"%char then lastSegment p' p'
      else lastSegment acc p'
  end.

#[export] Instance node : Node := {|
  path_join := fun a b => a +:+ "/" +:+ b;
  path_basename := fun p => lastSegment p p;
  bufferFromBase64 := fun s => octets (sextets s)
|}.

(** A strict decoder, for comparison: it gives no byte unless the text is
    made of whole groups of four characters. *)
Definition strictNode : Node := {|
  path_join := fun a b => a +:+ "/" +:+ b;
  path_basename := fun p => lastSegment p p;
  bufferFromBase64 := fun s =>
    if Z.of_nat (length s) mod 4 =? 0 then octets (sextets s) else []
|}.

Definition bytesOf (s : string) : list Byte.byte :=
  map byte_of_ascii (list_ascii_of_string s).

(** A one-pixel image, as base64 text (with the newline an editor adds) and
    as the bytes it stands for. *)
Definition pixelBase64 : string :=
  "iVBORw0KGgoAAAANSUhEUgAAAAEAAAABCAYAAAAfFcSJAAAADUlEQVR42mNk+M9QDwADhgGAWjR9awAAAABJRU5ErkJggg==".

Definition pixelText : list Byte.byte := bytesOf pixelBase64 ++ [ Byte.x0a ].
Definition pixelPng : list Byte.byte := bufferFromBase64 (codes pixelBase64).

(** [public/assets] holds an encoded image, a binary one, an encoded one that
    cannot be written and a text file; [src/assets] is missing; [build/assets]
    is empty. *)
Definition project : World :=
  {| argv2 := None;
     cwd := "/site";
     files := {[ "/site/public/assets/logo.png" := pixelText;
                 "/site/public/assets/photo.png" := pixelPng;
                 "/site/public/assets/locked.png" := pixelText;
                 "/site/public/assets/notes.txt" := bytesOf "iVBORw0KGgo" ]};
     dirs := {[ "/site/public/assets" :=
                  [ {| name := "logo.png"; isFile := true |};
                    {| name := "photo.png"; isFile := true |};
                    {| name := "locked.png"; isFile := true |};
                    {| name := "notes.txt"; isFile := true |};
                    {| name := "icons.png"; isFile := false |} ];
                "/site/build/assets" := [] ]};
     readOnly := {[ "/site/public/assets/locked.png" ]} |}.

End SampleAssets.


(** * Properties *)

(** ** The monad *)

Section Effects.
Context {W E : Type}.

Lemma bind_ret_run {A B} (m : M W E A) (f : A -> M W E B) w a w1 t1 :
  m w = (Ret a, w1, t1) ->
  bind m f w = (outcome (f a w1), final (f a w1), t1 ++ events (f a w1)).
Proof.
  intros Hm. unfold bind. rewrite Hm.
  destruct (f a w1) as [[o w2] t2]. reflexivity.
Qed.

Lemma bind_exit_run {A B} (m : M W E A) (f : A -> M W E B) w c w1 t1 :
  m w = (Exit c, w1, t1) -> bind m f w = (Exit c, w1, t1).
Proof. intros Hm. unfold bind. now rewrite Hm. Qed.

Lemma bind_throw_run {A B} (m : M W E A) (f : A -> M W E B) w e w1 t1 :
  m w = (Throw e, w1, t1) -> bind m f w = (Throw e, w1, t1).
Proof. intros Hm. unfold bind. now rewrite Hm. Qed.

Lemma run_eta {A} (r : Outcome A * W * list E) : r = (outcome r, final r, events r).
Proof. now destruct r as [[o w] t]. Qed.

(** A loop whose bound is reached does nothing. *)
Lemma for_lt_done {S} lo hi (body : Z -> S -> M W E S) s w :
  hi <= lo -> for_lt lo hi body s w = (Ret s, w, []).
Proof.
  intros Hle. unfold for_lt.
  replace (Z.to_nat (hi - lo)) with O by lia. reflexivity.
Qed.

(** A loop below its bound runs its body once and goes on from the next
    index: the fuel never runs out before the condition fails. *)
Lemma for_lt_unroll {S} lo hi (body : Z -> S -> M W E S) s :
  lo < hi ->
  for_lt lo hi body s = (s' <- body lo s ;; for_lt (lo + 1) hi body s').
Proof.
  intros Hlt. unfold for_lt.
  replace (Z.to_nat (hi - lo)) with (Datatypes.S (Z.to_nat (hi - (lo + 1)))) by lia.
  cbn [for_loop].
  destruct (Z.ltb_spec lo hi) as [_ | Hge]; [reflexivity | lia].
Qed.

Lemma for_le_done {S} lo hi (body : Z -> S -> M W E S) s w :
  hi < lo -> for_le lo hi body s w = (Ret s, w, []).
Proof.
  intros Hle. unfold for_le.
  replace (Z.to_nat (hi + 1 - lo)) with O by lia. reflexivity.
Qed.

Lemma for_le_unroll {S} lo hi (body : Z -> S -> M W E S) s :
  lo <= hi ->
  for_le lo hi body s = (s' <- body lo s ;; for_le (lo + 1) hi body s').
Proof.
  intros Hlt. unfold for_le.
  replace (Z.to_nat (hi + 1 - lo)) with (Datatypes.S (Z.to_nat (hi + 1 - (lo + 1)))) by lia.
  cbn [for_loop].
  destruct (Z.leb_spec lo hi) as [_ | Hge]; [reflexivity | lia].
Qed.

(** More fuel than the distance to the bound changes nothing. *)
Lemma for_loop_fuel {S} fuel lo hi (body : Z -> S -> M W E S) s w :
  (Z.to_nat (hi - lo) <= fuel)%nat ->
  for_loop fuel (fun i => i <? hi) lo body s w = for_lt lo hi body s w.
Proof.
  revert lo s w. induction fuel as [| fuel IH]; intros lo s w Hfuel.
  - unfold for_lt. replace (Z.to_nat (hi - lo)) with O by lia. reflexivity.
  - destruct (Z.lt_ge_cases lo hi) as [Hlt | Hge].
    + rewrite for_lt_unroll by exact Hlt. cbn [for_loop].
      destruct (Z.ltb_spec lo hi) as [_ | ?]; [| lia].
      unfold bind. destruct (body lo s w) as [[[s1 | c | e] w1] t1]; try reflexivity.
      rewrite IH by lia. reflexivity.
    + rewrite for_lt_done by exact Hge. cbn [for_loop].
      destruct (Z.ltb_spec lo hi) as [? | _]; [lia | reflexivity].
Qed.

(** A loop whose body always returns, with the same trace at every
    iteration, returns after [hi - lo] copies of that trace. *)
Lemma for_lt_static {S} (body : Z -> S -> M W E S) (evs : list E) :
  (forall i s w, exists s' w', body i s w = (Ret s', w', evs)) ->
  forall n lo hi s w, Z.to_nat (hi - lo) = n ->
    exists s' w', for_lt lo hi body s w = (Ret s', w', concat (repeat evs n)).
Proof.
  intros Hbody n. induction n as [| n IH]; intros lo hi s w Hn.
  - exists s, w. apply for_lt_done. lia.
  - rewrite for_lt_unroll by lia.
    destruct (Hbody lo s w) as (s1 & w1 & H1).
    destruct (IH (lo + 1) hi s1 w1 ltac:(lia)) as (s2 & w2 & H2).
    exists s2, w2. rewrite (bind_ret_run _ _ _ _ _ _ H1), H2. reflexivity.
Qed.

Lemma final_bind {A B} (m : M W E A) (f : A -> M W E B) w :
  final (bind m f w) =
    match outcome (m w) with
    | Ret a => final (f a (final (m w)))
    | _ => final (m w)
    end.
Proof.
  unfold bind. destruct (m w) as [[[a | c | e] w1] t1]; cbn [outcome final fst snd];
    [| reflexivity | reflexivity].
  destruct (f a w1) as [[r w2] t2]. reflexivity.
Qed.

End Effects.

(** ** The PDF export script: properties *)

Section PdfExportProperties.
Import PdfExport.
Context `{Runtime}.

Local Abbreviation Eff := (M World Event).

Lemma total_ret {A} (a : A) (P : A -> list Event -> Prop) :
  P a [] -> total (ret a) P.
Proof. intros HP w. exists a, w, []. auto. Qed.

Lemma total_bind {A B} (m : Eff A) (f : A -> Eff B)
    (P : A -> list Event -> Prop) (Q : A -> B -> list Event -> Prop)
    (R : B -> list Event -> Prop) :
  total m P ->
  (forall a, total (f a) (Q a)) ->
  (forall a t1 b t2, P a t1 -> Q a b t2 -> R b (t1 ++ t2)) ->
  total (bind m f) R.
Proof.
  intros Hm Hf HR w.
  destruct (Hm w) as (a & w1 & t1 & E1 & C1 & P1).
  destruct (Hf a w1) as (b & w2 & t2 & E2 & C2 & Q2).
  exists b, w2, (t1 ++ t2). split; [| split].
  - rewrite (bind_ret_run _ _ _ _ _ _ E1), E2. reflexivity.
  - congruence.
  - eauto.
Qed.

Lemma total_weaken {A} (m : Eff A) (P Q : A -> list Event -> Prop) :
  total m P -> (forall a t, P a t -> Q a t) -> total m Q.
Proof.
  intros Hm HPQ w. destruct (Hm w) as (a & w' & t & E & C & HP).
  exists a, w', t. auto.
Qed.

Lemma total_emit (e : Event) : total (emit e) (fun _ t => t = [e]).
Proof. intros w. exists tt, w, [e]. auto. Qed.

Lemma total_console level text : total (console level text) (fun _ t => t = [Console level text]).
Proof. apply total_emit. Qed.

Lemma total_gets {A} (f : World -> A) : total (gets f) (fun _ t => t = []).
Proof. intros w. exists (f w), w, []. auto. Qed.

(** The loop rule: an invariant of the index, the local variables and the
    trace so far. *)
Lemma total_for_lt {S} (body : Z -> S -> Eff S) (I : Z -> S -> list Event -> Prop) hi :
  (forall i s t, i < hi -> I i s t ->
     total (body i s) (fun s' t' => I (i + 1) s' (t ++ t'))) ->
  forall n lo s t0, Z.to_nat (hi - lo) = n -> I lo s t0 ->
    total (for_lt lo hi body s) (fun s' t => I (Z.max lo hi) s' (t0 ++ t)).
Proof.
  intros Hbody n. induction n as [| n IH]; intros lo s t0 Hn HI w.
  - exists s, w, []. rewrite for_lt_done by lia.
    rewrite app_nil_r, Z.max_l by lia. auto.
  - rewrite for_lt_unroll by lia.
    destruct (Hbody lo s t0 ltac:(lia) HI w) as (s1 & w1 & t1 & E1 & C1 & I1).
    destruct (IH (lo + 1) s1 (t0 ++ t1) ltac:(lia) I1 w1) as (s2 & w2 & t2 & E2 & C2 & I2).
    exists s2, w2, (t1 ++ t2). rewrite (bind_ret_run _ _ _ _ _ _ E1), E2.
    split; [reflexivity | split; [congruence |]].
    rewrite app_assoc. replace (Z.max lo hi) with (Z.max (lo + 1) hi) by lia. exact I2.
Qed.

Lemma total_for_le {S} (body : Z -> S -> Eff S) (I : Z -> S -> list Event -> Prop) hi :
  (forall i s t, i <= hi -> I i s t ->
     total (body i s) (fun s' t' => I (i + 1) s' (t ++ t'))) ->
  forall n lo s t0, Z.to_nat (hi + 1 - lo) = n -> I lo s t0 ->
    total (for_le lo hi body s) (fun s' t => I (Z.max lo (hi + 1)) s' (t0 ++ t)).
Proof.
  intros Hbody n. induction n as [| n IH]; intros lo s t0 Hn HI w.
  - exists s, w, []. rewrite for_le_done by lia.
    rewrite app_nil_r, Z.max_l by lia. auto.
  - rewrite for_le_unroll by lia.
    destruct (Hbody lo s t0 ltac:(lia) HI w) as (s1 & w1 & t1 & E1 & C1 & I1).
    destruct (IH (lo + 1) s1 (t0 ++ t1) ltac:(lia) I1 w1) as (s2 & w2 & t2 & E2 & C2 & I2).
    exists s2, w2, (t1 ++ t2). rewrite (bind_ret_run _ _ _ _ _ _ E1), E2.
    split; [reflexivity | split; [congruence |]].
    rewrite app_assoc. replace (Z.max lo (hi + 1)) with (Z.max (lo + 1) (hi + 1)) by lia. exact I2.
Qed.

(** *** [waitForAnimation] *)

Lemma waitForAnimation_run config delay w :
  let waitTime := or_default delay (animationWaitTime config) in
  let polled := pageWaitForFunction (holds mainContentVisible) 3000 (elapse waitTime (page w)) in
  waitForAnimation config delay w =
    (Ret tt, setPage (snd polled) w, [Sleep waitTime; WaitForFunction 3000]).
Proof.
  unfold waitForAnimation, sleep, waitForFunction, try_catch, bind, emit, modify, ret, throw.
  cbn.
  destruct (pageWaitForFunction _ _ _) as [[|] p]; reflexivity.
Qed.

Lemma total_waitForAnimation config delay :
  total (waitForAnimation config (Some delay)) (fun _ t => t = settle config delay).
Proof.
  intros w. rewrite waitForAnimation_run. eexists _, _, _. split; [reflexivity |]. auto.
Qed.

Lemma waitForFunction_run predicate timeout w :
  let polled := pageWaitForFunction predicate timeout (page w) in
  waitForFunction predicate timeout w =
    (if fst polled then Ret tt else Throw TimeoutError,
     setPage (snd polled) w, [WaitForFunction timeout]).
Proof.
  unfold waitForFunction, bind, emit, ret, throw. cbn.
  destruct (pageWaitForFunction _ _ _) as [[|] p]; reflexivity.
Qed.

(** C3, as amended: [waitForAnimation] first sleeps, for the target duration
    when one is given and is not zero, and for [animationWaitTime] when the
    target is zero or left out; it then polls the page once, with a timeout
    of 3000 ms; the poll either holds or throws a [TimeoutError], which is
    caught: the call returns normally in both cases, in the world the poll
    left. *)
Theorem waitForAnimation_sleeps_then_polls config (delay : option Z) w :
  let waitTime := match delay with
                  | Some target => if target =? 0 then animationWaitTime config else target
                  | None => animationWaitTime config
                  end in
  let r := waitForAnimation config delay w in
  let slept := setPage (elapse waitTime (page w)) w in
  let poll := waitForFunction (holds mainContentVisible) 3000 slept in
  outcome r = Ret tt /\
  events r = Sleep waitTime :: events poll /\
  events poll = [WaitForFunction 3000] /\
  final r = final poll /\
  (outcome poll = Ret tt \/ outcome poll = Throw TimeoutError).
Proof.
  cbv zeta. rewrite waitForAnimation_run, waitForFunction_run. cbv zeta.
  change (or_default delay (animationWaitTime config))
    with (match delay with
          | Some target => if target =? 0 then animationWaitTime config else target
          | None => animationWaitTime config
          end).
  set (waitTime := match delay with Some _ => _ | None => _ end).
  unfold outcome, events, final. cbn [fst snd page setPage].
  repeat split.
  destruct (fst (pageWaitForFunction _ _ _)); [now left | now right].
Qed.

(** *** [navigateToSlide] *)

Lemma keyThenWait_run key config delay i u w :
  exists w', keyThenWait key config delay i u w = (Ret tt, w', KeyPress key :: settle config delay)
             /\ cwd w' = cwd w.
Proof.
  unfold keyThenWait, press.
  eexists. rewrite (bind_ret_run _ _ w tt _ [KeyPress key]) by reflexivity.
  rewrite waitForAnimation_run. cbn. split; reflexivity.
Qed.

Lemma keys_app t1 t2 : keys (t1 ++ t2) = keys t1 ++ keys t2.
Proof. apply omap_app. Qed.

Lemma steps_app t1 t2 : steps (t1 ++ t2) = steps t1 ++ steps t2.
Proof. apply omap_app. Qed.

Lemma keys_settle config delay : keys (settle config delay) = [].
Proof. reflexivity. Qed.

Lemma keys_key_waits key config delay n :
  keys (concat (repeat (KeyPress key :: settle config delay) n)) = repeat key n.
Proof.
  induction n as [| n IH]; [reflexivity |].
  cbn [repeat concat]. rewrite keys_app, IH. reflexivity.
Qed.

Lemma navigateToSlide_run config (A B : Z) w :
  readCurrentSlide (progressBar (selectors config)) (document (page w)) = Some A ->
  exists w',
    navigateToSlide B config w =
      (Ret tt, w',
       Evaluate ::
       (if B =? A then settle config 500
        else concat (repeat (KeyPress (if A <? B then ArrowRight else ArrowLeft)
                               :: settle config (slideTransitionWaitTime config))
                            (Z.abs_nat (B - A))))).
Proof.
  intros Hread. unfold navigateToSlide, evaluate.
  rewrite (bind_ret_run _ _ w (Some A) w [Evaluate]).
  2:{ unfold bind, emit, gets. cbn. rewrite Hread. reflexivity. }
  cbn [fmap option_fmap option_map].
  assert (Hbody : forall key i s w0, exists s' w1,
             keyThenWait key config (slideTransitionWaitTime config) i s w0 =
               (Ret s', w1, KeyPress key :: settle config (slideTransitionWaitTime config))).
  { intros key i s w0. destruct (keyThenWait_run key config
      (slideTransitionWaitTime config) i s w0) as (w1 & E & _). eauto. }
  destruct (Z.ltb_spec 0 (B - A)) as [Hpos | Hnpos].
  - destruct (for_lt_static _ _ (Hbody ArrowRight) (Z.abs_nat (B - A)) 0 (B - A) tt w
                ltac:(lia)) as ([] & w' & Hloop).
    exists w'. rewrite Hloop. cbn.
    destruct (Z.eqb_spec B A) as [? | _]; [lia |].
    destruct (Z.ltb_spec A B) as [_ | ?]; [reflexivity | lia].
  - destruct (Z.ltb_spec (B - A) 0) as [Hneg | Hnneg].
    + destruct (for_lt_static _ _ (Hbody ArrowLeft) (Z.abs_nat (B - A)) 0 (Z.abs (B - A)) tt w
                  ltac:(lia)) as ([] & w' & Hloop).
      exists w'. rewrite Hloop. cbn.
      destruct (Z.eqb_spec B A) as [? | _]; [lia |].
      destruct (Z.ltb_spec A B) as [? | _]; [lia | reflexivity].
    + rewrite waitForAnimation_run. eexists. cbn.
      destruct (Z.eqb_spec B A) as [_ | ?]; [reflexivity | lia].
Qed.

(** C2, as amended: when the progress indicator reads slide [A],
    navigating to slide [B] presses exactly [|B - A|] keys, all ArrowRight
    ("next") when [A < B] and all ArrowLeft ("previous") when [B < A], one
    at a time, each followed by exactly one settle wait (a sleep, then the
    poll bounded to 3000 ms); the sleep lasts the configured inter-slide
    duration when that is not zero, and [animationWaitTime] when it is zero.
    No key is pressed when [B = A]. *)
Theorem navigateToSlide_emits_distance config (A B : Z) w :
  readCurrentSlide (progressBar (selectors config)) (document (page w)) = Some A ->
  let r := navigateToSlide B config w in
  let key := if A <? B then ArrowRight else ArrowLeft in
  let slept := if slideTransitionWaitTime config =? 0
               then animationWaitTime config
               else slideTransitionWaitTime config in
  outcome r = Ret tt /\
  keys (events r) = repeat key (Z.abs_nat (B - A)) /\
  (B <> A ->
   events r = Evaluate :: concat (repeat [KeyPress key; Sleep slept; WaitForFunction 3000]
                                         (Z.abs_nat (B - A)))) /\
  (B = A -> events r = [Evaluate; Sleep 500; WaitForFunction 3000]).
Proof.
  intros Hread. cbv zeta.
  destruct (navigateToSlide_run config A B w Hread) as (w' & Hrun).
  rewrite Hrun. unfold outcome, events. cbn [fst snd].
  split; [reflexivity |].
  destruct (Z.eqb_spec B A) as [Heq | Hne].
  - subst B. rewrite Z.sub_diag.
    split; [reflexivity | split; [contradiction | reflexivity]].
  - split; [| split; [reflexivity | contradiction]].
    change (keys (Evaluate :: ?t)) with (keys t).
    apply keys_key_waits.
Qed.


(** *** The steps of the functions the export loop calls *)

Lemma total_waitForAnimation_steps config delay :
  total (waitForAnimation config delay) (fun _ t => steps t = []).
Proof.
  intros w. rewrite waitForAnimation_run. eexists _, _, _.
  split; [reflexivity |]. split; reflexivity.
Qed.

Lemma total_navigateSubSlide direction config :
  total (navigateSubSlide direction config)
        (fun _ t => steps t = [Pressed match direction with down => ArrowDown | up => ArrowUp end]).
Proof.
  intros w. unfold navigateSubSlide, press.
  rewrite (bind_ret_run _ _ w tt _ [KeyPress _]) by reflexivity.
  rewrite waitForAnimation_run. eexists _, _, _.
  split; [reflexivity |]. split; reflexivity.
Qed.

Lemma total_hideUIElements config :
  total (hideUIElements config) (fun _ t => steps t = []).
Proof.
  intros w. unfold hideUIElements, evaluateUpdate.
  rewrite (bind_ret_run _ _ w tt _ [Evaluate]) by reflexivity.
  rewrite waitForAnimation_run. eexists _, _, _.
  split; [reflexivity |]. split; reflexivity.
Qed.

Lemma total_try_waitForSelector selector visible timeout :
  total (try_catch (waitForSelector selector visible timeout) (fun e => ret tt))
        (fun _ t => steps t = []).
Proof.
  intros w. unfold try_catch, waitForSelector, bind, emit, ret, throw. cbn.
  destruct (pageWaitForSelector _ _ _ _) as [[|] p]; cbn;
    eexists _, _, _; (split; [reflexivity |]); split; reflexivity.
Qed.

Lemma total_try_waitForFunction predicate timeout :
  total (try_catch (waitForFunction predicate timeout) (fun e => ret tt))
        (fun _ t => steps t = []).
Proof.
  intros w. unfold try_catch, waitForFunction, bind, emit, ret, throw. cbn.
  destruct (pageWaitForFunction _ _ _) as [[|] p]; cbn;
    eexists _, _, _; (split; [reflexivity |]); split; reflexivity.
Qed.

Lemma total_sleep ms : total (sleep ms) (fun _ t => steps t = []).
Proof.
  intros w. eexists _, _, _. split; [reflexivity |]. split; reflexivity.
Qed.

Lemma total_steps_nil {A B} (m : Eff A) (f : A -> Eff B) :
  total m (fun _ t => steps t = []) ->
  (forall a, total (f a) (fun _ t => steps t = [])) ->
  total (bind m f) (fun _ t => steps t = []).
Proof.
  intros Hm Hf. eapply total_bind; [exact Hm | exact Hf |].
  cbn. intros _ t1 _ t2 H1 H2. rewrite steps_app, H1, H2. reflexivity.
Qed.

Lemma total_waitForSlideContent slideIndex config :
  total (waitForSlideContent slideIndex config) (fun _ t => steps t = []).
Proof.
  unfold waitForSlideContent.
  apply total_steps_nil; [apply total_try_waitForSelector | intros _].
  apply total_steps_nil; [| intros _; apply total_waitForAnimation_steps].
  destruct (_ ≫= typewriterEffect) as [[|] |]; try (apply total_ret; reflexivity).
  apply total_steps_nil; [apply total_try_waitForFunction | intros _; apply total_sleep].
Qed.

Lemma total_takeScreenshot filename slideIndex config :
  total (takeScreenshot filename slideIndex config) (fun _ t => steps t = [Captured]).
Proof.
  unfold takeScreenshot.
  eapply total_bind with (P := fun _ t => steps t = []) (Q := fun _ _ t => steps t = [Captured]).
  - intros w. eexists _, _, _. split; [reflexivity |]. split; reflexivity.
  - intros _.
    eapply total_bind with (P := fun _ t => steps t = []) (Q := fun _ _ t => steps t = [Captured]).
    + apply total_waitForSlideContent.
    + intros _ w. eexists _, _, _. split; [reflexivity |]. split; reflexivity.
    + cbn. intros _ t1 _ t2 H1 H2. rewrite steps_app, H1, H2. reflexivity.
  - cbn. intros _ t1 _ t2 H1 H2. rewrite steps_app, H1, H2. reflexivity.
Qed.

Lemma morePages_refl l : morePages 0 l l.
Proof. split; [exists []; rewrite app_nil_r; auto | cbn; lia]. Qed.

Lemma morePages_trans n1 n2 l1 l2 l3 :
  morePages n1 l1 l2 -> morePages n2 l2 l3 -> morePages (n1 + n2) l1 l3.
Proof.
  intros [(ps1 & E1 & L1) T1] [(ps2 & E2 & L2) T2]. split.
  - exists (ps1 ++ ps2). rewrite E2, E1, <- app_assoc, length_app. auto.
  - lia.
Qed.

Lemma total_exportPage filename slideIndex config l :
  total (exportPage filename slideIndex config l)
        (fun l' t => steps t = [Captured] /\ morePages 1 l l').
Proof.
  unfold exportPage.
  eapply total_bind with (P := fun _ t => steps t = [])
                         (Q := fun _ l' t => steps t = [Captured] /\ morePages 1 l l').
  - apply total_hideUIElements.
  - intros _.
    eapply total_bind with (P := fun _ t => steps t = [])
                           (Q := fun _ l' t => steps t = [Captured] /\ morePages 1 l l').
    + eapply total_weaken; [apply total_gets |]. cbn. intros _ t ->. reflexivity.
    + intros dir.
      eapply total_bind with (P := fun _ t => steps t = [Captured])
                             (Q := fun _ l' t => steps t = [] /\ morePages 1 l l').
      * apply total_takeScreenshot.
      * intros screenshot w. eexists _, _, _. split; [reflexivity |].
        split; [reflexivity |]. split; [reflexivity |].
        split; [eexists; split; reflexivity | reflexivity].
      * cbn. intros _ t1 l' t2 H1 [H2 H3]. rewrite steps_app, H1, H2. auto.
    + cbn. intros _ t1 l' t2 H1 [H2 H3]. rewrite steps_app, H1, H2. auto.
  - cbn. intros _ t1 l' t2 H1 [H2 H3]. rewrite steps_app, H1, H2. auto.
Qed.

Lemma total_exportSubSlide config slideIndex t0 startIndex subIndex l :
  total (exportSubSlide config slideIndex t0 startIndex subIndex l)
        (fun l' t => steps t = (if startIndex <? subIndex then [Pressed ArrowDown] else [])
                                ++ [Captured]
                     /\ morePages 1 l l').
Proof.
  unfold exportSubSlide.
  eapply total_bind with
    (P := fun _ t => steps t = if startIndex <? subIndex then [Pressed ArrowDown] else [])
    (Q := fun _ l' t => steps t = [Captured] /\ morePages 1 l l').
  - destruct (startIndex <? subIndex).
    + apply (total_navigateSubSlide down).
    + apply total_ret. reflexivity.
  - intros _.
    eapply total_bind with (P := fun l' t => steps t = [Captured] /\ morePages 1 l l')
                           (Q := fun l1 l' t => steps t = [] /\ l' = l1).
    + apply total_exportPage.
    + intros l1 w. eexists _, _, _. split; [reflexivity |]. auto.
    + cbn. intros l1 t1 l' t2 [H1 M1] [H2 ->]. rewrite steps_app, H1, H2. auto.
  - cbn. intros _ t1 l' t2 H1 [H2 M2]. rewrite steps_app, H1, H2. auto.
Qed.

Lemma concat_repeat_snoc {A} (x : list A) n :
  concat (repeat x n) ++ x = concat (repeat x (Datatypes.S n)).
Proof.
  induction n as [| n IH]; cbn [repeat concat] in *.
  - now rewrite app_nil_r.
  - rewrite <- app_assoc, IH. reflexivity.
Qed.

Lemma captureStates_snoc k :
  captureStates k ++ (if (0 <? Z.of_nat k) then [Pressed ArrowDown] else []) ++ [Captured]
  = captureStates (Datatypes.S k).
Proof.
  destruct k as [| k].
  - reflexivity.
  - replace (0 <? Z.of_nat (Datatypes.S k)) with true by (symmetry; apply Z.ltb_lt; lia).
    cbn [captureStates app]. f_equal.
    apply (concat_repeat_snoc [Pressed ArrowDown; Captured] k).
Qed.

Lemma total_resetSubSlides config t0 endIndex :
  total (resetSubSlides config t0 endIndex)
        (fun _ t => steps t = match t0 with
                              | subSlide => repeat (Pressed ArrowUp) (Z.to_nat endIndex)
                              | step => [Pressed ArrowDown]
                              end).
Proof.
  destruct t0; cbn [resetSubSlides].
  - eapply total_weaken.
    + apply (total_for_lt (fun i u => navigateSubSlide up config)
               (fun i _ t => 0 <= i /\ steps t = repeat (Pressed ArrowUp) (Z.to_nat i))
               endIndex) with (n := Z.to_nat (endIndex - 0)) (t0 := []); [| reflexivity | auto with lia].
      intros i u t Hi [Hi0 Ht].
      eapply total_weaken; [apply (total_navigateSubSlide up) |].
      cbv beta. intros _ t' Ht'. split; [lia |].
      rewrite steps_app, Ht, Ht'.
      replace (Z.to_nat (i + 1)) with (Z.to_nat i + 1)%nat by lia.
      rewrite repeat_app. reflexivity.
    + cbv beta. intros _ t [_ Ht]. cbn [app] in Ht. rewrite Ht. f_equal. lia.
  - apply (total_navigateSubSlide down).
Qed.


Lemma total_exportSubSlides config slideIndex subSlideConfig l :
  total (exportSubSlides config slideIndex subSlideConfig l)
        (fun l' t =>
           steps t = captureStates (statesOf subSlideConfig) ++
                     match type subSlideConfig with
                     | subSlide => repeat (Pressed ArrowUp) (Z.to_nat (max subSlideConfig))
                     | step => [Pressed ArrowDown]
                     end
           /\ morePages (statesOf subSlideConfig) l l').
Proof.
  unfold exportSubSlides, statesOf.
  set (t0 := type subSlideConfig). set (m := max subSlideConfig).
  replace (match t0 with subSlide => m | step => m end) with m by now destruct t0.
  change (match t0 with subSlide => 0 | step => 1 end) with (firstState t0).
  set (start := firstState t0).
  eapply total_bind with
    (P := fun _ t => steps t = [])
    (Q := fun _ l' t =>
            steps t = captureStates (Z.to_nat (m + 1 - start)) ++
                      match t0 with
                      | subSlide => repeat (Pressed ArrowUp) (Z.to_nat m)
                      | step => [Pressed ArrowDown]
                      end
            /\ morePages (Z.to_nat (m + 1 - start)) l l').
  - eapply total_weaken; [apply total_console |]. cbv beta. intros _ t ->. reflexivity.
  - intros _.
    eapply total_bind with
      (P := fun l' t => steps t = captureStates (Z.to_nat (m + 1 - start))
                        /\ morePages (Z.to_nat (m + 1 - start)) l l')
      (Q := fun l1 l' t => steps t = match t0 with
                                     | subSlide => repeat (Pressed ArrowUp) (Z.to_nat m)
                                     | step => [Pressed ArrowDown]
                                     end /\ l' = l1).
    + eapply total_weaken.
      * apply (total_for_le (exportSubSlide config slideIndex t0 start)
                 (fun i l' t => start <= i /\ steps t = captureStates (Z.to_nat (i - start))
                                /\ morePages (Z.to_nat (i - start)) l l')
                 m) with (n := Z.to_nat (m + 1 - start)) (t0 := []).
        -- intros i l1 t Hi (Hs & Ht & Hm).
           eapply total_weaken; [apply total_exportSubSlide |].
           cbv beta. intros l2 t' [Ht' Hm']. split; [lia |].
           replace (Z.to_nat (i + 1 - start)) with (Datatypes.S (Z.to_nat (i - start))) by lia.
           split.
           ++ rewrite steps_app, Ht, Ht', <- captureStates_snoc.
              replace (0 <? Z.of_nat (Z.to_nat (i - start))) with (start <? i); [reflexivity |].
              destruct (Z.ltb_spec start i), (Z.ltb_spec 0 (Z.of_nat (Z.to_nat (i - start)))); lia.
           ++ replace (Datatypes.S (Z.to_nat (i - start))) with (Z.to_nat (i - start) + 1)%nat by lia.
              eapply morePages_trans; eassumption.
        -- reflexivity.
        -- rewrite Z.sub_diag. split; [lia |]. split; [reflexivity | apply morePages_refl].
      * cbv beta. intros l' t (_ & Ht & Hm). cbn [app] in Ht.
        replace (Z.max start (m + 1) - start) with (Z.max 0 (m + 1 - start)) in * by lia.
        replace (Z.to_nat (Z.max 0 (m + 1 - start))) with (Z.to_nat (m + 1 - start)) in * by lia.
        auto.
    + intros l1.
      eapply total_bind with
        (P := fun _ t => steps t = match t0 with
                                   | subSlide => repeat (Pressed ArrowUp) (Z.to_nat m)
                                   | step => [Pressed ArrowDown]
                                   end)
        (Q := fun _ l' t => steps t = [] /\ l' = l1).
      * apply total_resetSubSlides.
      * intros _. apply total_ret. auto.
      * cbv beta. intros _ t1 l' t2 H1 [H2 ->]. rewrite steps_app, H1, H2, app_nil_r. auto.
    + cbv beta. intros l1 t1 l' t2 [H1 M1] [H2 ->]. rewrite steps_app, H1, H2. auto.
  - cbv beta. intros _ t1 l' t2 H1 [H2 M2]. rewrite steps_app, H1, H2. auto.
Qed.

(** C6: the branch of a slide that has a sub-slide specification takes its
    screenshots, pressing ArrowDown ("down") once between two of them, and
    then, before the loop goes on to the next slide, presses: for the
    "subSlide" variant, ArrowUp ("up") [max] times, once per ArrowDown
    pressed over the range [0..max]; for the "step" variant, ArrowDown once
    more, and nothing else. *)
Theorem exportSubSlides_resets config slideIndex subSlideConfig l w :
  let r := exportSubSlides config slideIndex subSlideConfig l w in
  let m := max subSlideConfig in
  (exists l', outcome r = Ret l') /\
  steps (events r) =
    match type subSlideConfig with
    | subSlide => captureStates (Z.to_nat (m + 1)) ++ repeat (Pressed ArrowUp) (Z.to_nat m)
    | step => captureStates (Z.to_nat m) ++ [Pressed ArrowDown]
    end.
Proof.
  cbv zeta.
  destruct (total_exportSubSlides config slideIndex subSlideConfig l w)
    as (l' & w' & t & E & _ & Ht & _).
  rewrite E. unfold outcome, events. cbn [fst snd]. split; [eauto |].
  rewrite Ht. unfold statesOf.
  destruct (type subSlideConfig); cbn [firstState]; do 3 f_equal; lia.
Qed.

Lemma total_navigateToSlide slideIndex config :
  total (navigateToSlide slideIndex config) (fun _ _ => True).
Proof.
  unfold navigateToSlide.
  eapply total_bind with (P := fun _ _ => True) (Q := fun _ _ _ => True); [| | auto].
  - intros w. eexists _, _, _. split; [reflexivity |]. split; [reflexivity | exact I].
  - intros currentSlide.
    assert (Hloop : forall key hi,
               total (for_lt 0 hi (keyThenWait key config (slideTransitionWaitTime config)) tt)
                     (fun _ _ => True)).
    { intros key hi. eapply total_weaken.
      - apply (total_for_lt _ (fun _ _ _ => True) hi) with (n := Z.to_nat (hi - 0)) (t0 := []);
          [| reflexivity | exact I].
        intros i u t _ _ w.
        destruct (keyThenWait_run key config (slideTransitionWaitTime config) i u w)
          as (w' & E & C).
        eexists _, _, _. split; [exact E |]. split; [exact C | exact I].
      - auto. }
    assert (Hwait : total (waitForAnimation config (Some 500)) (fun _ _ => True)).
    { eapply total_weaken; [apply total_waitForAnimation_steps | auto]. }
    destruct currentSlide as [c |]; cbn [fmap option_fmap option_map]; [| exact Hwait].
    destruct (0 <? slideIndex - c); [apply Hloop |].
    destruct (slideIndex - c <? 0); [apply Hloop | exact Hwait].
Qed.

Lemma total_exportSlide config slideIndex l :
  total (exportSlide config slideIndex l)
        (fun l' _ => morePages (pagesAdded config slideIndex) l l').
Proof.
  unfold exportSlide, pagesAdded.
  eapply total_bind with (P := fun _ _ => True)
    (Q := fun _ l' _ => morePages (pagesAdded config slideIndex) l l'); [| | auto].
  - eapply total_weaken; [apply total_console | auto].
  - intros _.
    eapply total_bind with (P := fun _ _ => True)
      (Q := fun _ l' _ => morePages (pagesAdded config slideIndex) l l'); [| | auto].
    + apply total_navigateToSlide.
    + intros _. unfold pagesAdded.
      destruct (slidesWithSubSlides config !! pretty slideIndex) as [subSlideConfig |].
      * eapply total_weaken; [apply total_exportSubSlides |]. cbv beta. tauto.
      * eapply total_bind with (P := fun l' _ => morePages 1 l l')
          (Q := fun l1 l' _ => l' = l1).
        -- eapply total_weaken; [apply total_exportPage |]. cbv beta. tauto.
        -- intros l1 w. eexists _, _, _. split; [reflexivity |]. auto.
        -- cbv beta. intros l1 _ l' _ M ->. exact M.
Qed.

Lemma total_exportSlides config l :
  total (exportSlides config l)
        (fun l' _ => morePages (sum_list (pagesAdded config <$> seqZ 0 (totalSlides config))) l l').
Proof.
  unfold exportSlides.
  eapply total_weaken.
  - apply (total_for_lt (exportSlide config)
             (fun i l' _ => 0 <= i /\ morePages (sum_list (pagesAdded config <$> seqZ 0 i)) l l')
             (totalSlides config))
      with (n := Z.to_nat (totalSlides config - 0)) (t0 := []).
    + intros i l1 t Hi [Hi0 Hm].
      eapply total_weaken; [apply total_exportSlide |].
      cbv beta. intros l2 _ Hm'. split; [lia |].
      rewrite (seqZ_app 0 i 1) by lia. rewrite fmap_app, sum_list_with_app.
      eapply morePages_trans; [exact Hm |].
      replace (sum_list _) with (pagesAdded config i); [exact Hm' |].
      change (seqZ (0 + i) 1) with [0 + i]. rewrite Z.add_0_l.
      cbn [fmap list_fmap sum_list_with]. unfold id. lia.
    + reflexivity.
    + split; [lia | apply morePages_refl].
  - cbv beta. intros l' _ [_ Hm].
    destruct (Z.le_gt_cases (totalSlides config) 0) as [Hle | Hgt].
    + rewrite Z.max_l in Hm by lia.
      rewrite (seqZ_nil 0 (totalSlides config)) by lia. exact Hm.
    + rewrite Z.max_r in Hm by lia. exact Hm.
Qed.


(** *** The orchestrator *)

Lemma lands_bind {A B} (m : Eff A) (f : A -> Eff B)
    (P : A -> list Event -> Prop) (Q : A -> B -> World -> list Event -> Prop)
    (R : B -> World -> list Event -> Prop) :
  total m P ->
  (forall a, lands (f a) (Q a)) ->
  (forall a t1 b w' t2, P a t1 -> Q a b w' t2 -> R b w' (t1 ++ t2)) ->
  lands (bind m f) R.
Proof.
  intros Hm Hf HR w.
  destruct (Hm w) as (a & w1 & t1 & E1 & C1 & P1).
  destruct (Hf a w1) as (b & w2 & t2 & E2 & C2 & Q2).
  exists b, w2, (t1 ++ t2). split; [| split].
  - rewrite (bind_ret_run _ _ _ _ _ _ E1), E2. reflexivity.
  - congruence.
  - eauto.
Qed.

(** A step whose value and trace do not matter. *)
Lemma lands_then {A B} (m : Eff A) (f : A -> Eff B) (P : A -> list Event -> Prop)
    (R : B -> World -> Prop) :
  total m P ->
  (forall a, lands (f a) (fun b w' _ => R b w')) ->
  lands (bind m f) (fun b w' _ => R b w').
Proof.
  intros Hm Hf. eapply lands_bind with (Q := fun _ b w' _ => R b w'); [exact Hm | exact Hf |].
  cbv beta. auto.
Qed.

Lemma total_any {A} (m : Eff A) (P : A -> list Event -> Prop) :
  total m P -> total m (fun _ _ => True).
Proof. intros Hm. eapply total_weaken; [exact Hm | auto]. Qed.

Lemma lands_exportBody config :
  lands (exportBody config) (fun _ w' _ => exported config w').
Proof.
  unfold exportBody.
  eapply lands_then; [apply total_console | intros _].
  eapply lands_then with (P := fun _ _ => True); [| intros _].
  { intros w. eexists _, _, _. split; [reflexivity |]. split; [reflexivity | exact I]. }
  eapply lands_then with (P := fun _ _ => True); [| intros _].
  { intros w. unfold try_catch, waitForSelector, bind, emit, ret, throw, console. cbn.
    destruct (pageWaitForSelector _ _ _ _) as [[|] p]; cbn;
      eexists _, _, _; (split; [reflexivity |]); split; auto. }
  eapply lands_then; [apply total_waitForAnimation_steps | intros _].
  eapply lands_then; [apply total_console | intros _].
  eapply lands_bind with
    (P := fun l _ => morePages (sum_list (pagesAdded config <$> seqZ 0 (totalSlides config)))
                       noPages l)
    (Q := fun l _ w' _ => files w' !! OUTPUT_FILE w' = Some (Binary (save (mergedPdf l)))).
  - apply total_exportSlides.
  - intros l w. eexists _, _, _. split; [reflexivity |]. split; [reflexivity |].
    apply lookup_insert_eq.
  - cbv beta. intros l _ _ w' _ Hm Hf. exists l. auto.
Qed.

Lemma lands_finally {A} (m : Eff A) (h : JsError -> Eff A) (R : A -> World -> Prop) :
  lands m (fun a w' _ => R a w') ->
  lands (try_finally (try_catch m h) (emit Close)) (fun a w' _ => R a w').
Proof.
  intros Hm w. destruct (Hm w) as (a & w' & t & E & C & HR).
  exists a, w', (t ++ [Close]). unfold try_finally, try_catch. rewrite E. cbn. auto.
Qed.

Lemma total_ensureDir path : total (ensureDir path) (fun _ _ => True).
Proof.
  intros w. unfold ensureDir, existsSync, mkdirSync, bind, gets, emit, modify, ret. cbn.
  destruct (_ || _); eexists _, _, _; (split; [reflexivity |]); split; auto.
Qed.

Lemma total_firstExisting chromePaths found :
  total (for_of chromePaths
           (fun chromePath found =>
              match found with
              | Some _ => ret found
              | None => there <- existsSync chromePath ;;
                        ret (if there : bool then Some chromePath else None)
              end) found)
        (fun _ t => t = []).
Proof.
  revert found. induction chromePaths as [| p ps IH]; intros found; cbn [for_of].
  - apply total_ret. reflexivity.
  - eapply total_bind with (P := fun _ t => t = []) (Q := fun _ _ t => t = []).
    + destruct found; [apply total_ret; reflexivity |].
      intros w. eexists _, _, _. split; [reflexivity |]. auto.
    + intros a. apply IH.
    + intros _ t1 _ t2 -> ->. reflexivity.
Qed.

Lemma total_findChromeExecutable : total findChromeExecutable (fun _ t => t = []).
Proof.
  unfold findChromeExecutable.
  eapply total_bind with (P := fun _ t => t = []) (Q := fun _ _ t => t = []).
  - apply total_gets.
  - intros os. destruct (String.eqb os "darwin"); [apply total_firstExisting |].
    destruct (String.eqb os "win32"); [apply total_firstExisting |].
    apply total_ret. reflexivity.
  - intros _ t1 _ t2 -> ->. reflexivity.
Qed.

Lemma lands_exportWithBrowser config :
  lands (exportWithBrowser config) (fun _ w' _ => exported config w').
Proof.
  unfold exportWithBrowser.
  eapply lands_then; [apply total_console | intros _].
  eapply lands_then; [apply total_gets | intros out].
  eapply lands_then; [apply total_ensureDir | intros _].
  eapply lands_then; [apply total_gets | intros shots].
  eapply lands_then; [apply total_ensureDir | intros _].
  eapply lands_then; [apply total_console | intros _].
  eapply lands_then; [apply total_findChromeExecutable | intros executablePath].
  eapply lands_then with (P := fun _ _ => True); [| intros _].
  { destruct executablePath; [eapply total_any, total_console | now apply total_ret]. }
  eapply lands_then; [apply total_emit | intros _].
  eapply lands_then; [apply total_emit | intros _].
  eapply lands_then; [apply total_emit | intros _].
  eapply lands_then; [apply total_emit | intros _].
  eapply lands_then with (P := fun _ _ => True); [| intros _].
  { intros w. eexists _, _, _. split; [reflexivity |]. split; [reflexivity | exact I]. }
  apply lands_finally, lands_exportBody.
Qed.

Lemma checkDevServer_run url w :
  checkDevServer url w =
    match server w url with
    | Refused => (Throw TypeError, w, [])
    | Response statusCode => (Ret (statusCode =? 200), w, [HttpGet url 2000])
    | NetworkError | NoAnswer => (Ret false, w, [HttpGet url 2000])
    end.
Proof. unfold checkDevServer, bind, gets. destruct (server w url); reflexivity. Qed.

(** The run of [exportWithConfig] up to the probe. *)
Lemma exportWithConfig_probe config w :
  server w (devServerUrl config) <> Refused ->
  exportWithConfig config w =
    let r := (if match server w (devServerUrl config) with
                 | Response statusCode => statusCode =? 200
                 | _ => false
                 end
              then exportWithBrowser config w
              else (Exit 1, w,
                    [ Console Err "❌ Dev server is not running!";
                      Console Err ("   Expected URL: " +:+ devServerUrl config);
                      Console Err "   Please run: npm run dev";
                      Console Err "   Then in another terminal run: npm run export:pdf" ])) in
    (outcome r, final r,
     [ Console Log ("📋 Configuration loaded: " +:+ pretty (totalSlides config) +:+ " slides" +:+ nl);
       Console Log "🔍 Checking if dev server is running...";
       HttpGet (devServerUrl config) 2000 ] ++ events r).
Proof.
  intros Hsent. unfold exportWithConfig.
  unfold bind at 1 2 3. unfold console at 1 2. unfold emit. rewrite checkDevServer_run.
  cbv zeta.
  destruct (server w (devServerUrl config)) as [statusCode | | |];
    [destruct (statusCode =? 200) | | | contradiction]; cbn [negb];
    try reflexivity.
  destruct (exportWithBrowser config w) as [[o w'] t]. reflexivity.
Qed.

(** The run of [exportWithConfig] where [http.get] refuses the url. *)
Lemma exportWithConfig_refused config w :
  server w (devServerUrl config) = Refused ->
  exportWithConfig config w =
    (Throw TypeError, w,
     [ Console Log ("📋 Configuration loaded: " +:+ pretty (totalSlides config) +:+ " slides" +:+ nl);
       Console Log "🔍 Checking if dev server is running..." ]).
Proof.
  intros Hrefused. unfold exportWithConfig.
  unfold bind at 1 2 3. unfold console at 1 2. unfold emit. rewrite checkDevServer_run.
  rewrite Hrefused. reflexivity.
Qed.

(** *** [loadConfig] *)

Lemma readFileSync_pure path w : final (readFileSync path w) = w /\ events (readFileSync path w) = [].
Proof.
  unfold readFileSync. destruct (files w !! path) as [[text | b] |]; [auto | auto |].
  destruct (bool_decide _); auto.
Qed.

Lemma readFileSync_found path w text :
  outcome (readFileSync path w) = Ret text ->
  readFileSync path w = (Ret text, w, []) /\ is_Some (files w !! path).
Proof.
  unfold readFileSync, outcome.
  destruct (files w !! path) as [[s | b] |]; cbn.
  - intros [= ->]. eauto.
  - intros [= <-]. eauto.
  - destruct (bool_decide _); discriminate.
Qed.

Lemma existsSync_file path w :
  is_Some (files w !! path) -> existsSync path w = (Ret true, w, []).
Proof.
  intros Hsome. unfold existsSync, gets.
  rewrite (bool_decide_eq_true_2 _ Hsome). reflexivity.
Qed.

(** What [loadConfig] does once the file was read and parsed. *)
Lemma loadConfig_parsed w text v :
  outcome (readFileSync (configPath w) w) = Ret text ->
  JSON_parse text = Some v ->
  loadConfig w =
    match v with
    | JNull => (Exit 1, w, [ConsoleError "❌ Failed to load configuration:" TypeError])
    | _ => if truthy (field "devServerUrl" v) && truthy (field "totalSlides" v)
           then (Ret v, w, [])
           else (Exit 1, w, [rejected])
    end.
Proof.
  intros Hread Hparse. apply readFileSync_found in Hread as [Hread Hsome].
  unfold loadConfig.
  rewrite (bind_ret_run _ _ w (cwd w) w []) by reflexivity.
  fold (configPath w).
  rewrite (bind_ret_run _ _ w true w []) by (apply existsSync_file, Hsome).
  cbn [negb]. unfold try_catch.
  rewrite (bind_ret_run _ _ w text w []) by exact Hread.
  unfold parse. rewrite Hparse.
  destruct v as [| b | n | s | items | members]; cbn;
    try reflexivity;
    repeat match goal with
           | |- context [truthy ?x] => destruct (truthy x); cbn
           end; reflexivity.
Qed.

Lemma loadConfig_unparsed w text :
  outcome (readFileSync (configPath w) w) = Ret text ->
  JSON_parse text = None ->
  loadConfig w = (Exit 1, w, [ConsoleError "❌ Failed to load configuration:" SyntaxError]).
Proof.
  intros Hread Hparse. apply readFileSync_found in Hread as [Hread Hsome].
  unfold loadConfig.
  rewrite (bind_ret_run _ _ w (cwd w) w []) by reflexivity.
  fold (configPath w).
  rewrite (bind_ret_run _ _ w true w []) by (apply existsSync_file, Hsome).
  cbn [negb]. unfold try_catch.
  rewrite (bind_ret_run _ _ w text w []) by exact Hread.
  unfold parse. rewrite Hparse. reflexivity.
Qed.

Lemma loadConfig_no_file w :
  files w !! configPath w = None ->
  exists t, loadConfig w = (Exit 1, w, t).
Proof.
  intros Hnone. unfold loadConfig.
  unfold bind at 1. unfold gets at 1. cbv beta iota. fold (configPath w).
  unfold bind at 1. unfold existsSync, gets. cbv beta iota.
  rewrite (bool_decide_eq_false_2 (is_Some (files w !! configPath w)))
    by (rewrite Hnone; intros [x Hx]; discriminate).
  cbn [orb].
  destruct (bool_decide (configPath w ∈ dirs w)) eqn:Hdir; cbn [negb].
  - unfold try_catch. unfold bind at 1. unfold readFileSync. rewrite Hnone, Hdir.
    cbn. eauto.
  - cbn. eauto.
Qed.

(** [loadConfig] either exits with code 1 or returns the value parsed from
    the file, silently; it never changes the world. *)
Lemma loadConfig_cases w :
  (exists t, loadConfig w = (Exit 1, w, t)) \/
  (exists text v,
      outcome (readFileSync (configPath w) w) = Ret text /\
      JSON_parse text = Some v /\
      truthy (field "devServerUrl" v) = true /\
      truthy (field "totalSlides" v) = true /\
      loadConfig w = (Ret v, w, [])).
Proof.
  destruct (files w !! configPath w) as [data |] eqn:Hfile.
  - assert (Hread : exists text, outcome (readFileSync (configPath w) w) = Ret text).
    { unfold readFileSync. rewrite Hfile. destruct data; cbn; eauto. }
    destruct Hread as [text Hread].
    destruct (JSON_parse text) as [v |] eqn:Hparse.
    + pose proof (loadConfig_parsed w text v Hread Hparse) as Hrun.
      destruct (truthy (field "devServerUrl" v)) eqn:Hurl;
        [destruct (truthy (field "totalSlides" v)) eqn:Htotal |].
      * destruct v; try (right; exists text; eexists; repeat split; eauto; fail).
        discriminate.
      * left. destruct v; cbn [andb] in Hrun; eauto.
      * left. destruct v; cbn [andb] in Hrun; eauto.
    + left. rewrite (loadConfig_unparsed w text Hread Hparse). eauto.
  - left. apply loadConfig_no_file, Hfile.
Qed.

(** C7: [loadConfig] ends the process with exit code 1 when the
    configuration file is not in the working directory, when its text is
    not JSON, and when the field [devServerUrl] or [totalSlides] is missing
    from the parsed value; it returns the parsed value, as it is and
    without any action on the world, as soon as both fields are truthy,
    whatever the value holds besides (no range of the sub-slide mapping is
    looked at); and it never changes the world. *)
Theorem loadConfig_contract w :
  let path := path_join (cwd w) "pdf-export.config.json" in
  let r := loadConfig w in
  final r = w /\
  (files w !! path = None -> outcome r = Exit 1) /\
  (forall text,
      outcome (readFileSync path w) = Ret text -> JSON_parse text = None ->
      outcome r = Exit 1) /\
  (forall text v,
      outcome (readFileSync path w) = Ret text -> JSON_parse text = Some v ->
      field "devServerUrl" v = None \/ field "totalSlides" v = None ->
      outcome r = Exit 1) /\
  (forall text v,
      outcome (readFileSync path w) = Ret text -> JSON_parse text = Some v ->
      truthy (field "devServerUrl" v) = true -> truthy (field "totalSlides" v) = true ->
      outcome r = Ret v /\ events r = []) /\
  (forall v, outcome r = Ret v -> events r = []).
Proof.
  cbv zeta. fold (configPath w). split; [| split; [| split; [| split; [| split]]]].
  - destruct (loadConfig_cases w) as [[t E] | (text & v & _ & _ & _ & _ & E)]; now rewrite E.
  - intros Hnone. destruct (loadConfig_no_file w Hnone) as [t E]. now rewrite E.
  - intros text Hread Hparse. now rewrite (loadConfig_unparsed w text Hread Hparse).
  - intros text v Hread Hparse Hmissing.
    rewrite (loadConfig_parsed w text v Hread Hparse).
    destruct v; try reflexivity;
      destruct Hmissing as [-> | ->]; cbn [truthy andb];
      try reflexivity; now rewrite andb_false_r.
  - intros text v Hread Hparse Hurl Htotal.
    rewrite (loadConfig_parsed w text v Hread Hparse), Hurl, Htotal.
    destruct v; try (split; reflexivity). discriminate.
  - intros v Hret.
    destruct (loadConfig_cases w) as [[t E] | (text & v' & _ & _ & _ & _ & E)];
      rewrite E in *; [discriminate | reflexivity].
Qed.

(** C9: a falsy value of a required field counts as a missing field.  A
    configuration whose [devServerUrl] or [totalSlides] is present with a
    falsy value, such as the number [0] of [totalSlides] or the empty
    string of [devServerUrl], is rejected although the field is there: the
    loader reports "missing required fields" and the process exits with
    code 1. *)
Theorem loadConfig_rejects_falsy w text v x :
  outcome (readFileSync (path_join (cwd w) "pdf-export.config.json") w) = Ret text ->
  JSON_parse text = Some v ->
  field "totalSlides" v = Some x \/ field "devServerUrl" v = Some x ->
  truthy (Some x) = false ->
  outcome (loadConfig w) = Exit 1 /\
  events (loadConfig w) =
    [ConsoleError "❌ Failed to load configuration:"
                 (Error "Invalid configuration: missing required fields")] /\
  truthy (Some (JNumber 0)) = false /\
  truthy (Some (JString "")) = false.
Proof.
  intros Hread Hparse Hfalsy Hx.
  rewrite (loadConfig_parsed w text v Hread Hparse).
  destruct v; try (destruct Hfalsy; discriminate).
  destruct Hfalsy as [-> | ->]; rewrite Hx, ?andb_false_r; cbn [andb];
    repeat split; reflexivity.
Qed.


(** *** The page count *)

Lemma pagesAdded_wellFormed config slideIndex :
  wellFormed config ->
  Z.of_nat (pagesAdded config slideIndex) = pagesOfSlide config slideIndex.
Proof.
  intros [_ Hranges]. unfold pagesAdded, pagesOfSlide, statesOf.
  destruct (slidesWithSubSlides config !! pretty slideIndex) as [sc |] eqn:Hsc; [| reflexivity].
  specialize (Hranges _ _ Hsc).
  destruct (type sc); cbn [firstState] in *; lia.
Qed.

Lemma pagesAdded_sum config (indices : list Z) :
  wellFormed config ->
  Z.of_nat (sum_list (pagesAdded config <$> indices)) =
  foldr Z.add 0 (pagesOfSlide config <$> indices).
Proof.
  intros Hwf. induction indices as [| i indices IH]; [reflexivity |].
  cbn [fmap list_fmap sum_list_with foldr] in *. unfold id at 1.
  rewrite Nat2Z.inj_add, IH, (pagesAdded_wellFormed _ _ Hwf). reflexivity.
Qed.

Lemma loadConfig_returned w raw :
  outcome (loadConfig w) = Ret raw -> loadConfig w = (Ret raw, w, []).
Proof.
  intros Hret.
  destruct (loadConfig_cases w) as [[t E] | (text & v & _ & _ & _ & _ & E)];
    rewrite E in Hret; cbn in Hret; [discriminate |].
  injection Hret as ->. exact E.
Qed.

Lemma exportPresentationToPDF_loaded w raw config :
  outcome (loadConfig w) = Ret raw ->
  asExportConfig raw = Some config ->
  exportPresentationToPDF w =
    (outcome (exportWithConfig config w), final (exportWithConfig config w),
     Console Log ("🚀 Starting PDF export (screenshot-based)..." +:+ nl) :: events (exportWithConfig config w)).
Proof.
  intros Hload Htyped. apply loadConfig_returned in Hload.
  unfold exportPresentationToPDF.
  unfold bind at 1. unfold console at 1. unfold emit. cbv beta iota.
  unfold bind at 1. rewrite Hload. cbv beta iota.
  unfold bind at 1. unfold typed. rewrite Htyped. unfold ret at 1. cbv beta iota.
  destruct (exportWithConfig config w) as [[o w'] t]. reflexivity.
Qed.

Lemma pagesIn_save (doc : PDFDocument) :
  pdfPagesIn (save doc) =
    match doc with
    | [] => [None]
    | _ => (fun p => Some (pageWidth p, pageHeight p, image p)) <$> doc
    end.
Proof.
  unfold save. rewrite pdfPagesIn_save. destruct doc as [| p doc]; [reflexivity |].
  cbn [map]. cbn [fmap list_fmap]. f_equal.
  induction doc as [| q doc IH]; [reflexivity |]. cbn [map fmap list_fmap]. now rewrite IH.
Qed.

Lemma pagesOfSlide_pos config slideIndex : wellFormed config -> 1 <= pagesOfSlide config slideIndex.
Proof.
  intros [_ Hranges]. unfold pagesOfSlide.
  destruct (slidesWithSubSlides config !! pretty slideIndex) as [sc |] eqn:Hsc; [| lia].
  specialize (Hranges _ _ Hsc). destruct (type sc); cbn [firstState] in Hranges; lia.
Qed.

Lemma expectedPages_pos config : wellFormed config -> 0 < expectedPages config.
Proof.
  intros Hwf. unfold expectedPages.
  assert (Hsum : forall indices, 0 <= foldr Z.add 0 (pagesOfSlide config <$> indices)).
  { induction indices as [| i indices IH]; [reflexivity |].
    cbn [fmap list_fmap foldr]. pose proof (pagesOfSlide_pos config i Hwf). lia. }
  destruct Hwf as [Hslides Hranges].
  rewrite seqZ_cons by lia. cbn [fmap list_fmap foldr].
  pose proof (pagesOfSlide_pos config 0 (conj Hslides Hranges)).
  pose proof (Hsum (seqZ (Z.succ 0) (Z.pred (totalSlides config)))). lia.
Qed.

(** C1: for a well-formed configuration (loaded from the configuration
    file, with the dev server answering 200, and nothing in the way of the
    files the export writes), [exportPresentationToPDF] returns and leaves
    in the output file a PDF whose number of pages is the sum, over the
    slide indices [0 .. totalSlides - 1], of [max + 1] for a slide with a
    "subSlide" specification, [max] for a slide with a "step"
    specification, and [1] for a slide without one; for a slide with a
    specification that number is [max - min + 1] over its range
    [min .. max]. *)
Theorem export_page_count w raw config :
  outcome (loadConfig w) = Ret raw ->
  asExportConfig raw = Some config ->
  wellFormed config ->
  server w (devServerUrl config) = Response 200 ->
  outputsFree (allScreenshotNames config) w ->
  let r := exportPresentationToPDF w in
  (exists bytes : Buffer,
      outcome r = Ret tt /\
      files (final r) !! OUTPUT_FILE w = Some (Binary bytes) /\
      Z.of_nat (length (pdfPagesIn bytes)) = expectedPages config) /\
  (forall slideIndex subSlideConfig,
      slidesWithSubSlides config !! pretty slideIndex = Some subSlideConfig ->
      pagesOfSlide config slideIndex =
        max subSlideConfig - firstState (type subSlideConfig) + 1).
Proof.
  intros Hload Htyped Hwf Hserver _. cbv zeta. split.
  - rewrite (exportPresentationToPDF_loaded w raw config Hload Htyped).
    rewrite exportWithConfig_probe by (rewrite Hserver; discriminate).
    rewrite Hserver. cbn [Z.eqb Pos.eqb]. cbv zeta.
    destruct (lands_exportWithBrowser config w) as ([] & w' & t & E & C & l & Hfile & Hpages).
    rewrite E. unfold outcome, final, events. cbn [fst snd].
    exists (save (mergedPdf l)). split; [reflexivity |]. split.
    + replace (OUTPUT_FILE w) with (OUTPUT_FILE w'); [exact Hfile |].
      unfold OUTPUT_FILE, OUTPUT_DIR. now rewrite C.
    + destruct Hpages as [(ps & Hps & Hlen) _]. cbn [mergedPdf noPages app] in Hps.
      assert (Hcount : Z.of_nat (length (mergedPdf l)) = expectedPages config).
      { rewrite Hps, Hlen. apply pagesAdded_sum, Hwf. }
      pose proof (expectedPages_pos config Hwf) as Hpos.
      rewrite pagesIn_save.
      destruct (mergedPdf l) as [| p doc]; [cbn [length] in Hcount; lia |].
      rewrite length_fmap. exact Hcount.
  - intros slideIndex sc Hsc. unfold pagesOfSlide. rewrite Hsc.
    destruct (type sc); cbn [firstState]; lia.
Qed.

(** *** The server probe *)

Lemma main_unfold w :
  main w =
    match exportPresentationToPDF w with
    | (Ret _, w', t) => (Exit 0, w', t ++ [Console Log (nl +:+ "🎉 Export completed!")])
    | (Exit code, w', t) => (Exit code, w', t)
    | (Throw error, w', t) =>
        (Exit 1, w', t ++ [ConsoleError (nl +:+ "💥 Export failed:") error])
    end.
Proof.
  unfold main, try_catch. unfold bind at 1.
  destruct (exportPresentationToPDF w) as [[[[] | code | error] w'] t]; reflexivity.
Qed.

(** C4: in a run whose probe of the configured url times out, fails, or is
    answered with a status other than 200, [checkDevServer] returns [false]
    in all three cases alike, the process exits with code 1, and the trace
    of the run holds exactly one HTTP GET, with a timeout of 2000 ms, and no
    action on a browser: nothing was launched.  Where [http.get] refuses the
    url (it is not an [http:] url) no request is sent and the probe throws
    instead of returning; the run ends the same way, with the exit code 1
    and no action on a browser. *)
Theorem unavailable_server_aborts w raw config :
  outcome (loadConfig w) = Ret raw ->
  asExportConfig raw = Some config ->
  server w (devServerUrl config) <> Response 200 ->
  let r := main w in
  let probe := checkDevServer (devServerUrl config) w in
  outcome r = Exit 1 /\
  filter isBrowserEvent (events r) = [] /\
  match server w (devServerUrl config) with
  | Refused =>
      outcome probe = Throw TypeError /\ filter isHttpGet (events r) = []
  | _ =>
      outcome probe = Ret false /\
      filter isHttpGet (events r) = [HttpGet (devServerUrl config) 2000]
  end.
Proof.
  intros Hload Htyped Hserver. cbv zeta.
  rewrite main_unfold, (exportPresentationToPDF_loaded w raw config Hload Htyped).
  rewrite checkDevServer_run.
  destruct (server w (devServerUrl config)) as [statusCode | | |] eqn:Hanswer.
  - assert (Hne : (statusCode =? 200) = false).
    { apply Z.eqb_neq. intros ->. now apply Hserver. }
    rewrite exportWithConfig_probe by (rewrite Hanswer; discriminate).
    rewrite Hanswer, Hne. repeat split.
  - rewrite exportWithConfig_probe by (rewrite Hanswer; discriminate).
    rewrite Hanswer. repeat split.
  - rewrite exportWithConfig_probe by (rewrite Hanswer; discriminate).
    rewrite Hanswer. repeat split.
  - rewrite (exportWithConfig_refused config w Hanswer). repeat split.
Qed.

(** *** Entries of the sub-slide mapping beyond the last slide *)

Lemma for_lt_ext {S} lo hi (body1 body2 : Z -> S -> Eff S) :
  (forall i s w, lo <= i < hi -> body1 i s w = body2 i s w) ->
  forall s w, for_lt lo hi body1 s w = for_lt lo hi body2 s w.
Proof.
  intros Hext.
  remember (Z.to_nat (hi - lo)) as n eqn:Hn. revert lo Hn Hext.
  induction n as [| n IH]; intros lo Hn Hext s w.
  - rewrite !for_lt_done by lia. reflexivity.
  - rewrite !for_lt_unroll by lia. unfold bind. rewrite Hext by lia.
    destruct (body2 lo s w) as [[[s1 | c | e] w1] t1]; try reflexivity.
    rewrite (IH (lo + 1)); [reflexivity | lia |].
    intros i s0 w0 Hi. apply Hext. lia.
Qed.

Lemma for_lt_seqZ {S} lo hi (body : Z -> S -> Eff S) s w :
  for_lt lo hi body s w = for_of (seqZ lo (hi - lo)) body s w.
Proof.
  remember (Z.to_nat (hi - lo)) as n eqn:Hn. revert lo Hn s w.
  induction n as [| n IH]; intros lo Hn s w.
  - rewrite for_lt_done by lia. rewrite seqZ_nil by lia. reflexivity.
  - rewrite for_lt_unroll by lia. rewrite seqZ_cons by lia. cbn [for_of].
    unfold bind. destruct (body lo s w) as [[[s1 | c | e] w1] t1]; try reflexivity.
    rewrite (IH (lo + 1)) by lia.
    replace (Z.pred (hi - lo)) with (hi - (lo + 1)) by lia. reflexivity.
Qed.

Lemma exportSlide_lookup config m slideIndex l w :
  m !! pretty slideIndex = slidesWithSubSlides config !! pretty slideIndex ->
  exportSlide (withSubSlides m config) slideIndex l w = exportSlide config slideIndex l w.
Proof.
  intros Hm. unfold exportSlide. cbn [slidesWithSubSlides withSubSlides]. rewrite Hm.
  reflexivity.
Qed.

(** C8: when the sub-slide mapping has an entry keyed by a slide index [k]
    at or beyond [totalSlides], the export loop runs its body for exactly
    the indices [0 .. totalSlides - 1], in order, [k] is not one of them,
    and the loop does what it does on the configuration without the entry:
    the entry is never looked at. *)
Theorem out_of_range_entry_inert config (k : Z) spec l w :
  totalSlides config <= k ->
  slidesWithSubSlides config !! pretty k = Some spec ->
  let without := withSubSlides (delete (pretty k) (slidesWithSubSlides config)) config in
  exportSlides config l w = for_of (seqZ 0 (totalSlides config)) (exportSlide config) l w /\
  (k ∉ seqZ 0 (totalSlides config)) /\
  exportSlides without l w = exportSlides config l w.
Proof.
  intros Hk Hspec. cbv zeta. split; [| split].
  - unfold exportSlides. rewrite for_lt_seqZ, Z.sub_0_r. reflexivity.
  - rewrite elem_of_seqZ. lia.
  - unfold exportSlides. cbn [totalSlides withSubSlides].
    apply for_lt_ext. intros i s w0 Hi.
    apply exportSlide_lookup. apply lookup_delete_ne.
    intros Heq. apply (inj pretty) in Heq. lia.
Qed.

End PdfExportProperties.

(** *** The script on the sample deck *)

Section PdfExportExamples.
Import PdfExport IdealDeck.

Example sampleConfig_typed : asExportConfig sampleConfigJson = Some sampleConfig.
Proof. vm_compute. reflexivity. Qed.

Lemma sampleConfig_wellFormed : wellFormed sampleConfig.
Proof.
  split; [reflexivity |].
  intros k subSlideConfig Hk. cbn [sampleConfig slidesWithSubSlides] in Hk.
  apply lookup_singleton_Some in Hk as [_ <-]. cbn. lia.
Qed.

(** The sample project has no [exports] yet. *)
Lemma sampleOutputs_free answer shown names :
  outputsFree names (project sampleConfigText answer shown).
Proof.
  assert (Hdirs : forall path, path <> "/project" ->
                    path ∉ dirs (project sampleConfigText answer shown)).
  { intros path Hne Hin. unfold project in Hin. cbn [dirs] in Hin.
    apply elem_of_singleton in Hin. contradiction. }
  repeat split.
  - apply Hdirs. discriminate.
  - apply Forall_forall. intros name _. apply Hdirs. discriminate.
Qed.

(** The example of the specification: three slides, the second with the
    sub-slides 0..2, give 1 + 3 + 1 = 5 pages. *)
Lemma export_page_count_witness :
  (exists bytes : Buffer,
      outcome (exportPresentationToPDF (project sampleConfigText (Response 200) 0)) = Ret tt /\
      files (final (exportPresentationToPDF (project sampleConfigText (Response 200) 0)))
        !! "/project/exports/presentation.pdf" = Some (Binary bytes) /\
      Z.of_nat (length (pdfPagesIn bytes)) = 5).
Proof.
  destruct (export_page_count (project sampleConfigText (Response 200) 0)
              sampleConfigJson sampleConfig) as [Hpdf _].
  - vm_compute. reflexivity.
  - exact sampleConfig_typed.
  - exact sampleConfig_wellFormed.
  - reflexivity.
  - apply sampleOutputs_free.
  - exact Hpdf.
Defined.

(** From slide 2 to slide 5: three times "next". *)
Lemma navigateToSlide_emits_distance_witness :
  outcome (navigateToSlide 5 sampleConfig (project sampleConfigText (Response 200) 2)) = Ret tt /\
  keys (events (navigateToSlide 5 sampleConfig (project sampleConfigText (Response 200) 2)))
    = [ArrowRight; ArrowRight; ArrowRight] /\
  events (navigateToSlide 5 sampleConfig (project sampleConfigText (Response 200) 2))
    = [ Evaluate;
        KeyPress ArrowRight; Sleep 800; WaitForFunction 3000;
        KeyPress ArrowRight; Sleep 800; WaitForFunction 3000;
        KeyPress ArrowRight; Sleep 800; WaitForFunction 3000 ].
Proof.
  destruct (navigateToSlide_emits_distance sampleConfig 2 5
              (project sampleConfigText (Response 200) 2)) as (Hret & Hkeys & Hevents & _).
  - vm_compute. reflexivity.
  - split; [exact Hret |]. split; [exact Hkeys |]. apply Hevents. lia.
Defined.

(** C2, as stated, fails for a configuration whose inter-slide duration is
    0: each key is followed by a wait of [animationWaitTime], here 1000 ms,
    and not by a wait of the configured 0 ms. *)
Lemma navigateToSlide_zero_transition :
  slideTransitionWaitTime instantConfig = 0 /\
  events (navigateToSlide 5 instantConfig (project sampleConfigText (Response 200) 2))
    = [ Evaluate;
        KeyPress ArrowRight; Sleep 1000; WaitForFunction 3000;
        KeyPress ArrowRight; Sleep 1000; WaitForFunction 3000;
        KeyPress ArrowRight; Sleep 1000; WaitForFunction 3000 ] /\
  events (navigateToSlide 5 instantConfig (project sampleConfigText (Response 200) 2))
    <> [ Evaluate;
         KeyPress ArrowRight; Sleep 0; WaitForFunction 3000;
         KeyPress ArrowRight; Sleep 0; WaitForFunction 3000;
         KeyPress ArrowRight; Sleep 0; WaitForFunction 3000 ].
Proof.
  split; [reflexivity |]. split; [vm_compute; reflexivity |].
  intros Heq. vm_compute in Heq. discriminate Heq.
Qed.

(** From slide 5 back to slide 2: three times "previous". *)
Example navigateToSlide_back :
  keys (events (navigateToSlide 2 sampleConfig (project sampleConfigText (Response 200) 5)))
    = [ArrowLeft; ArrowLeft; ArrowLeft].
Proof. vm_compute. reflexivity. Qed.

Lemma waitForAnimation_sleeps_then_polls_witness :
  outcome (waitForAnimation sampleConfig (Some 800) (project sampleConfigText (Response 200) 0))
    = Ret tt /\
  events (waitForAnimation sampleConfig (Some 800) (project sampleConfigText (Response 200) 0))
    = [Sleep 800; WaitForFunction 3000].
Proof.
  destruct (waitForAnimation_sleeps_then_polls sampleConfig (Some 800)
              (project sampleConfigText (Response 200) 0)) as (Hret & Hevents & Hpoll & _).
  split; [exact Hret |]. rewrite Hevents, Hpoll. reflexivity.
Defined.

(** C3, as stated, fails for the target duration 0 (the inter-slide wait of
    a configuration that sets [slideTransitionWaitTime] to 0, for one): the
    call sleeps for [animationWaitTime], here 1000 ms, and not for 0 ms. *)
Lemma waitForAnimation_zero_target :
  events (waitForAnimation sampleConfig (Some 0) (project sampleConfigText (Response 200) 0))
    = [Sleep 1000; WaitForFunction 3000] /\
  events (waitForAnimation sampleConfig (Some 0) (project sampleConfigText (Response 200) 0))
    <> [Sleep 0; WaitForFunction 3000].
Proof.
  split; [reflexivity |]. intros Heq. vm_compute in Heq. discriminate Heq.
Qed.

(** An omitted target: the sleep lasts [animationWaitTime], here 1000 ms. *)
Example waitForAnimation_no_target :
  events (waitForAnimation sampleConfig None (project sampleConfigText (Response 200) 0))
    = [Sleep 1000; WaitForFunction 3000].
Proof. reflexivity. Qed.

(** A poll that times out does not stop the wait.  The content of the ideal
    deck is opaque, and the poll times out all the same: the polled
    function cannot read the selector. *)
Example waitForAnimation_poll_timeout :
  outcome (waitForFunction (holds mainContentVisible) 3000
             (project sampleConfigText (Response 200) 0)) = Throw TimeoutError /\
  outcome (waitForAnimation sampleConfig (Some 800) (project sampleConfigText (Response 200) 0))
    = Ret tt.
Proof. split; reflexivity. Qed.

(** The dev server does not answer: exit 1, and no browser. *)
Lemma unavailable_server_aborts_witness :
  outcome (main (project sampleConfigText NoAnswer 0)) = Exit 1 /\
  filter isBrowserEvent (events (main (project sampleConfigText NoAnswer 0))) = [] /\
  filter isHttpGet (events (main (project sampleConfigText NoAnswer 0)))
    = [HttpGet "http://localhost:5173" 2000].
Proof.
  destruct (unavailable_server_aborts (project sampleConfigText NoAnswer 0)
              sampleConfigJson sampleConfig) as (Hexit & Hbrowser & _ & Hget).
  - vm_compute. reflexivity.
  - exact sampleConfig_typed.
  - discriminate.
  - split; [exact Hexit |]. split; [exact Hbrowser | exact Hget].
Defined.

(** An error page of the dev server (status 500) is treated alike. *)
Example error_page_aborts :
  outcome (main (project sampleConfigText (Response 500) 0)) = Exit 1 /\
  outcome (checkDevServer "http://localhost:5173" (project sampleConfigText (Response 500) 0))
    = Ret false.
Proof. split; vm_compute; reflexivity. Qed.

(** A dev server behind TLS: [http.get] refuses the url, no request is sent,
    and the run ends through the [catch] of the entry point. *)
Example refused_url_aborts :
  outcome (main (project secureConfigText Refused 0)) = Exit 1 /\
  events (main (project secureConfigText Refused 0)) =
    [ Console Log ("🚀 Starting PDF export (screenshot-based)..." +:+ nl);
      Console Log ("📋 Configuration loaded: 3 slides" +:+ nl);
      Console Log "🔍 Checking if dev server is running...";
      ConsoleError (nl +:+ "💥 Export failed:") TypeError ].
Proof. split; vm_compute; reflexivity. Qed.

(** The sample deck, whose second slide has the sub-slides 0..2: three
    screenshots with ArrowDown in between, then ArrowUp twice. *)
Lemma exportSubSlides_resets_witness :
  steps (events (exportSubSlides sampleConfig 1
                   {| type := subSlide; max := 2; comment := None |} noPages
                   (project sampleConfigText (Response 200) 1)))
    = [ Captured; Pressed ArrowDown; Captured; Pressed ArrowDown; Captured;
        Pressed ArrowUp; Pressed ArrowUp ].
Proof.
  destruct (exportSubSlides_resets sampleConfig 1
              {| type := subSlide; max := 2; comment := None |} noPages
              (project sampleConfigText (Response 200) 1)) as [_ Hsteps].
  exact Hsteps.
Defined.

(** A slide with the steps 1..3: three screenshots, then ArrowDown once
    more. *)
Example exportSubSlides_steps :
  steps (events (exportSubSlides sampleConfig 1
                   {| type := step; max := 3; comment := None |} noPages
                   (project sampleConfigText (Response 200) 1)))
    = [ Captured; Pressed ArrowDown; Captured; Pressed ArrowDown; Captured;
        Pressed ArrowDown ].
Proof. vm_compute. reflexivity. Qed.

(** The loader on the sample project, on a project without configuration
    file, and on a file that is not JSON. *)
Lemma loadConfig_contract_witness :
  final (loadConfig (project sampleConfigText (Response 200) 0))
    = project sampleConfigText (Response 200) 0 /\
  outcome (loadConfig (project sampleConfigText (Response 200) 0)) = Ret sampleConfigJson /\
  events (loadConfig (project sampleConfigText (Response 200) 0)) = [].
Proof.
  destruct (loadConfig_contract (project sampleConfigText (Response 200) 0))
    as (Hsame & _ & _ & _ & Haccepts & _).
  split; [exact Hsame |].
  apply (Haccepts sampleConfigText sampleConfigJson); vm_compute; reflexivity.
Defined.

Example loadConfig_absent :
  outcome (loadConfig {| cwd := "/elsewhere"; platform := "linux"; files := ∅; dirs := ∅;
                         server := fun _ => NoAnswer;
                         page := {| slide := 0; state := 0 |} |}) = Exit 1.
Proof. vm_compute. reflexivity. Qed.

Example loadConfig_malformed :
  outcome (loadConfig (project "{ devServerUrl: " (Response 200) 0)) = Exit 1 /\
  events (loadConfig (project "{ devServerUrl: " (Response 200) 0))
    = [ConsoleError "❌ Failed to load configuration:" SyntaxError].
Proof. split; vm_compute; reflexivity. Qed.

(** The loader accepts a mapping with an entry for a slide the deck does not
    have and with an empty range: it reads none of it. *)
Example loadConfig_reads_no_range :
  forall stray,
    truthy (field "devServerUrl" (JObject [ ("devServerUrl", JString "http://localhost:5173");
                                            ("totalSlides", JNumber 3);
                                            ("slidesWithSubSlides", stray) ])) = true /\
    truthy (field "totalSlides" (JObject [ ("devServerUrl", JString "http://localhost:5173");
                                           ("totalSlides", JNumber 3);
                                           ("slidesWithSubSlides", stray) ])) = true.
Proof. intros stray. split; reflexivity. Qed.

(** A deck of zero slides: the field is there, and the loader calls it
    missing. *)
Lemma loadConfig_rejects_falsy_witness :
  outcome (loadConfig (project emptyDeckText (Response 200) 0)) = Exit 1 /\
  events (loadConfig (project emptyDeckText (Response 200) 0)) =
    [ConsoleError "❌ Failed to load configuration:"
                 (Error "Invalid configuration: missing required fields")].
Proof.
  destruct (loadConfig_rejects_falsy (project emptyDeckText (Response 200) 0)
              emptyDeckText emptyDeckJson (JNumber 0)) as (Hexit & Hevents & _).
  - vm_compute. reflexivity.
  - vm_compute. reflexivity.
  - left. reflexivity.
  - reflexivity.
  - split; [exact Hexit | exact Hevents].
Defined.

(** The specification for a tenth slide of a deck of three changes nothing. *)
Lemma out_of_range_entry_inert_witness :
  exportSlides strayConfig noPages (project sampleConfigText (Response 200) 0)
    = for_of [0; 1; 2] (exportSlide strayConfig) noPages
        (project sampleConfigText (Response 200) 0) /\
  exportSlides (withSubSlides (delete "9" (slidesWithSubSlides strayConfig)) strayConfig)
      noPages (project sampleConfigText (Response 200) 0)
    = exportSlides strayConfig noPages (project sampleConfigText (Response 200) 0).
Proof.
  destruct (out_of_range_entry_inert strayConfig 9
              {| type := step; max := 4; comment := None |} noPages
              (project sampleConfigText (Response 200) 0)) as (Hloop & _ & Hsame).
  - cbn. lia.
  - vm_compute. reflexivity.
  - split; [exact Hloop | exact Hsame].
Defined.

End PdfExportExamples.

(** ** The base64 image fixer: properties *)

Section ImageFixProperties.
Import ImageFix.
Context `{Node}.

Local Abbreviation Eff := (M World Event).

Lemma processFile_run filePath w : processFile filePath w = processFile_result filePath w.
Proof.
  unfold processFile, processFile_result, isBase64Encoded, decodeBase64ToBuffer, decoded.
  unfold bind at 1. unfold try_catch at 1. unfold bind at 1. unfold readFileSync at 1.
  destruct (files w !! filePath) as [bytes |] eqn:Hfile.
  - cbn [ret].
    destruct (startsWith (trim (toStringUtf8 bytes)) base64Header); cbn [negb]; [| reflexivity].
    unfold try_catch, bind, readFileSync, writeFileSync, ret. rewrite Hfile.
    destruct (bool_decide (take 8 _ = pngMagicBytes)); cbn [negb]; [| reflexivity].
    destruct (bool_decide (filePath ∈ readOnly w)); reflexivity.
  - destruct (bool_decide (is_Some (dirs w !! filePath))); reflexivity.
Qed.


(** *** A binary PNG is not taken for base64 text *)

Lemma trimStart_snoc (l : jsstring) c :
  isWhiteSpace c = false -> exists l', trimStart (l ++ [c]) = l' ++ [c].
Proof.
  intros Hc. induction l as [| x l IH]; cbn [app trimStart].
  - rewrite Hc. exists []. reflexivity.
  - destruct (isWhiteSpace x); [exact IH |]. exists (x :: l). reflexivity.
Qed.

(** [trim] keeps a first character that is not white space. *)
Lemma trim_head c (s : jsstring) :
  isWhiteSpace c = false -> exists s', trim (c :: s) = c :: s'.
Proof.
  intros Hc. unfold trim. cbn [trimStart]. rewrite Hc. cbn [rev].
  destruct (trimStart_snoc (rev s) c Hc) as [l' ->].
  exists (rev l'). rewrite rev_app_distr. reflexivity.
Qed.

(** Bytes that start with the PNG signature start with 0x89, which no
    UTF-8 sequence starts with: the text read from them starts with U+FFFD,
    not with "i". *)
Lemma png_not_base64 (bytes : list Byte.byte) :
  take 8 bytes = pngMagicBytes ->
  startsWith (trim (toStringUtf8 bytes)) base64Header = false.
Proof.
  intros Hpng. destruct bytes as [| b bytes]; [discriminate |].
  injection Hpng as -> _.
  unfold toStringUtf8. cbn [map].
  change (byteZ x89) with 137. cbn [utf8_from utf8_initial needed Z.eqb utf8_lead].
  change (utf8_lead 137) with (Some 0xFFFD, utf8_initial).
  destruct (trim_head 0xFFFD (utf8_from utf8_initial (map byteZ bytes)) eq_refl) as [s' ->].
  reflexivity.
Qed.

Lemma settled_skipped filePath w :
  settled filePath w -> exists why, processFile_result filePath w = (Ret (skipped why), w, []).
Proof.
  unfold settled, processFile_result.
  destruct (files w !! filePath) as [bytes |]; [| eauto].
  intros [Hstarts | [Hpng | Hro]].
  - rewrite Hstarts. eauto.
  - destruct (startsWith _ _); cbn [negb]; [| eauto].
    rewrite (bool_decide_eq_false_2 _ Hpng). eauto.
  - destruct (startsWith _ _); cbn [negb]; [| eauto].
    destruct (bool_decide (take 8 _ = _)); cbn [negb]; [| eauto].
    rewrite (bool_decide_eq_true_2 _ Hro). eauto.
Qed.

(** What [processFile] does to the world: nothing, or it replaces the bytes
    of a file that is there by the bytes of a PNG. *)
Lemma processFile_world filePath w :
  final (processFile_result filePath w) = w \/
  exists png, take 8 png = pngMagicBytes /\ is_Some (files w !! filePath) /\
              final (processFile_result filePath w) = setFiles (<[filePath := png]> (files w)) w.
Proof.
  unfold processFile_result.
  destruct (files w !! filePath) as [bytes |]; [| now left].
  destruct (startsWith _ _); cbn [negb]; [| now left].
  destruct (bool_decide (take 8 (decoded bytes) = pngMagicBytes)) eqn:Hpng; cbn [negb];
    [| now left].
  destruct (bool_decide (filePath ∈ readOnly w)); [now left |].
  right. exists (decoded bytes).
  split; [exact (bool_decide_eq_true_1 _ Hpng) | split; [eauto | reflexivity]].
Qed.

Lemma settled_after_write filePath png w :
  take 8 png = pngMagicBytes ->
  settled filePath (setFiles (<[filePath := png]> (files w)) w).
Proof.
  intros Hpng. unfold settled. cbn [files setFiles]. rewrite lookup_insert_eq.
  left. apply png_not_base64, Hpng.
Qed.

(** Once [processFile] went over a file, it leaves it alone. *)
Lemma processFile_settles filePath w :
  settled filePath (final (processFile_result filePath w)).
Proof.
  unfold processFile_result.
  destruct (files w !! filePath) as [bytes |] eqn:Hfile.
  2:{ unfold final, settled. cbn [fst snd]. now rewrite Hfile. }
  destruct (startsWith (trim (toStringUtf8 bytes)) base64Header) eqn:Hstarts; cbn [negb].
  2:{ unfold final, settled. cbn [fst snd]. rewrite Hfile. now left. }
  destruct (bool_decide (take 8 (decoded bytes) = pngMagicBytes)) eqn:Hmagic; cbn [negb].
  2:{ unfold final, settled. cbn [fst snd]. rewrite Hfile. right. left.
      exact (bool_decide_eq_false_1 _ Hmagic). }
  destruct (bool_decide (filePath ∈ readOnly w)) eqn:Hro.
  { unfold final, settled. cbn [fst snd]. rewrite Hfile. right. right.
    exact (bool_decide_eq_true_1 _ Hro). }
  unfold final. cbn [fst snd].
  apply settled_after_write. exact (bool_decide_eq_true_1 _ Hmagic).
Qed.



(** *** The exit code *)

Lemma shape_root w w' : shape w' = shape w -> PROJECT_ROOT w' = PROJECT_ROOT w.
Proof.
  intros Hshape. unfold PROJECT_ROOT.
  assert (Hargv : argv2 w' = argv2 w) by (unfold shape in Hshape; congruence).
  assert (Hcwd : cwd w' = cwd w) by (unfold shape in Hshape; congruence).
  now rewrite Hargv, Hcwd.
Qed.

Lemma shape_is_file w w' path :
  shape w' = shape w -> is_Some (files w' !! path) <-> is_Some (files w !! path).
Proof.
  intros Hshape.
  assert (Hdom : dom (files w') = dom (files w)) by (unfold shape in Hshape; congruence).
  rewrite <- !elem_of_dom, Hdom. reflexivity.
Qed.

Lemma shape_scannable dir w w' : shape w' = shape w -> scannable dir w -> scannable dir w'.
Proof.
  intros Hshape Hscan. unfold scannable in *.
  rewrite (shape_root _ _ Hshape), (shape_is_file _ _ _ Hshape).
  assert (Hdirs : dirs w' = dirs w) by (unfold shape in Hshape; congruence).
  rewrite Hdirs. exact Hscan.
Qed.

Lemma processFile_shape filePath w : shape (final (processFile_result filePath w)) = shape w.
Proof.
  destruct (processFile_world filePath w) as [-> | (png & _ & Hsome & ->)]; [reflexivity |].
  unfold shape. cbn [argv2 cwd dirs readOnly files setFiles]. f_equal.
  rewrite dom_insert_L. apply elem_of_dom in Hsome.
  apply subseteq_union_1_L, singleton_subseteq_l, Hsome.
Qed.

(** [processFile] always returns: no file stops the scan. *)
Lemma processFile_returns filePath w :
  exists result, outcome (processFile_result filePath w) = Ret result.
Proof.
  unfold processFile_result.
  destruct (files w !! filePath) as [bytes |]; [| cbn; eauto].
  destruct (startsWith _ _); cbn [negb]; [| cbn; eauto].
  destruct (bool_decide (take 8 _ = _)); cbn [negb]; [| cbn; eauto].
  destruct (bool_decide (_ ∈ _)); cbn; eauto.
Qed.

Lemma countFile_returns file t w :
  exists t' w' evs, countFile file t w = (Ret t', w', evs) /\ shape w' = shape w.
Proof.
  unfold countFile. unfold bind at 1. rewrite processFile_run.
  pose proof (processFile_shape file w) as Hshape.
  destruct (processFile_returns file w) as [result Hret].
  destruct (processFile_result file w) as [[o w1] t1].
  cbn [outcome final fst snd] in *. subst o.
  destruct (processed result).
  - unfold bind, emit, ret. cbn. eauto 10.
  - destruct (bool_decide _).
    + unfold ret. eauto 10.
    + unfold bind, emit, ret. cbn. eauto 10.
Qed.

Lemma countFiles_returns files t w :
  exists t' w' evs, for_of files countFile t w = (Ret t', w', evs) /\ shape w' = shape w.
Proof.
  revert t w. induction files as [| file files IH]; intros t w; cbn [for_of].
  - unfold ret. eauto 10.
  - destruct (countFile_returns file t w) as (t1 & w1 & e1 & E1 & S1).
    destruct (IH t1 w1) as (t2 & w2 & e2 & E2 & S2).
    exists t2, w2, (e1 ++ e2). rewrite (bind_ret_run _ _ _ _ _ _ E1), E2.
    split; [reflexivity | congruence].
Qed.

Lemma listPngFiles_returns dir items acc (w : World) :
  exists files,
    for_of (E := Event) items
      (fun item files =>
         let fullPath := path_join dir (name item) in
         ret (if isFile item && endsWith (name item) ".png"
              then files ++ [fullPath] else files)) acc w = (Ret files, w, []).
Proof.
  revert acc. induction items as [| item items IH]; intros acc; cbn [for_of].
  - unfold ret. eauto.
  - destruct (IH (if isFile item && endsWith (name item) ".png"
                  then acc ++ [path_join dir (name item)] else acc)) as [files E].
    exists files. erewrite bind_ret_run by reflexivity.
    cbv zeta in E |- *. rewrite E. reflexivity.
Qed.

(** [findPngFiles] on a path where there is a directory, or nothing. *)
Lemma findPngFiles_returns dir w :
  (is_Some (files w !! dir) -> is_Some (dirs w !! dir)) ->
  exists files, findPngFiles dir w = (Ret files, w, []).
Proof.
  intros Hdir. unfold findPngFiles, existsSync, readdirSync.
  unfold bind at 1. unfold gets. cbv beta iota.
  destruct (dirs w !! dir) as [items |] eqn:Hitems.
  - rewrite (bool_decide_eq_true_2 (is_Some (Some items))) by eauto.
    rewrite orb_true_r. cbn [negb]. unfold bind at 1. rewrite Hitems.
    destruct (listPngFiles_returns dir items [] w) as [files E].
    cbv zeta in E |- *. rewrite E. eauto.
  - rewrite (bool_decide_eq_false_2 (is_Some None)) by (intros [x Hx]; discriminate).
    rewrite orb_false_r.
    destruct (bool_decide (is_Some (files w !! dir))) eqn:Hfile.
    + apply bool_decide_eq_true_1, Hdir in Hfile. destruct Hfile as [x Hx]. discriminate.
    + cbn [negb]. unfold ret. eauto.
Qed.

(** [findPngFiles] on a path where there is a file: [readdirSync] throws. *)
Lemma findPngFiles_throws dir w :
  is_Some (files w !! dir) -> dirs w !! dir = None ->
  findPngFiles dir w = (Throw (SystemError "ENOTDIR"), w, []).
Proof.
  intros Hfile Hdir. unfold findPngFiles, existsSync, readdirSync.
  unfold bind at 1. unfold gets. cbv beta iota.
  rewrite (bool_decide_eq_true_2 _ Hfile). cbn [orb negb].
  unfold bind at 1. rewrite Hdir, (bool_decide_eq_true_2 _ Hfile). reflexivity.
Qed.

Lemma scanDir_unfold dir t w :
  scanDir dir t w =
    let fullDirPath := path_join (PROJECT_ROOT w) dir in
    if negb (bool_decide (is_Some (files w !! fullDirPath))
             || bool_decide (is_Some (dirs w !! fullDirPath)))
    then (Ret t, w, [ConsoleLog ("⚠️  Directory not found: " +:+ dir)])
    else
      match findPngFiles fullDirPath w with
      | (Ret files, w1, t1) =>
          match for_of files countFile t w1 with
          | (r, w2, t2) => (r, w2, ConsoleLog ("📁 Checking: " +:+ dir) :: t1 ++ t2)
          end
      | (Exit c, w1, t1) => (Exit c, w1, ConsoleLog ("📁 Checking: " +:+ dir) :: t1)
      | (Throw e, w1, t1) => (Throw e, w1, ConsoleLog ("📁 Checking: " +:+ dir) :: t1)
      end.
Proof.
  unfold scanDir. unfold bind at 1. unfold gets at 1. cbv beta iota zeta.
  unfold bind at 1. unfold existsSync, gets. cbv beta iota.
  destruct (negb _).
  - reflexivity.
  - unfold bind at 1. unfold emit. cbv beta iota. unfold bind at 1.
    destruct (findPngFiles _ w) as [[[files | c | e] w1] t1]; try reflexivity.
    destruct (for_of files countFile t w1) as [[r w2] t2]. reflexivity.
Qed.

(** A scan of one directory returns, or stops on a path that is a file. *)
Lemma scanDir_outcome dir t w :
  exists w' evs,
    shape w' = shape w /\
    ((exists t', scanDir dir t w = (Ret t', w', evs)) \/
     (~ scannable dir w /\ scanDir dir t w = (Throw (SystemError "ENOTDIR"), w', evs))).
Proof.
  rewrite scanDir_unfold. cbv zeta.
  set (fullDirPath := path_join (PROJECT_ROOT w) dir).
  destruct (negb _) eqn:Hfound; [eauto 10 |].
  destruct (dirs w !! fullDirPath) as [items |] eqn:Hdir.
  - destruct (findPngFiles_returns fullDirPath w) as [files ->]; [rewrite Hdir; eauto |].
    destruct (countFiles_returns files t w) as (t' & w' & evs & -> & Hshape).
    eauto 10.
  - assert (Hfile : is_Some (files w !! fullDirPath)).
    { apply negb_false_iff, orb_true_iff in Hfound as [Hf | Hd].
      - exact (bool_decide_eq_true_1 _ Hf).
      - apply bool_decide_eq_true_1 in Hd. rewrite ?Hdir in Hd. destruct Hd; discriminate. }
    rewrite (findPngFiles_throws _ _ Hfile Hdir).
    exists w. eexists. split; [reflexivity |]. right. split; [| reflexivity].
    unfold scannable. fold fullDirPath. rewrite Hdir.
    intros Hscan. destruct (Hscan Hfile); discriminate.
Qed.

Lemma scanDirs_outcome dirs0 t w :
  exists w' evs,
    (exists t', for_of dirs0 scanDir t w = (Ret t', w', evs)) \/
    ((exists dir, dir ∈ dirs0 /\ ~ scannable dir w) /\
     for_of dirs0 scanDir t w = (Throw (SystemError "ENOTDIR"), w', evs)).
Proof.
  revert t w. induction dirs0 as [| dir dirs0 IH]; intros t w; cbn [for_of].
  - exists w, []. left. exists t. reflexivity.
  - destruct (scanDir_outcome dir t w) as (w1 & e1 & S1 & [[t1 E1] | [Hbad E1]]).
    + destruct (IH t1 w1) as (w2 & e2 & [[t2 E2] | [(d & Hd & Hbad) E2]]).
      * exists w2, (e1 ++ e2). left. exists t2.
        rewrite (bind_ret_run _ _ _ _ _ _ E1), E2. reflexivity.
      * exists w2, (e1 ++ e2). right. split.
        -- exists d. split; [rewrite elem_of_cons; now right |].
           intros Hscan. apply Hbad. exact (shape_scannable _ _ _ S1 Hscan).
        -- rewrite (bind_ret_run _ _ _ _ _ _ E1), E2. reflexivity.
    + exists w1, e1. right. split.
      * exists dir. split; [rewrite elem_of_cons; now left | exact Hbad].
      * rewrite (bind_throw_run _ _ _ _ _ _ E1). reflexivity.
Qed.

Lemma main_run w :
  exists w' evs,
    main w = (Exit 0, w', evs) \/
    ((exists dir, dir ∈ ASSET_DIRS /\ ~ scannable dir w) /\
     main w = (Throw (SystemError "ENOTDIR"), w', evs)).
Proof.
  remember (main w) as r eqn:Hr.
  unfold main in Hr. unfold bind at 1 in Hr. unfold gets at 1 in Hr. cbv beta iota in Hr.
  unfold bind at 1 in Hr. unfold emit at 1 in Hr. cbv beta iota in Hr.
  unfold bind at 1 in Hr.
  destruct (scanDirs_outcome ASSET_DIRS
              {| totalProcessed := 0; totalSkipped := 0; totalErrors := 0 |} w)
    as (w' & evs & [[t' E] | [Hbad E]]); rewrite E in Hr.
  - unfold bind, emit, exit in Hr. cbn in Hr.
    destruct (0 <? totalProcessed t'); subst r; eexists _, _; left; reflexivity.
  - subst r. eexists _, _. right. split; [exact Hbad | reflexivity].
Qed.

Lemma main_outcome w :
  outcome (main w) = Exit 0 \/
  ((exists dir, dir ∈ ASSET_DIRS /\ ~ scannable dir w) /\
   outcome (main w) = Throw (SystemError "ENOTDIR")).
Proof.
  destruct (main_run w) as (w' & evs & [-> | [Hbad ->]]); [now left | now right].
Qed.

(** C10: the script ends with exit code 0 whenever its scan completes, that
    is, unless [readdirSync] throws because the path of an asset directory
    is a file (the one exception [main] lets through); no content of a file
    and no write protection changes that.  A file the script could not fix
    is counted as an error and reported, and the scan goes on; an asset
    directory that is missing is reported and skipped. *)
Theorem script_exits_zero w :
  ((forall dir, dir ∈ ASSET_DIRS -> scannable dir w) -> outcome (script w) = Exit 0) /\
  (outcome (main w) = Exit 0 \/ outcome (main w) = Throw (SystemError "ENOTDIR")) /\
  (forall file t, exists t' w' evs, countFile file t w = (Ret t', w', evs)) /\
  (forall file t result w' evs,
      processFile file w = (Ret result, w', evs) ->
      processed result = false -> reason result <> Some "Not base64-encoded" ->
      outcome (countFile file t w) =
        Ret {| totalProcessed := totalProcessed t; totalSkipped := totalSkipped t;
               totalErrors := totalErrors t + 1 |}) /\
  (forall dir t,
      files w !! path_join (PROJECT_ROOT w) dir = None ->
      dirs w !! path_join (PROJECT_ROOT w) dir = None ->
      scanDir dir t w = (Ret t, w, [ConsoleLog ("⚠️  Directory not found: " +:+ dir)])).
Proof.
  split; [| split; [| split; [| split]]].
  - intros Hscan. unfold script, outcome.
    destruct (main_outcome w) as [Hexit | [(dir & Hdir & Hbad) _]].
    + unfold outcome in Hexit. destruct (main w) as [[[[] | c | e] w'] t]; cbn in *;
        congruence.
    + exfalso. apply Hbad, Hscan, Hdir.
  - destruct (main_outcome w) as [Hexit | [_ Hthrow]]; auto.
  - intros file t. destruct (countFile_returns file t w) as (t' & w' & evs & E & _). eauto.
  - intros file t result w' evs Hrun Hfailed Hreason.
    unfold countFile. unfold bind at 1. rewrite Hrun, Hfailed.
    rewrite (bool_decide_eq_false_2 _ Hreason). reflexivity.
  - intros dir t Hfile Hdir. rewrite scanDir_unfold. cbv zeta. rewrite Hfile, Hdir.
    reflexivity.
Qed.

(** *** Running the script twice *)

Lemma follows_refl w : follows w w.
Proof. split; auto. Qed.

Lemma follows_trans w1 w2 w3 : follows w1 w2 -> follows w2 w3 -> follows w1 w3.
Proof. intros [S1 P1] [S2 P2]. split; [congruence | auto]. Qed.

Lemma settled_other filePath other png w :
  other <> filePath ->
  settled filePath w -> settled filePath (setFiles (<[other := png]> (files w)) w).
Proof.
  intros Hne. unfold settled. cbn [files readOnly setFiles].
  rewrite lookup_insert_ne by exact Hne. auto.
Qed.

Lemma processFile_follows filePath w : follows w (final (processFile_result filePath w)).
Proof.
  split; [apply processFile_shape |].
  intros q Hq.
  destruct (processFile_world filePath w) as [-> | (png & Hpng & _ & ->)]; [exact Hq |].
  destruct (decide (filePath = q)) as [<- | Hne].
  - apply settled_after_write, Hpng.
  - apply settled_other; assumption.
Qed.

Lemma countFile_final file t w : final (countFile file t w) = final (processFile_result file w).
Proof.
  unfold countFile. unfold bind at 1. rewrite processFile_run.
  destruct (processFile_returns file w) as [result Hret].
  destruct (processFile_result file w) as [[o w1] t1].
  cbn [outcome final fst snd] in *. subst o.
  destruct (processed result); [reflexivity |].
  destruct (bool_decide _); reflexivity.
Qed.

(** After the loop over the files, each of them is settled. *)
Lemma countFiles_settle files t w :
  exists t' w' evs,
    for_of files countFile t w = (Ret t', w', evs) /\
    follows w w' /\ Forall (fun file => settled file w') files.
Proof.
  revert t w. induction files as [| file files IH]; intros t w; cbn [for_of].
  - exists t, w, []. split; [reflexivity |]. split; [apply follows_refl | constructor].
  - destruct (countFile_returns file t w) as (t1 & w1 & e1 & E1 & _).
    assert (Hw1 : w1 = final (processFile_result file w)).
    { rewrite <- (countFile_final file t w), E1. reflexivity. }
    destruct (IH t1 w1) as (t2 & w2 & e2 & E2 & F2 & A2).
    exists t2, w2, (e1 ++ e2). rewrite (bind_ret_run _ _ _ _ _ _ E1), E2.
    split; [reflexivity |]. split.
    + eapply follows_trans; [| exact F2]. rewrite Hw1. apply processFile_follows.
    + constructor; [| exact A2].
      apply F2. rewrite Hw1. apply processFile_settles.
Qed.

(** On files that are settled, the loop changes nothing. *)
Lemma countFiles_quiet files t w :
  Forall (fun file => settled file w) files ->
  exists t' evs, for_of files countFile t w = (Ret t', w, evs).
Proof.
  intros Hall. revert t. induction Hall as [| file files Hfile _ IH]; intros t; cbn [for_of].
  - exists t, []. reflexivity.
  - destruct (countFile_returns file t w) as (t1 & w1 & e1 & E1 & _).
    assert (Hw1 : w1 = w).
    { transitivity (final (countFile file t w)); [now rewrite E1 |].
      rewrite countFile_final.
      destruct (settled_skipped _ _ Hfile) as [why ->]. reflexivity. }
    subst w1. destruct (IH t1) as (t2 & e2 & E2).
    exists t2, (e1 ++ e2). rewrite (bind_ret_run _ _ _ _ _ _ E1), E2. reflexivity.
Qed.

Lemma listPngFiles_run dir items acc (w : World) :
  for_of (E := Event) items
    (fun item files =>
       let fullPath := path_join dir (name item) in
       ret (if isFile item && endsWith (name item) ".png"
            then files ++ [fullPath] else files)) acc w
  = (Ret (acc ++ pngFilesIn dir items), w, []).
Proof.
  revert acc. induction items as [| item items IH]; intros acc; cbn [for_of].
  - unfold ret, pngFilesIn. cbn. now rewrite app_nil_r.
  - erewrite bind_ret_run by reflexivity. cbv zeta in IH |- *. rewrite IH.
    unfold pngFilesIn. cbn [omap list_omap].
    destruct (isFile item && endsWith (name item) ".png"); cbn [outcome final events fst snd app].
    + now rewrite <- app_assoc.
    + reflexivity.
Qed.

(** [findPngFiles] in one expression. *)
Lemma findPngFiles_run dir w :
  findPngFiles dir w =
    match dirs w !! dir with
    | Some items => (Ret (pngFilesIn dir items), w, [])
    | None => if bool_decide (is_Some (files w !! dir))
              then (Throw (SystemError "ENOTDIR"), w, [])
              else (Ret [], w, [])
    end.
Proof.
  unfold findPngFiles, existsSync, readdirSync.
  unfold bind at 1. unfold gets. cbv beta iota.
  destruct (dirs w !! dir) as [items |] eqn:Hitems.
  - rewrite (bool_decide_eq_true_2 (is_Some (Some items))) by eauto.
    rewrite orb_true_r. cbn [negb]. unfold bind at 1. rewrite Hitems.
    pose proof (listPngFiles_run dir items [] w) as E. cbv zeta in E |- *. rewrite E.
    reflexivity.
  - rewrite (bool_decide_eq_false_2 (is_Some None)) by (intros [x Hx]; discriminate).
    rewrite orb_false_r.
    destruct (bool_decide (is_Some (files w !! dir))) eqn:Hfile; cbn [negb].
    + unfold bind at 1. rewrite Hitems, Hfile. reflexivity.
    + reflexivity.
Qed.

Lemma quiet_follows dir w w' : follows w w' -> quiet dir w -> quiet dir w'.
Proof.
  intros [Hshape Hsettled] Hquiet items Hitems.
  assert (Hdirs : dirs w' = dirs w) by (unfold shape in Hshape; congruence).
  rewrite (shape_root _ _ Hshape) in *. rewrite Hdirs in Hitems.
  eapply Forall_impl; [apply Hquiet, Hitems | auto].
Qed.

(** A quiet directory is gone over without a change. *)
Lemma scanDir_quiet dir t w :
  quiet dir w -> final (scanDir dir t w) = w.
Proof.
  intros Hquiet. rewrite scanDir_unfold. cbv zeta.
  destruct (negb _); [reflexivity |].
  rewrite findPngFiles_run.
  destruct (dirs w !! path_join (PROJECT_ROOT w) dir) as [items |] eqn:Hitems.
  - destruct (countFiles_quiet _ t w (Hquiet items Hitems)) as (t' & evs & ->). reflexivity.
  - destruct (bool_decide _); reflexivity.
Qed.

(** After a scan of a directory that returned, the directory is quiet. *)
Lemma scanDir_follows dir t w :
  follows w (final (scanDir dir t w)) /\
  (forall t', outcome (scanDir dir t w) = Ret t' -> quiet dir (final (scanDir dir t w))) /\
  (forall e, outcome (scanDir dir t w) = Throw e -> final (scanDir dir t w) = w).
Proof.
  rewrite scanDir_unfold. cbv zeta.
  set (fullDirPath := path_join (PROJECT_ROOT w) dir).
  destruct (negb _) eqn:Hfound.
  - cbn [final outcome fst snd]. split; [apply follows_refl |]. split; [| discriminate].
    intros _ _ items Hitems. exfalso.
    apply negb_true_iff, orb_false_iff in Hfound as [_ Hd].
    apply bool_decide_eq_false_1 in Hd. apply Hd. fold fullDirPath in Hitems.
    rewrite Hitems. eauto.
  - rewrite findPngFiles_run.
    destruct (dirs w !! fullDirPath) as [items |] eqn:Hitems.
    + destruct (countFiles_settle (pngFilesIn fullDirPath items) t w)
        as (t' & w' & evs & -> & Hfollows & Hall).
      cbn [final outcome fst snd]. split; [exact Hfollows |]. split; [| discriminate].
      intros _ _ items' Hitems'.
      destruct Hfollows as [Hshape _].
      assert (Hdirs : dirs w' = dirs w) by (unfold shape in Hshape; congruence).
      rewrite (shape_root _ _ Hshape) in *. fold fullDirPath in Hitems' |- *.
      rewrite Hdirs, Hitems in Hitems'. injection Hitems' as <-. exact Hall.
    + destruct (bool_decide _); cbn [final outcome fst snd].
      * split; [apply follows_refl |]. split; [discriminate | reflexivity].
      * split; [apply follows_refl |]. split; [| discriminate].
        exfalso. vm_compute in Hfound. discriminate Hfound.
Qed.

(** [scanDir] reads the totals only to add to them: what it does to the
    world does not depend on them. *)
Lemma scanDir_never_exits dir t w c : outcome (scanDir dir t w) <> Exit c.
Proof.
  destruct (scanDir_outcome dir t w) as (w' & evs & _ & [[t' ->] | [_ ->]]); discriminate.
Qed.

(** Whether a scan throws does not depend on the totals. *)
Lemma scanDir_throws dir t w e :
  outcome (scanDir dir t w) = Throw e -> forall t2, final (scanDir dir t2 w) = w.
Proof.
  intros Hthrow t2. rewrite scanDir_unfold in Hthrow |- *. cbv zeta in Hthrow |- *.
  destruct (negb _); [reflexivity |].
  rewrite findPngFiles_run in Hthrow |- *.
  destruct (dirs w !! path_join (PROJECT_ROOT w) dir) as [items |].
  - destruct (countFiles_settle (pngFilesIn (path_join (PROJECT_ROOT w) dir) items) t w)
      as (t' & w' & evs & E & _). rewrite E in Hthrow. discriminate Hthrow.
  - destruct (bool_decide _); reflexivity.
Qed.

Lemma scanDirs_follows dirs0 t w : follows w (final (for_of dirs0 scanDir t w)).
Proof.
  revert t w. induction dirs0 as [| dir dirs0 IH]; intros t w; cbn [for_of].
  - apply follows_refl.
  - rewrite final_bind.
    destruct (scanDir_follows dir t w) as (Hfollows & _ & _).
    destruct (outcome (scanDir dir t w)); [| exact Hfollows | exact Hfollows].
    eapply follows_trans; [exact Hfollows | apply IH].
Qed.

(** A second run over the directories, from the world the first run left,
    changes nothing. *)
Lemma scanDirs_twice dirs0 t w t2 :
  final (for_of dirs0 scanDir t2 (final (for_of dirs0 scanDir t w)))
  = final (for_of dirs0 scanDir t w).
Proof.
  revert t w t2. induction dirs0 as [| dir dirs0 IH]; intros t w t2; cbn [for_of].
  - reflexivity.
  - rewrite (final_bind (scanDir dir t) _ w).
    destruct (scanDir_follows dir t w) as (Hfollows & Hquiet & Hthrow).
    destruct (outcome (scanDir dir t w)) as [ta | c | e] eqn:Hout.
    + set (wa := final (scanDir dir t w)) in *.
      set (w1 := final (for_of dirs0 scanDir ta wa)).
      assert (Hq : quiet dir w1).
      { eapply quiet_follows; [apply scanDirs_follows | exact (Hquiet ta eq_refl)]. }
      rewrite final_bind, (scanDir_quiet dir t2 w1 Hq).
      destruct (outcome (scanDir dir t2 w1)); try reflexivity.
      apply IH.
    + exfalso. exact (scanDir_never_exits dir t w c Hout).
    + rewrite (Hthrow e eq_refl), final_bind, (scanDir_throws dir t w e Hout t2).
      destruct (outcome (scanDir dir t2 w)) as [tb | c | e'] eqn:Hout2; try reflexivity.
      exfalso.
      pose proof (scanDir_throws dir t w e Hout) as _.
      rewrite scanDir_unfold in Hout, Hout2. cbv zeta in Hout, Hout2.
      destruct (negb _); [discriminate Hout |].
      rewrite findPngFiles_run in Hout, Hout2.
      destruct (dirs w !! path_join (PROJECT_ROOT w) dir) as [items |].
      * destruct (countFiles_settle (pngFilesIn (path_join (PROJECT_ROOT w) dir) items) t w)
          as (t' & w' & evs & E & _). rewrite E in Hout. discriminate Hout.
      * destruct (bool_decide _); discriminate.
Qed.

Lemma main_final w :
  final (main w) =
    final (for_of ASSET_DIRS scanDir
             {| totalProcessed := 0; totalSkipped := 0; totalErrors := 0 |} w).
Proof.
  unfold main. rewrite final_bind. cbn [gets outcome final fst snd].
  rewrite final_bind. cbn [emit outcome final fst snd].
  rewrite final_bind.
  destruct (outcome (for_of ASSET_DIRS scanDir _ w)) as [t' | c | e]; try reflexivity.
  unfold bind, emit, exit. cbn. destruct (0 <? totalProcessed t'); reflexivity.
Qed.

Lemma script_final w : final (script w) = final (main w).
Proof. unfold script. destruct (main w) as [[[[] | c | e] w'] t]; reflexivity. Qed.

(** Running the whole script a second time changes nothing. *)
Lemma script_twice w : final (script (final (script w))) = final (script w).
Proof. rewrite !script_final, !main_final. apply scanDirs_twice. Qed.

(** C5: the file system after [processFile]. (a) A file whose text has the
    base64 header and decodes to bytes that do not start with the PNG
    signature 89 50 4E 47 0D 0A 1A 0A is rejected, "Decoded content is not a
    valid PNG", and nothing is written. (b) A file that starts with the PNG
    signature is not taken for base64 text: it is skipped, and nothing is
    written. (c) Running [processFile] a second time on any file changes
    nothing and writes nothing, and so does running the whole script a
    second time: twice is the same as once. *)
Theorem processFile_idempotent filePath w :
  (forall bytes,
      files w !! filePath = Some bytes ->
      startsWith (trim (toStringUtf8 bytes)) base64Header = true ->
      take 8 (decoded bytes) <> pngMagicBytes ->
      processFile filePath w = (Ret (skipped "Decoded content is not a valid PNG"), w, [])) /\
  (forall bytes,
      files w !! filePath = Some bytes ->
      take 8 bytes = pngMagicBytes ->
      processFile filePath w = (Ret (skipped "Not base64-encoded"), w, [])) /\
  final (processFile filePath (final (processFile filePath w))) = final (processFile filePath w) /\
  events (processFile filePath (final (processFile filePath w))) = [] /\
  final (script (final (script w))) = final (script w).
Proof.
  split; [| split; [| split; [| split; [| apply script_twice]]]].
  - intros bytes Hfile Hstarts Hnot.
    rewrite processFile_run. unfold processFile_result. rewrite Hfile, Hstarts.
    rewrite (bool_decide_eq_false_2 _ Hnot). reflexivity.
  - intros bytes Hfile Hpng.
    rewrite processFile_run. unfold processFile_result.
    rewrite Hfile, (png_not_base64 _ Hpng). reflexivity.
  - rewrite !processFile_run.
    now destruct (settled_skipped _ _ (processFile_settles filePath w)) as [why ->].
  - rewrite !processFile_run.
    now destruct (settled_skipped _ _ (processFile_settles filePath w)) as [why ->].
Qed.

End ImageFixProperties.

(** *** The script on the sample project *)

Section ImageFixExamples.
Import ImageFix SampleAssets.

Lemma startsWith_app (s searchString : jsstring) :
  startsWith s searchString = true -> exists rest, s = searchString ++ rest.
Proof.
  revert s. induction searchString as [| p ps IH]; intros s Hs.
  - exists s. reflexivity.
  - destruct s as [| c cs]; [discriminate |]. cbn [startsWith] in Hs.
    apply andb_true_iff in Hs as [Hc Hcs]. apply Z.eqb_eq in Hc as ->.
    destruct (IH cs Hcs) as [rest ->]. exists rest. reflexivity.
Qed.

(** With Node's decoder the check of the signature cannot fail: the eleven
    characters of the header fix the first eight bytes. *)
Lemma header_decodes_to_signature (text : jsstring) :
  startsWith text base64Header = true ->
  take 8 (bufferFromBase64 (removeWhiteSpace text)) = pngMagicBytes.
Proof.
  intros Hstarts. destruct (startsWith_app _ _ Hstarts) as [rest ->].
  unfold removeWhiteSpace. rewrite filter_app.
  change (filter _ base64Header) with base64Header.
  cbn [bufferFromBase64 node].
  set (tail := filter _ rest).
  change (sextets (base64Header ++ tail))
    with ([34; 21; 1; 14; 17; 48; 52; 10; 6; 32; 40] ++ sextets tail).
  destruct (sextets tail) as [| x xs]; reflexivity.
Qed.

(** The rejection needs a decoder that does not give the signature back.
    With the strict one the eleven characters of [notes.txt] decode to
    nothing: the file is rejected, and kept as it is. *)
Example processFile_rejects_undecodable :
  outcome (@processFile strictNode "/site/public/assets/notes.txt" project)
    = Ret (skipped "Decoded content is not a valid PNG") /\
  events (@processFile strictNode "/site/public/assets/notes.txt" project) = [] /\
  files (final (@processFile strictNode "/site/public/assets/notes.txt" project))
    !! "/site/public/assets/notes.txt" = Some (bytesOf "iVBORw0KGgo").
Proof. split; [| split]; vm_compute; reflexivity. Qed.

(** [logo.png] holds base64 text: the first run writes the image, the second
    one leaves it alone. [photo.png] is an image already: it is skipped. *)
Lemma processFile_idempotent_witness :
  files (final (processFile "/site/public/assets/logo.png" project))
    !! "/site/public/assets/logo.png" = Some pixelPng /\
  final (processFile "/site/public/assets/logo.png"
           (final (processFile "/site/public/assets/logo.png" project)))
    = final (processFile "/site/public/assets/logo.png" project) /\
  processFile "/site/public/assets/photo.png" project
    = (Ret (skipped "Not base64-encoded"), project, []).
Proof.
  destruct (processFile_idempotent "/site/public/assets/logo.png" project)
    as (_ & _ & Hsame & _).
  destruct (processFile_idempotent "/site/public/assets/photo.png" project)
    as (_ & Hpng & _).
  split; [vm_compute; reflexivity |]. split; [exact Hsame |].
  apply (Hpng pixelPng); vm_compute; reflexivity.
Defined.

Lemma project_scannable : forall dir, dir ∈ ASSET_DIRS -> scannable dir project.
Proof.
  intros dir Hdir. unfold ASSET_DIRS in Hdir.
  repeat (apply elem_of_cons in Hdir as [-> | Hdir]);
    [| | | now apply elem_of_nil in Hdir];
    intros [bytes Hfile]; vm_compute in Hfile; discriminate Hfile.
Qed.

(** One image fixed, one skipped, one that could not be written, one asset
    directory missing: exit code 0. *)
Lemma script_exits_zero_witness :
  outcome (script project) = Exit 0 /\
  events (script project) =
    [ ConsoleLog ("🔍 Scanning for base64-encoded PNG images in: /site" +:+ nl);
      ConsoleLog "📁 Checking: public/assets";
      WriteFile "/site/public/assets/logo.png";
      ConsoleLog "  ✅ Decoded: logo.png (0.07 KB)";
      ConsoleLog "  ❌ Error: locked.png - EACCES";
      ConsoleLog "⚠️  Directory not found: src/assets";
      ConsoleLog "📁 Checking: build/assets";
      ConsoleLog (nl +:+ "📊 Summary:");
      ConsoleLog "   ✅ Decoded: 1";
      ConsoleLog "   ⏭️  Skipped (already binary): 1";
      ConsoleLog "   ❌ Errors: 1";
      ConsoleLog (nl +:+ "✨ Successfully decoded 1 image(s)!") ].
Proof.
  destruct (script_exits_zero project) as (Hexit & _).
  split; [exact (Hexit project_scannable) |].
  vm_compute. reflexivity.
Defined.

(** Nothing fixed at all, and an error: still exit code 0. *)
Example script_second_run :
  outcome (script (final (script project))) = Exit 0 /\
  events (script (final (script project))) =
    [ ConsoleLog ("🔍 Scanning for base64-encoded PNG images in: /site" +:+ nl);
      ConsoleLog "📁 Checking: public/assets";
      ConsoleLog "  ❌ Error: locked.png - EACCES";
      ConsoleLog "⚠️  Directory not found: src/assets";
      ConsoleLog "📁 Checking: build/assets";
      ConsoleLog (nl +:+ "📊 Summary:");
      ConsoleLog "   ✅ Decoded: 0";
      ConsoleLog "   ⏭️  Skipped (already binary): 2";
      ConsoleLog "   ❌ Errors: 1";
      ConsoleLog (nl +:+ "✨ No base64-encoded images found. All images are already binary.") ].
Proof. split; vm_compute; reflexivity. Qed.

(** An asset path that is a file: [readdirSync] throws, and Node ends the
    process with exit code 1. *)
Example script_asset_path_is_file :
  outcome (script {| argv2 := Some "/site"; cwd := "/";
                     files := {[ "/site/public/assets" := [] ]};
                     dirs := ∅; readOnly := ∅ |}) = Exit 1.
Proof. vm_compute. reflexivity. Qed.

End ImageFixExamples.


(** * Further properties *)

(** ** The PDF export script *)

Section PdfExportFurther.
Import PdfExport.
Context `{Runtime}.

Local Abbreviation Eff := (M World Event).

Lemma outward_app t1 t2 : outward (t1 ++ t2) = outward t1 ++ outward t2.
Proof. apply filter_app. Qed.

Lemma total_landsIn {A} c (m : Eff A) P : total m P -> landsIn c m (fun a _ t => P a t).
Proof.
  intros Hm w Hc. destruct (Hm w) as (a & w' & t & E & C & HP).
  exists a, w', t. split; [exact E |]. split; [congruence | exact HP].
Qed.

Lemma landsIn_bind {A B} c (m : Eff A) (f : A -> Eff B)
    (P : A -> World -> list Event -> Prop) (Q : A -> B -> World -> list Event -> Prop)
    (R : B -> World -> list Event -> Prop) :
  landsIn c m P ->
  (forall a, landsIn c (f a) (Q a)) ->
  (forall a w1 t1 b w2 t2, P a w1 t1 -> Q a b w2 t2 -> R b w2 (t1 ++ t2)) ->
  landsIn c (bind m f) R.
Proof.
  intros Hm Hf HR w Hc.
  destruct (Hm w Hc) as (a & w1 & t1 & E1 & C1 & P1).
  destruct (Hf a w1 C1) as (b & w2 & t2 & E2 & C2 & Q2).
  exists b, w2, (t1 ++ t2). split; [| split].
  - rewrite (bind_ret_run _ _ _ _ _ _ E1), E2. reflexivity.
  - exact C2.
  - eauto.
Qed.

Lemma landsIn_weaken {A} c (m : Eff A) (P Q : A -> World -> list Event -> Prop) :
  landsIn c m P -> (forall a w t, P a w t -> Q a w t) -> landsIn c m Q.
Proof.
  intros Hm HPQ w Hc. destruct (Hm w Hc) as (a & w' & t & E & C & HP).
  exists a, w', t. auto.
Qed.

(** The rule of [for ... of]: an invariant of the elements gone through, the
    local variables and the trace so far. *)
Lemma landsIn_for_of {X S} c (body : X -> S -> Eff S)
    (I : list X -> S -> list Event -> Prop) (xs : list X) :
  (forall done x s t, I done s t ->
     landsIn c (body x s) (fun s' _ t' => I (done ++ [x]) s' (t ++ t'))) ->
  forall done s t0, I done s t0 ->
    landsIn c (for_of xs body s) (fun s' _ t => I (done ++ xs) s' (t0 ++ t)).
Proof.
  intros Hbody. induction xs as [| x xs IH]; intros done s t0 HI w Hc.
  - exists s, w, []. rewrite !app_nil_r. auto.
  - cbn [for_of].
    destruct (Hbody done x s t0 HI w Hc) as (s1 & w1 & t1 & E1 & C1 & I1).
    destruct (IH (done ++ [x]) s1 (t0 ++ t1) I1 w1 C1) as (s2 & w2 & t2 & E2 & C2 & I2).
    exists s2, w2, (t1 ++ t2). rewrite (bind_ret_run _ _ _ _ _ _ E1), E2.
    split; [reflexivity | split; [exact C2 |]].
    rewrite app_assoc, (cons_middle x done xs), app_assoc. exact I2.
Qed.

Lemma for_le_seqZ {S} lo hi (body : Z -> S -> Eff S) s w :
  for_le lo hi body s w = for_of (seqZ lo (hi + 1 - lo)) body s w.
Proof.
  remember (Z.to_nat (hi + 1 - lo)) as n eqn:Hn. revert lo Hn s w.
  induction n as [| n IH]; intros lo Hn s w.
  - rewrite for_le_done by lia. rewrite seqZ_nil by lia. reflexivity.
  - rewrite for_le_unroll by lia. rewrite seqZ_cons by lia. cbn [for_of].
    unfold bind. destruct (body lo s w) as [[[s1 | c | e] w1] t1]; try reflexivity.
    rewrite (IH (lo + 1)) by lia.
    replace (Z.pred (hi + 1 - lo)) with (hi + 1 - (lo + 1)) by lia. reflexivity.
Qed.

(** *** Exact traces of the page functions *)

Lemma hideUIElements_trace config :
  total (hideUIElements config) (fun _ t => t = Evaluate :: settle config 300).
Proof.
  intros w. unfold hideUIElements, evaluateUpdate.
  rewrite (bind_ret_run _ _ w tt _ [Evaluate]) by reflexivity.
  rewrite waitForAnimation_run. eexists _, _, _.
  split; [reflexivity |]. split; reflexivity.
Qed.

Lemma navigateSubSlide_trace direction config :
  total (navigateSubSlide direction config)
        (fun _ t => t = KeyPress match direction with down => ArrowDown | up => ArrowUp end
                        :: settle config (subSlideTransitionWaitTime config)).
Proof.
  intros w. unfold navigateSubSlide, press.
  rewrite (bind_ret_run _ _ w tt _ [KeyPress _]) by reflexivity.
  rewrite waitForAnimation_run. eexists _, _, _.
  split; [reflexivity |]. split; reflexivity.
Qed.

Lemma waitForSlideContent_trace slideIndex config :
  total (waitForSlideContent slideIndex config)
        (fun _ t => t = contentWaits slideIndex config).
Proof.
  unfold waitForSlideContent, contentWaits.
  eapply total_bind with
    (P := fun _ t => t = [WaitForSelector (mainContent (selectors config)) true 5000])
    (Q := fun _ _ t =>
            t = match (specialSlides config ≫= (fun m => m !! pretty slideIndex))
                      ≫= typewriterEffect with
                | Some true =>
                    let waitTime :=
                      or_default ((specialSlides config ≫= (fun m => m !! pretty slideIndex))
                                    ≫= typewriterWaitTime) 3000 in
                    [WaitForFunction waitTime; Sleep waitTime]
                | _ => []
                end ++ settle config 1500).
  - intros w. unfold try_catch, waitForSelector, bind, emit, ret, throw. cbn.
    destruct (pageWaitForSelector _ _ _ _) as [[|] p]; cbn;
      eexists _, _, _; (split; [reflexivity |]); split; reflexivity.
  - intros _.
    eapply total_bind with
      (P := fun _ t => t = match (specialSlides config ≫= (fun m => m !! pretty slideIndex))
                                 ≫= typewriterEffect with
                           | Some true =>
                               let waitTime :=
                                 or_default ((specialSlides config ≫= (fun m => m !! pretty slideIndex))
                                               ≫= typewriterWaitTime) 3000 in
                               [WaitForFunction waitTime; Sleep waitTime]
                           | _ => []
                           end)
      (Q := fun _ _ t => t = settle config 1500).
    + destruct (_ ≫= typewriterEffect) as [[|] |]; try (apply total_ret; reflexivity).
      intros w. cbv zeta. unfold try_catch, waitForFunction, sleep, bind, emit, modify, ret, throw.
      cbn. destruct (pageWaitForFunction _ _ _) as [[|] p]; cbn;
        eexists _, _, _; (split; [reflexivity |]); split; reflexivity.
    + intros _. apply total_waitForAnimation.
    + intros _ t1 _ t2 H1 H2. exact (f_equal2 app H1 H2).
  - cbv beta. intros _ t1 _ t2 -> ->. reflexivity.
Qed.

Lemma takeScreenshot_trace filename slideIndex config :
  total (takeScreenshot filename slideIndex config)
        (fun _ t => t = SetViewport (width (viewport config)) (height (viewport config))
                        :: contentWaits slideIndex config ++ [Screenshot]).
Proof.
  unfold takeScreenshot.
  eapply total_bind with
    (P := fun _ t => t = [SetViewport (width (viewport config)) (height (viewport config))])
    (Q := fun _ _ t => t = contentWaits slideIndex config ++ [Screenshot]).
  - intros w. eexists _, _, _. split; [reflexivity |]. split; reflexivity.
  - intros _.
    eapply total_bind with (P := fun _ t => t = contentWaits slideIndex config)
                           (Q := fun _ _ t => t = [Screenshot]).
    + apply waitForSlideContent_trace.
    + intros _ w. eexists _, _, _. split; [reflexivity |]. split; reflexivity.
    + intros _ t1 _ t2 -> ->. reflexivity.
  - intros _ t1 _ t2 -> ->. reflexivity.
Qed.

(** *** What the export loop writes *)

Lemma outward_settle config delay : outward (settle config delay) = [].
Proof. reflexivity. Qed.

Lemma outward_contentWaits slideIndex config : outward (contentWaits slideIndex config) = [].
Proof.
  unfold contentWaits. cbv zeta.
  destruct (_ ≫= typewriterEffect) as [[|] |]; reflexivity.
Qed.

Lemma grown_nil dir l : grown dir [] l l.
Proof.
  exists []. cbn. rewrite !app_nil_r. split; [reflexivity |]. split; [reflexivity |].
  split; [reflexivity | lia].
Qed.

Lemma grown_app dir names1 names2 l1 l2 l3 :
  grown dir names1 l1 l2 -> grown dir names2 l2 l3 -> grown dir (names1 ++ names2) l1 l3.
Proof.
  intros (s1 & L1 & P1 & F1 & T1) (s2 & L2 & P2 & F2 & T2).
  exists (s1 ++ s2). split; [| split; [| split]].
  - rewrite !length_app. lia.
  - rewrite P2, P1, bind_app, app_assoc. reflexivity.
  - rewrite F2, F1, fmap_app, app_assoc. reflexivity.
  - rewrite T2, T1, length_app. lia.
Qed.

(** One page: one screenshot, written under its name in the screenshots
    directory, and one page more in the merged document. *)
Lemma landsIn_exportPage c filename slideIndex config l :
  landsIn c (exportPage filename slideIndex config l)
    (fun l' _ t => grown (shotsDir c) [filename] l l' /\
                   outward t = [WriteFile (path_join (shotsDir c) filename)]).
Proof.
  unfold exportPage.
  eapply landsIn_bind with
    (P := fun _ _ t => outward t = [])
    (Q := fun _ l' _ t => grown (shotsDir c) [filename] l l' /\
                          outward t = [WriteFile (path_join (shotsDir c) filename)]).
  - eapply landsIn_weaken; [apply total_landsIn, hideUIElements_trace |].
    cbv beta. intros _ _ t ->. reflexivity.
  - intros _.
    eapply landsIn_bind with
      (P := fun dir _ t => dir = shotsDir c /\ t = [])
      (Q := fun dir l' _ t => grown dir [filename] l l' /\
                              outward t = [WriteFile (path_join dir filename)]).
    + intros w Hc. exists (SCREENSHOTS_DIR w), w, [].
      unfold SCREENSHOTS_DIR, OUTPUT_DIR, shotsDir, gets. rewrite Hc. repeat split.
    + intros dir.
      eapply landsIn_bind with
        (P := fun _ _ t => outward t = [])
        (Q := fun screenshot l' _ t =>
                l' = {| mergedPdf := mergedPdf l ++ convertImageToPDF screenshot;
                        screenshotFiles := screenshotFiles l ++ [path_join dir filename];
                        totalPages := totalPages l + 1 |} /\
                t = [WriteFile (path_join dir filename)]).
      * eapply landsIn_weaken; [apply total_landsIn, takeScreenshot_trace |].
        cbv beta. intros _ _ t ->.
        change (outward ([SetViewport (width (viewport config)) (height (viewport config))]
                         ++ contentWaits slideIndex config ++ [Screenshot]) = []).
        rewrite !outward_app, outward_contentWaits. reflexivity.
      * intros screenshot w Hc. eexists _, _, _. split; [reflexivity |]. auto.
      * cbv beta. intros screenshot _ t1 l' _ t2 H1 [-> ->]. split.
        -- exists [screenshot]. cbn. repeat split.
        -- rewrite outward_app, H1. reflexivity.
    + cbv beta. intros dir _ t1 l' _ t2 [-> ->] HQ. exact HQ.
  - cbv beta. intros _ _ t1 l' _ t2 H1 [HG H2]. split; [exact HG |].
    rewrite outward_app, H1, H2. reflexivity.
Qed.

Lemma landsIn_exportSubSlide c config slideIndex t0 startIndex subIndex l :
  landsIn c (exportSubSlide config slideIndex t0 startIndex subIndex l)
    (fun l' _ t =>
       grown (shotsDir c) [subSlideFile slideIndex t0 subIndex] l l' /\
       outward t = [WriteFile (path_join (shotsDir c) (subSlideFile slideIndex t0 subIndex))]).
Proof.
  unfold exportSubSlide.
  eapply landsIn_bind with
    (P := fun _ _ t => outward t = [])
    (Q := fun _ l' _ t =>
            grown (shotsDir c) [subSlideFile slideIndex t0 subIndex] l l' /\
            outward t = [WriteFile (path_join (shotsDir c) (subSlideFile slideIndex t0 subIndex))]).
  - destruct (startIndex <? subIndex).
    + eapply landsIn_weaken; [apply total_landsIn, (navigateSubSlide_trace down) |].
      cbv beta. intros _ _ t ->. reflexivity.
    + apply total_landsIn, total_ret. reflexivity.
  - intros _.
    eapply landsIn_bind with
      (P := fun l' _ t =>
              grown (shotsDir c) [subSlideFile slideIndex t0 subIndex] l l' /\
              outward t = [WriteFile (path_join (shotsDir c) (subSlideFile slideIndex t0 subIndex))])
      (Q := fun l1 l' _ t => outward t = [] /\ l' = l1).
    + apply landsIn_exportPage.
    + intros l1 w Hc. eexists _, _, _. split; [reflexivity |]. auto.
    + cbv beta. intros l1 _ t1 l' _ t2 [HG H1] [H2 ->]. split; [exact HG |].
      rewrite outward_app, H1, H2. reflexivity.
  - cbv beta. intros _ _ t1 l' _ t2 H1 [HG H2]. split; [exact HG |].
    rewrite outward_app, H1, H2. reflexivity.
Qed.

Lemma landsIn_resetSubSlides c config t0 endIndex :
  landsIn c (resetSubSlides config t0 endIndex) (fun _ _ t => outward t = []).
Proof.
  destruct t0; cbn [resetSubSlides].
  - intros w Hc. rewrite for_lt_seqZ. revert w Hc.
    eapply landsIn_weaken.
    + apply (landsIn_for_of c (fun i u => navigateSubSlide up config)
               (fun _ _ t => outward t = [])) with (done := []) (t0 := []); [| reflexivity].
      intros done i u t Ht.
      eapply landsIn_weaken; [apply total_landsIn, (navigateSubSlide_trace up) |].
      cbv beta. intros _ _ t' ->. rewrite outward_app, Ht. reflexivity.
    + cbv beta. auto.
  - eapply landsIn_weaken; [apply total_landsIn, (navigateSubSlide_trace down) |].
    cbv beta. intros _ _ t ->. reflexivity.
Qed.

Lemma landsIn_exportSubSlides c config slideIndex subSlideConfig l :
  let names := subSlideFile slideIndex (type subSlideConfig) <$>
               seqZ (firstState (type subSlideConfig))
                    (max subSlideConfig + 1 - firstState (type subSlideConfig)) in
  landsIn c (exportSubSlides config slideIndex subSlideConfig l)
    (fun l' _ t => grown (shotsDir c) names l l' /\
                   outward t = WriteFile <$> (path_join (shotsDir c) <$> names)).
Proof.
  cbv zeta. unfold exportSubSlides.
  set (t0 := type subSlideConfig). set (m := max subSlideConfig).
  replace (match t0 with subSlide => m | step => m end) with m by now destruct t0.
  change (match t0 with subSlide => 0 | step => 1 end) with (firstState t0).
  set (start := firstState t0).
  set (names := subSlideFile slideIndex t0 <$> seqZ start (m + 1 - start)).
  eapply landsIn_bind with
    (P := fun _ _ t => outward t = [])
    (Q := fun _ l' _ t => grown (shotsDir c) names l l' /\
                          outward t = WriteFile <$> (path_join (shotsDir c) <$> names)).
  - intros w Hc. eexists _, _, _. split; [reflexivity |]. auto.
  - intros _.
    eapply landsIn_bind with
      (P := fun l' _ t => grown (shotsDir c) names l l' /\
                          outward t = WriteFile <$> (path_join (shotsDir c) <$> names))
      (Q := fun l1 l' _ t => outward t = [] /\ l' = l1).
    + intros w Hc. rewrite for_le_seqZ. revert w Hc.
      eapply landsIn_weaken.
      * apply (landsIn_for_of c (exportSubSlide config slideIndex t0 start)
                 (fun done l' t =>
                    grown (shotsDir c) (subSlideFile slideIndex t0 <$> done) l l' /\
                    outward t = WriteFile <$> (path_join (shotsDir c) <$>
                                                 (subSlideFile slideIndex t0 <$> done))))
          with (done := []) (t0 := []); [| split; [apply grown_nil | reflexivity]].
        intros done i l1 t [HG Ht].
        eapply landsIn_weaken; [apply landsIn_exportSubSlide |].
        cbv beta. intros l2 _ t' [HG' Ht']. split.
        -- rewrite fmap_app. eapply grown_app; eassumption.
        -- rewrite outward_app, Ht, Ht', !fmap_app. reflexivity.
      * cbv beta. intros l' _ t H1. exact H1.
    + intros l1.
      eapply landsIn_bind with (P := fun _ _ t => outward t = [])
                               (Q := fun _ l' _ t => t = [] /\ l' = l1).
      * apply landsIn_resetSubSlides.
      * intros _ w Hc. eexists _, _, _. split; [reflexivity |]. auto.
      * cbv beta. intros _ _ t1 l' _ t2 H1 [-> ->]. rewrite app_nil_r. auto.
    + cbv beta. intros l1 _ t1 l' _ t2 [HG H1] [H2 ->]. split; [exact HG |].
      rewrite outward_app, H1, H2, app_nil_r. reflexivity.
  - cbv beta. intros _ _ t1 l' _ t2 H1 [HG H2]. split; [exact HG |].
    rewrite outward_app, H1, H2. reflexivity.
Qed.

Lemma outward_key_waits key config delay n :
  outward (concat (repeat (KeyPress key :: settle config delay) n)) = [].
Proof.
  induction n as [| n IH]; [reflexivity |].
  cbn [repeat concat]. rewrite outward_app, IH. reflexivity.
Qed.

(** What [navigateToSlide] does whatever the progress bar says: it reads
    the page once, then presses one arrow key any number of times, waiting
    after each, or only waits. *)
Lemma navigateToSlide_trace slideIndex config :
  total (navigateToSlide slideIndex config)
        (fun _ t => t = Evaluate :: settle config 500 \/
                    exists key n,
                      t = Evaluate ::
                          concat (repeat (KeyPress key ::
                                            settle config (slideTransitionWaitTime config)) n)).
Proof.
  intros w.
  destruct (readCurrentSlide (progressBar (selectors config)) (document (page w)))
    as [A |] eqn:Hread.
  - destruct (navigateToSlide_run config A slideIndex w Hread) as (w' & E).
    assert (C : cwd w' = cwd w).
    { destruct (total_navigateToSlide slideIndex config w) as (a & w2 & t & E2 & C2 & _).
      rewrite E in E2. injection E2 as _ <- _. exact C2. }
    eexists tt, w', _. split; [exact E |]. split; [exact C |].
    destruct (slideIndex =? A); [left; reflexivity | right; eauto].
  - unfold navigateToSlide, evaluate.
    rewrite (bind_ret_run _ _ w None w [Evaluate]).
    2:{ unfold bind, emit, gets. cbn. rewrite Hread. reflexivity. }
    cbn [fmap option_fmap option_map]. rewrite waitForAnimation_run. cbn.
    eexists _, _, _. split; [reflexivity |]. split; [reflexivity |]. left. reflexivity.
Qed.

Lemma outward_navigateToSlide slideIndex config :
  total (navigateToSlide slideIndex config) (fun _ t => outward t = []).
Proof.
  eapply total_weaken; [apply navigateToSlide_trace |].
  cbv beta. intros _ t [-> | (key & n & ->)]; [reflexivity |].
  change (outward (Evaluate :: ?t)) with (outward t). apply outward_key_waits.
Qed.

Lemma landsIn_console c level text :
  landsIn c (console level text) (fun _ _ t => outward t = []).
Proof. intros w Hc. eexists _, _, _. split; [reflexivity |]. auto. Qed.

Lemma landsIn_exportSlide c config slideIndex l :
  landsIn c (exportSlide config slideIndex l)
    (fun l' _ t =>
       grown (shotsDir c) (screenshotNames config slideIndex) l l' /\
       outward t = WriteFile <$> (path_join (shotsDir c) <$> screenshotNames config slideIndex)).
Proof.
  unfold exportSlide.
  set (names := screenshotNames config slideIndex).
  eapply landsIn_bind with
    (P := fun _ _ t => outward t = [])
    (Q := fun _ l' _ t => grown (shotsDir c) names l l' /\
                          outward t = WriteFile <$> (path_join (shotsDir c) <$> names)).
  - apply landsIn_console.
  - intros _.
    eapply landsIn_bind with
      (P := fun _ _ t => outward t = [])
      (Q := fun _ l' _ t => grown (shotsDir c) names l l' /\
                            outward t = WriteFile <$> (path_join (shotsDir c) <$> names)).
    + apply total_landsIn, outward_navigateToSlide.
    + intros _. subst names. unfold screenshotNames.
      destruct (slidesWithSubSlides config !! pretty slideIndex) as [subSlideConfig |].
      * apply landsIn_exportSubSlides.
      * eapply landsIn_bind with
          (P := fun l' _ t =>
                  grown (shotsDir c) [slideFile slideIndex] l l' /\
                  outward t = [WriteFile (path_join (shotsDir c) (slideFile slideIndex))])
          (Q := fun l1 l' _ t => outward t = [] /\ l' = l1).
        -- apply landsIn_exportPage.
        -- intros l1 w Hc. eexists _, _, _. split; [reflexivity |]. auto.
        -- cbv beta. intros l1 _ t1 l' _ t2 [HG H1] [H2 ->]. split; [exact HG |].
           rewrite outward_app, H1, H2. reflexivity.
    + cbv beta. intros _ _ t1 l' _ t2 H1 [HG H2]. split; [exact HG |].
      rewrite outward_app, H1. exact H2.
  - cbv beta. intros _ _ t1 l' _ t2 H1 [HG H2]. split; [exact HG |].
    rewrite outward_app, H1. exact H2.
Qed.

Lemma landsIn_exportSlides c config l :
  landsIn c (exportSlides config l)
    (fun l' _ t =>
       grown (shotsDir c) (allScreenshotNames config) l l' /\
       outward t = WriteFile <$> (path_join (shotsDir c) <$> allScreenshotNames config)).
Proof.
  unfold exportSlides, allScreenshotNames. intros w Hc. rewrite for_lt_seqZ, Z.sub_0_r.
  revert w Hc.
  apply (landsIn_for_of c (exportSlide config)
           (fun done l' t =>
              grown (shotsDir c) (done ≫= screenshotNames config) l l' /\
              outward t = WriteFile <$> (path_join (shotsDir c) <$>
                                           (done ≫= screenshotNames config))))
    with (done := []) (t0 := []); [| split; [apply grown_nil | reflexivity]].
  intros done i l1 t [HG Ht].
  eapply landsIn_weaken; [apply landsIn_exportSlide |].
  cbv beta. intros l2 _ t' [HG' Ht'].
  rewrite bind_app. cbn [mbind list_bind]. rewrite app_nil_r. split.
  - eapply grown_app; eassumption.
  - rewrite outward_app, Ht, Ht', !fmap_app. reflexivity.
Qed.


Lemma landsIn_quiet_then {A B} c (m : Eff A) (f : A -> Eff B)
    (R : B -> World -> list Event -> Prop) :
  landsIn c m (fun _ _ t => outward t = []) ->
  (forall a, landsIn c (f a) (fun b w' t => R b w' (outward t))) ->
  landsIn c (bind m f) (fun b w' t => R b w' (outward t)).
Proof.
  intros Hm Hf.
  eapply landsIn_bind with (Q := fun _ b w' t => R b w' (outward t)); [exact Hm | exact Hf |].
  cbv beta. intros _ _ t1 b w2 t2 H1 H2. rewrite outward_app, H1. exact H2.
Qed.

Lemma landsIn_exportBody c config :
  landsIn c (exportBody config)
    (fun _ w' t =>
       exists l,
         outward t = Goto (devServerUrl config) 30000 ::
                     (WriteFile <$> (path_join (shotsDir c) <$> allScreenshotNames config))
                     ++ [WriteFile (outFile c)] /\
         grown (shotsDir c) (allScreenshotNames config) noPages l /\
         files w' !! outFile c = Some (Binary (save (mergedPdf l)))).
Proof.
  unfold exportBody.
  pose (R := fun (before : list Event) (_ : unit) (w' : World) (o : list Event) =>
               exists l,
                 o = before ++
                     (WriteFile <$> (path_join (shotsDir c) <$> allScreenshotNames config))
                     ++ [WriteFile (outFile c)] /\
                 grown (shotsDir c) (allScreenshotNames config) noPages l /\
                 files w' !! outFile c = Some (Binary (save (mergedPdf l)))).
  apply (landsIn_quiet_then c _ _ (R [Goto (devServerUrl config) 30000]));
    [apply landsIn_console | intros _].
  eapply landsIn_bind with
    (P := fun _ _ t => t = [Goto (devServerUrl config) 30000])
    (Q := fun _ b w' t => R [] b w' (outward t)).
  { intros w Hc. eexists _, _, _. split; [reflexivity |]. auto. }
  2:{ cbv beta. intros _ _ t1 b w2 t2 -> (l & Ho & HG & HF). exists l.
      rewrite outward_app, Ho. auto. }
  intros _.
  apply (landsIn_quiet_then c _ _ (R [])); [| intros _].
  { intros w Hc. unfold try_catch, waitForSelector, bind, emit, ret, throw, console. cbn.
    destruct (pageWaitForSelector _ _ _ _) as [[|] p]; cbn;
      eexists _, _, _; (split; [reflexivity |]); split; auto. }
  apply (landsIn_quiet_then c _ _ (R [])); [| intros _].
  { eapply landsIn_weaken; [apply total_landsIn, total_waitForAnimation |].
    cbv beta. intros _ _ t ->. reflexivity. }
  apply (landsIn_quiet_then c _ _ (R [])); [apply landsIn_console | intros _].
  subst R.
  eapply landsIn_bind with
    (P := fun l _ t =>
            grown (shotsDir c) (allScreenshotNames config) noPages l /\
            outward t = WriteFile <$> (path_join (shotsDir c) <$> allScreenshotNames config))
    (Q := fun l _ w' t =>
            outward t = [WriteFile (outFile c)] /\
            files w' !! outFile c = Some (Binary (save (mergedPdf l)))).
  - apply landsIn_exportSlides.
  - intros l w Hc. eexists _, _, _. split; [reflexivity |].
    split; [exact Hc |]. unfold OUTPUT_FILE, OUTPUT_DIR, outFile. rewrite Hc.
    split; [reflexivity |]. apply lookup_insert_eq.
  - cbv beta. intros l _ t1 _ w2 t2 [HG H1] [H2 HF]. exists l.
    rewrite outward_app, H1, H2. auto.
Qed.

(** From the launch of the browser to its closing. *)
Lemma landsIn_browser c config executablePath :
  landsIn c
    (emit (Launch executablePath 60000) ;;
     emit NewPage ;;
     emit (SetDefaultTimeout 60000) ;;
     emit (SetDefaultNavigationTimeout 60000) ;;
     setViewport (width (viewport config)) (height (viewport config)) ;;
     try_finally
       (try_catch
          (exportBody config)
          (fun error => consoleError "❌ Error during export:" error ;; throw error))
       (emit Close))
    (fun _ w' t => session c config [] w' t).
Proof.
  intros w Hc.
  remember (setPage (pageSetViewport (width (viewport config)) (height (viewport config))
                       (page w)) w) as w1 eqn:Hw1.
  assert (Hc1 : cwd w1 = c) by (subst w1; exact Hc).
  destruct (landsIn_exportBody c config w1 Hc1) as ([] & w' & tb & E & C & l & Ho & HG & HF).
  exists tt, w',
    (launching executablePath ++
     (SetViewport (width (viewport config)) (height (viewport config)) :: tb) ++ [Close]).
  split; [| split; [exact C |]].
  - revert E. generalize (exportBody config). intros body E.
    unfold bind, emit, setViewport, modify, try_finally, try_catch. cbn.
    rewrite <- Hw1, E. reflexivity.
  - exists [], executablePath,
      (SetViewport (width (viewport config)) (height (viewport config)) :: tb), l.
    split; [reflexivity |]. split; [constructor |]. split; [constructor |].
    split; [exact Ho |]. auto.
Qed.

(** A step before the launch: it acts on no page, and creates at most
    the directories [ms1]. *)
Lemma landsIn_before_launch {A} c config (m : Eff A) (f : A -> Eff unit) ms1 ms2 :
  landsIn c m (fun _ _ t => Forall (fun e => inPage e = false) t /\ sublist (outward t) ms1) ->
  (forall a, landsIn c (f a) (fun _ w' t => session c config ms2 w' t)) ->
  landsIn c (bind m f) (fun _ w' t => session c config (ms1 ++ ms2) w' t).
Proof.
  intros Hm Hf.
  eapply landsIn_bind with (Q := fun _ _ w' t => session c config ms2 w' t);
    [exact Hm | exact Hf |].
  cbv beta. intros _ _ t1 _ w2 t2 [Hpage Hms] (pre & exe & body & l & -> & Hpre & Hsub & Hrest).
  exists (t1 ++ pre), exe, body, l. split; [now rewrite <- app_assoc |].
  split; [apply Forall_app; auto |].
  split; [rewrite outward_app; apply sublist_app; assumption | exact Hrest].
Qed.

Lemma landsIn_ensureDir c path :
  landsIn c (ensureDir path)
    (fun _ _ t => Forall (fun e => inPage e = false) t /\ sublist (outward t) [Mkdir path]).
Proof.
  intros w Hc. unfold ensureDir, existsSync, mkdirSync, bind, gets, emit, modify, ret. cbn.
  destruct (_ || _); eexists _, _, _; (split; [reflexivity |]); (split; [exact Hc |]); cbn.
  - split; [constructor | apply sublist_nil_l].
  - split; [repeat constructor | reflexivity].
Qed.

Lemma landsIn_silent {A} c (m : Eff A) :
  landsIn c m (fun _ _ t => Forall (fun e => isConsole e = true) t) ->
  landsIn c m (fun _ _ t => Forall (fun e => inPage e = false) t /\ sublist (outward t) []).
Proof.
  intros Hm. eapply landsIn_weaken; [exact Hm |]. cbv beta. intros _ _ t Ht.
  induction Ht as [| e t He Ht [IH1 IH2]]; [split; constructor |].
  destruct e; try discriminate He; (split; [constructor; [reflexivity | exact IH1] | exact IH2]).
Qed.

Lemma landsIn_exportWithBrowser c config :
  landsIn c (exportWithBrowser config)
    (fun _ w' t => session c config [Mkdir (outDir c); Mkdir (shotsDir c)] w' t).
Proof.
  unfold exportWithBrowser.
  apply (landsIn_before_launch c config _ _ [] [Mkdir (outDir c); Mkdir (shotsDir c)]).
  { apply landsIn_silent. intros w Hc. eexists _, _, _. split; [reflexivity |].
    split; [exact Hc | repeat constructor]. }
  intros _.
  eapply landsIn_bind with
    (P := fun out _ t => out = outDir c /\ t = [])
    (Q := fun out _ w' t => session c config [Mkdir out; Mkdir (shotsDir c)] w' t).
  { intros w Hc. exists (OUTPUT_DIR w), w, []. unfold OUTPUT_DIR, outDir, gets. rewrite Hc.
    repeat split. }
  2:{ cbv beta. intros out _ t1 _ w2 t2 [-> ->] HQ. exact HQ. }
  intros out.
  apply (landsIn_before_launch c config _ _ [Mkdir out] [Mkdir (shotsDir c)]).
  { apply landsIn_ensureDir. }
  intros _.
  eapply landsIn_bind with
    (P := fun shots _ t => shots = shotsDir c /\ t = [])
    (Q := fun shots _ w' t => session c config [Mkdir shots] w' t).
  { intros w Hc. exists (SCREENSHOTS_DIR w), w, [].
    unfold SCREENSHOTS_DIR, OUTPUT_DIR, shotsDir, gets. rewrite Hc. repeat split. }
  2:{ cbv beta. intros shots _ t1 _ w2 t2 [-> ->] HQ. exact HQ. }
  intros shots.
  apply (landsIn_before_launch c config _ _ [Mkdir shots] []).
  { apply landsIn_ensureDir. }
  intros _.
  apply (landsIn_before_launch c config _ _ [] []).
  { apply landsIn_silent. intros w Hc. eexists _, _, _. split; [reflexivity |].
    split; [exact Hc | repeat constructor]. }
  intros _.
  apply (landsIn_before_launch c config _ _ [] []).
  { apply landsIn_silent. eapply landsIn_weaken;
      [apply total_landsIn, total_findChromeExecutable |].
    cbv beta. intros _ _ t ->. constructor. }
  intros executablePath.
  apply (landsIn_before_launch c config _ _ [] []).
  { apply landsIn_silent. destruct executablePath.
    - intros w Hc. eexists _, _, _. split; [reflexivity |]. split; [exact Hc | repeat constructor].
    - intros w Hc. eexists _, _, _. split; [reflexivity |]. split; [exact Hc | constructor]. }
  intros _. apply landsIn_browser.
Qed.

(** *** The run of a successful export

    The runs described here are those of the embedding: the browser, the
    file system and pdf-lib answer every call the script does not guard
    (the launch, the page load, the screenshots, the embedding of an image
    and the writes do not throw); a wait that times out is part of them. *)

Lemma export_session w raw config :
  outcome (loadConfig w) = Ret raw ->
  asExportConfig raw = Some config ->
  server w (devServerUrl config) = Response 200 ->
  exists w' t,
    exportPresentationToPDF w =
      (Ret tt, w',
       [ Console Log ("🚀 Starting PDF export (screenshot-based)..." +:+ nl);
         Console Log ("📋 Configuration loaded: " +:+ pretty (totalSlides config)
                      +:+ " slides" +:+ nl);
         Console Log "🔍 Checking if dev server is running...";
         HttpGet (devServerUrl config) 2000 ] ++ t) /\
    session (cwd w) config [Mkdir (outDir (cwd w)); Mkdir (shotsDir (cwd w))] w' t.
Proof.
  intros Hload Htyped Hserver.
  rewrite (exportPresentationToPDF_loaded w raw config Hload Htyped).
  rewrite exportWithConfig_probe by (rewrite Hserver; discriminate).
  rewrite Hserver. cbn [Z.eqb Pos.eqb]. cbv zeta.
  destruct (landsIn_exportWithBrowser (cwd w) config w eq_refl) as ([] & w' & t & E & _ & S).
  rewrite E. exists w', t. split; [reflexivity | exact S].
Qed.

Lemma filter_outward (p : Event -> bool) t :
  (forall e, p e = true -> inPage e || isConsole e = false) ->
  filter p (outward t) = filter p t.
Proof.
  intros Hp. unfold outward. rewrite list_filter_filter.
  apply list_filter_iff. intros e. split; [tauto |].
  intros He. split; [exact He |].
  rewrite (Hp e) by (now apply Is_true_eq_true). exact I.
Qed.

Lemma filter_none (p : Event -> bool) t :
  Forall (fun e => p e = false) t -> filter p t = [].
Proof.
  induction 1 as [| e t He _ IH]; [reflexivity |].
  rewrite filter_cons_False by (rewrite He; exact id). exact IH.
Qed.

Lemma filter_all (p : Event -> bool) t :
  Forall (fun e => p e = true) t -> filter p t = t.
Proof.
  induction 1 as [| e t He _ IH]; [reflexivity |].
  rewrite filter_cons_True by (rewrite He; exact I). now rewrite IH.
Qed.

(** The sub-list of a list without [p] holds no [p]. *)
Lemma sublist_filter_none (p : Event -> bool) t ms :
  sublist t ms -> filter p ms = [] -> filter p t = [].
Proof.
  intros Hsub Hms. apply filter_none, Forall_forall. intros e He.
  destruct (p e) eqn:Hpe; [| reflexivity].
  assert (Hin : e ∈ filter p ms).
  { apply list_elem_of_filter. split; [rewrite Hpe; exact I |].
    exact (elem_of_sublist _ _ _ He Hsub). }
  rewrite Hms in Hin. now apply elem_of_nil in Hin.
Qed.

(** X1: the files of an export: one PNG per page, then the document; nothing
    else is written. *)
Theorem export_writes_screenshots_then_pdf w raw config :
  outcome (loadConfig w) = Ret raw ->
  asExportConfig raw = Some config ->
  server w (devServerUrl config) = Response 200 ->
  filter isWriteFile (events (exportPresentationToPDF w)) =
    WriteFile <$> ((path_join (SCREENSHOTS_DIR w) <$> allScreenshotNames config)
                   ++ [OUTPUT_FILE w]).
Proof.
  intros Hload Htyped Hserver.
  destruct (export_session w raw config Hload Htyped Hserver)
    as (w' & t & -> & pre & exe & body & l & -> & Hpre & Hsub & Hbody & _).
  unfold events. cbn [snd]. rewrite !filter_app.
  rewrite <- (filter_outward isWriteFile pre) by (intros []; (discriminate || reflexivity)).
  rewrite (sublist_filter_none isWriteFile _ _ Hsub) by reflexivity.
  rewrite <- (filter_outward isWriteFile body) by (intros []; (discriminate || reflexivity)).
  rewrite Hbody. cbn [app]. rewrite (filter_cons_False _ (Goto _ _)) by exact id.
  change (filter isWriteFile [Close]) with (@nil Event). rewrite app_nil_r.
  change (filter isWriteFile _ ++ filter isWriteFile (launching exe) ++ ?x) with x.
  rewrite fmap_app. apply filter_all.
  apply Forall_app. split; [| repeat constructor].
  apply Forall_fmap, Forall_forall. intros p _. reflexivity.
Qed.



(** X3: one browser session: nothing is done in a page before the launch, the
    browser is launched once, and its closing is the last action of the
    export. *)
Theorem export_one_browser_session w raw config :
  outcome (loadConfig w) = Ret raw ->
  asExportConfig raw = Some config ->
  server w (devServerUrl config) = Response 200 ->
  exists before executablePath during,
    events (exportPresentationToPDF w) =
      before ++ launching executablePath ++ during ++ [Close] /\
    filter onPage before = [] /\
    filter onBrowserProcess before = [] /\
    filter onBrowserProcess during = [].
Proof.
  intros Hload Htyped Hserver.
  destruct (export_session w raw config Hload Htyped Hserver)
    as (w' & t & -> & pre & exe & body & l & -> & Hpre & Hsub & Hbody & _).
  eexists (_ ++ pre), exe, body. unfold events. cbn [snd].
  split; [now rewrite <- app_assoc |].
  split; [| split].
  - rewrite filter_app. cbn [app]. apply filter_none, Forall_forall.
    intros e He. unfold onPage.
    rewrite (proj1 (Forall_forall _ _) Hpre e He). cbn [orb].
    assert (Hnone : filter isGoto pre = []).
    { rewrite <- (filter_outward isGoto pre) by (intros []; (discriminate || reflexivity)).
      apply (sublist_filter_none isGoto _ _ Hsub). reflexivity. }
    destruct (isGoto e) eqn:Hg; [| reflexivity].
    assert (Hin : e ∈ filter isGoto pre) by (apply list_elem_of_filter; rewrite Hg; split; [exact I | exact He]).
    rewrite Hnone in Hin. inversion Hin.
  - rewrite filter_app.
    rewrite <- (filter_outward onBrowserProcess pre)
      by (intros []; (discriminate || reflexivity)).
    rewrite (sublist_filter_none onBrowserProcess _ _ Hsub) by reflexivity. reflexivity.
  - rewrite <- (filter_outward onBrowserProcess body)
      by (intros []; (discriminate || reflexivity)).
    rewrite Hbody. apply filter_none. constructor; [reflexivity |].
    apply Forall_app. split; [| repeat constructor].
    apply Forall_fmap, Forall_forall. intros p _. reflexivity.
Qed.

(** X17: the presentation is loaded once.  After the one [page.goto] of the
    configured address, with a timeout of 30 s, no other address is ever
    loaded: the slides are reached with keys only. *)
Theorem export_loads_page_once w raw config :
  outcome (loadConfig w) = Ret raw ->
  asExportConfig raw = Some config ->
  server w (devServerUrl config) = Response 200 ->
  filter isGoto (events (exportPresentationToPDF w)) = [Goto (devServerUrl config) 30000].
Proof.
  intros Hload Htyped Hserver.
  destruct (export_session w raw config Hload Htyped Hserver)
    as (w' & t & -> & pre & exe & body & l & -> & Hpre & Hsub & Hbody & _).
  unfold events. cbn [snd]. rewrite !filter_app.
  rewrite <- (filter_outward isGoto pre) by (intros []; (discriminate || reflexivity)).
  rewrite (sublist_filter_none isGoto _ _ Hsub) by reflexivity.
  rewrite <- (filter_outward isGoto body) by (intros []; (discriminate || reflexivity)).
  rewrite Hbody. cbn [app]. rewrite (filter_cons_True _ (Goto _ _)) by exact I.
  change (filter isGoto [Close]) with (@nil Event). rewrite app_nil_r.
  change (filter isGoto _ ++ filter isGoto (launching exe) ++ ?x) with x.
  f_equal. apply filter_none, Forall_app. split; [| repeat constructor].
  apply Forall_fmap, Forall_forall. intros p _. reflexivity.
Qed.

(** *** [findChromeExecutable] *)

Lemma firstExisting_from paths found w :
  for_of paths
    (fun chromePath found =>
       match found with
       | Some _ => ret found
       | None => there <- existsSync chromePath ;;
                 ret (if there : bool then Some chromePath else None)
       end) found w =
    (Ret (match found with
          | Some p => Some p
          | None => head (filter (fun p => pathExists w p) paths)
          end), w, []).
Proof.
  revert found. induction paths as [| p ps IH]; intros found; cbn [for_of].
  - destruct found; reflexivity.
  - destruct found as [q |].
    + rewrite (bind_ret_run _ _ w (Some q) w []) by reflexivity. rewrite IH. reflexivity.
    + rewrite (bind_ret_run _ _ w (if pathExists w p then Some p else None) w [])
        by reflexivity.
      rewrite IH, filter_cons. destruct (pathExists w p); reflexivity.
Qed.

Lemma firstExisting_run paths w :
  firstExisting paths w = (Ret (head (filter (fun p => pathExists w p) paths)), w, []).
Proof. apply (firstExisting_from paths None). Qed.

(** X8: [findChromeExecutable] looks at the file system only: it returns the
    first path of the platform's list at which something exists, and
    [undefined] when there is none; on a platform other than macOS and
    Windows the list is empty. *)
Theorem findChromeExecutable_first_existing w :
  findChromeExecutable w =
    (Ret (head (filter (fun p => pathExists w p) (chromePaths (platform w)))), w, []) /\
  (forall p, outcome (findChromeExecutable w) = Ret (Some p) ->
             pathExists w p = true /\ p ∈ chromePaths (platform w)) /\
  (platform w <> "darwin" -> platform w <> "win32" ->
   outcome (findChromeExecutable w) = Ret None).
Proof.
  assert (Hrun : findChromeExecutable w =
            (Ret (head (filter (fun p => pathExists w p) (chromePaths (platform w)))), w, [])).
  { unfold findChromeExecutable, chromePaths.
    rewrite (bind_ret_run _ _ w (platform w) w []) by reflexivity.
    destruct (String.eqb (platform w) "darwin"); [now rewrite firstExisting_run |].
    destruct (String.eqb (platform w) "win32"); [now rewrite firstExisting_run |].
    reflexivity. }
  split; [exact Hrun |]. rewrite Hrun. unfold outcome. cbn [fst]. split.
  - intros p [= Hp]. apply head_Some_elem_of, list_elem_of_filter in Hp as [Hp Hin].
    split; [now apply Is_true_eq_true | exact Hin].
  - intros Hmac Hwin. unfold chromePaths.
    rewrite (proj2 (String.eqb_neq _ _) Hmac), (proj2 (String.eqb_neq _ _) Hwin). reflexivity.
Qed.

(** *** [waitForSlideContent] *)

(** X6: [waitForSlideContent] always returns: a selector or a typewriter that
    does not show up in time only ends its wait.  For a slide marked with a
    typewriter effect it polls for the effect with the configured timeout,
    3000 ms when none (or 0) is configured, and then sleeps as long again;
    for every slide it ends with the wait for animations of 1500 ms. *)
Theorem waitForSlideContent_waits slideIndex config w :
  let specialSlide := specialSlides config ≫= (fun m => m !! pretty slideIndex) in
  let waitTime := or_default (specialSlide ≫= typewriterWaitTime) 3000 in
  let r := waitForSlideContent slideIndex config w in
  outcome r = Ret tt /\
  (specialSlide ≫= typewriterEffect = Some true ->
   events r = [ WaitForSelector (mainContent (selectors config)) true 5000;
                WaitForFunction waitTime; Sleep waitTime;
                Sleep 1500; WaitForFunction 3000 ]) /\
  (specialSlide ≫= typewriterEffect <> Some true ->
   events r = [ WaitForSelector (mainContent (selectors config)) true 5000;
                Sleep 1500; WaitForFunction 3000 ]).
Proof.
  cbv zeta.
  destruct (waitForSlideContent_trace slideIndex config w) as ([] & w' & t & -> & _ & ->).
  unfold outcome, events, contentWaits. cbn [fst snd]. cbv zeta.
  split; [reflexivity |]. split.
  - intros ->. reflexivity.
  - intros Hno. destruct (_ ≫= typewriterEffect) as [[|] |]; [congruence | |]; reflexivity.
Qed.

(** *** [navigateToSlide] when the progress bar cannot be read *)

(** X7: without a progress bar (or without its [aria-valuenow]) the current
    slide counts as the first one: the target index is the number of
    ArrowRight presses.  With a value that is not a number no key is
    pressed at all, whatever the target: the function only waits 500 ms. *)
Theorem navigateToSlide_unreadable_progress config (slideIndex : Z) w :
  let ariaValueNow :=
    querySelector (progressBar (selectors config)) (document (page w))
      ≫= getAttribute "aria-valuenow" in
  let r := navigateToSlide slideIndex config w in
  (ariaValueNow = None \/ ariaValueNow = Some "" ->
   keys (events r) =
     repeat (if 0 <? slideIndex then ArrowRight else ArrowLeft) (Z.abs_nat slideIndex)) /\
  (forall s, ariaValueNow = Some s -> s <> "" -> parseInt s = None ->
             outcome r = Ret tt /\ events r = [Evaluate; Sleep 500; WaitForFunction 3000]).
Proof.
  cbv zeta. split.
  - intros Hbar.
    assert (Hread : readCurrentSlide (progressBar (selectors config)) (document (page w))
                    = Some 0).
    { unfold readCurrentSlide. destruct Hbar as [-> | ->]; reflexivity. }
    destruct (navigateToSlide_run config 0 slideIndex w Hread) as (w' & ->).
    unfold events. cbn [snd]. change (keys (Evaluate :: ?t)) with (keys t).
    destruct (Z.eqb_spec slideIndex 0) as [-> | Hne]; [reflexivity |].
    rewrite keys_key_waits, Z.sub_0_r. reflexivity.
  - intros s Hbar Hs Hnan. unfold navigateToSlide, evaluate.
    rewrite (bind_ret_run _ _ w None w [Evaluate]).
    2:{ unfold bind, emit, gets, readCurrentSlide. cbn. rewrite Hbar.
        rewrite (proj2 (String.eqb_neq _ _) Hs), Hnan. reflexivity. }
    cbn [fmap option_fmap option_map]. rewrite waitForAnimation_run. split; reflexivity.
Qed.

(** *** [loadConfig] on JSON that is not an object *)

(** X9: a configuration file that holds valid JSON other than an object ends
    the process with exit code 1: [null] with the [TypeError] of reading
    its property, a number, a string, a boolean or an array as a
    configuration without its required fields. *)
Theorem loadConfig_rejects_non_object w text v :
  outcome (readFileSync (path_join (cwd w) "pdf-export.config.json") w) = Ret text ->
  JSON_parse text = Some v ->
  (forall members, v <> JObject members) ->
  outcome (loadConfig w) = Exit 1 /\
  events (loadConfig w) =
    [ConsoleError "❌ Failed to load configuration:"
                 match v with
                 | JNull => TypeError
                 | _ => Error "Invalid configuration: missing required fields"
                 end].
Proof.
  intros Hread Hparse Hv.
  rewrite (loadConfig_parsed w text v Hread Hparse).
  destruct v; try (split; reflexivity).
  exfalso. exact (Hv _ eq_refl).
Qed.

(** *** The exit code of the script *)

(** How an export ends, when the configuration it loads has the type of
    the interface: by returning after it wrote the document, where the
    configuration was loaded and the dev server answered 200; with an exit
    of code 1 or a [TypeError] elsewhere. *)
Lemma exportPresentationToPDF_cases w :
  (forall raw, outcome (loadConfig w) = Ret raw -> is_Some (asExportConfig raw)) ->
  let served := exists raw config,
                  outcome (loadConfig w) = Ret raw /\ asExportConfig raw = Some config /\
                  server w (devServerUrl config) = Response 200 in
  (served /\ outcome (exportPresentationToPDF w) = Ret tt /\
   exists doc : PDFDocument,
     files (final (exportPresentationToPDF w)) !! OUTPUT_FILE w = Some (Binary (save doc))) \/
  (~ served /\
   (outcome (exportPresentationToPDF w) = Exit 1 \/
    outcome (exportPresentationToPDF w) = Throw TypeError)).
Proof.
  intros Hwell. cbv zeta.
  destruct (loadConfig_cases w) as [[t E] | (text & raw & _ & _ & _ & _ & E)].
  - right. split.
    + intros (raw & config & Hload & _). rewrite E in Hload. discriminate Hload.
    + left. unfold exportPresentationToPDF. unfold bind at 1. unfold console at 1.
      unfold emit. cbv beta iota. unfold bind at 1. rewrite E. reflexivity.
  - assert (Hload : outcome (loadConfig w) = Ret raw) by now rewrite E.
    destruct (Hwell raw Hload) as [config Htyped].
    assert (Hone : forall raw' config',
              outcome (loadConfig w) = Ret raw' -> asExportConfig raw' = Some config' ->
              config' = config).
    { intros raw' config' Hload' Htyped'. rewrite Hload in Hload'.
      injection Hload' as <-. congruence. }
    rewrite (exportPresentationToPDF_loaded w raw config Hload Htyped).
    destruct (server w (devServerUrl config)) as [statusCode | | |] eqn:Hserver.
    + destruct (Z.eqb_spec statusCode 200) as [-> | Hne].
      * left. split; [exists raw, config; auto |].
        rewrite exportWithConfig_probe by (rewrite Hserver; discriminate).
        rewrite Hserver. cbn [Z.eqb Pos.eqb]. cbv zeta.
        destruct (landsIn_exportWithBrowser (cwd w) config w eq_refl)
          as ([] & w' & t & -> & _ & pre & exe & body & l & _ & _ & _ & _ & _ & Hfile).
        split; [reflexivity |]. exists (mergedPdf l). exact Hfile.
      * right. split.
        -- intros (raw' & config' & Hload' & Htyped' & Hserved).
           rewrite (Hone _ _ Hload' Htyped'), Hserver in Hserved. congruence.
        -- left. rewrite exportWithConfig_probe by (rewrite Hserver; discriminate).
           rewrite Hserver. apply Z.eqb_neq in Hne. rewrite Hne. reflexivity.
    + right. split.
      * intros (raw' & config' & Hload' & Htyped' & Hserved).
        rewrite (Hone _ _ Hload' Htyped'), Hserver in Hserved. discriminate Hserved.
      * left. rewrite exportWithConfig_probe by (rewrite Hserver; discriminate).
        rewrite Hserver. reflexivity.
    + right. split.
      * intros (raw' & config' & Hload' & Htyped' & Hserved).
        rewrite (Hone _ _ Hload' Htyped'), Hserver in Hserved. discriminate Hserved.
      * left. rewrite exportWithConfig_probe by (rewrite Hserver; discriminate).
        rewrite Hserver. reflexivity.
    + right. split.
      * intros (raw' & config' & Hload' & Htyped' & Hserved).
        rewrite (Hone _ _ Hload' Htyped'), Hserver in Hserved. discriminate Hserved.
      * right. rewrite (exportWithConfig_refused config w Hserver). reflexivity.
Qed.

(** X4: the exit code of the script, where the configuration it loads has the
    type of the interface: the script ends by [process.exit], with code 0
    or 1; with code 0 exactly when the configuration was loaded and the dev
    server answered 200, and then the output file holds a PDF of at least
    one page. *)
Theorem main_exit_code w :
  (forall raw, outcome (loadConfig w) = Ret raw -> is_Some (asExportConfig raw)) ->
  (outcome (main w) = Exit 0 \/ outcome (main w) = Exit 1) /\
  (outcome (main w) = Exit 0 <->
   exists raw config,
     outcome (loadConfig w) = Ret raw /\ asExportConfig raw = Some config /\
     server w (devServerUrl config) = Response 200) /\
  (outcome (main w) = Exit 0 ->
   exists bytes : Buffer,
     files (final (main w)) !! OUTPUT_FILE w = Some (Binary bytes) /\
     pdfPagesIn bytes <> []).
Proof.
  intros Hwell. rewrite main_unfold.
  destruct (exportPresentationToPDF_cases w Hwell)
    as [(Hserved & Hret & doc & Hfile) | (Hnot & [Hexit | Hthrow])];
    destruct (exportPresentationToPDF w) as [[o w'] t];
    cbn [outcome final fst snd] in *; subst o.
  - split; [now left |]. split; [tauto |]. intros _.
    exists (save doc). split; [exact Hfile |].
    rewrite pagesIn_save. now destruct doc.
  - split; [now right |]. split; [| discriminate].
    split; [discriminate | intros Hserved; now destruct Hnot].
  - split; [now right |]. split; [| discriminate].
    split; [discriminate | intros Hserved; now destruct Hnot].
Qed.


End PdfExportFurther.

(** *** The script on the sample deck, again *)

Section PdfExportFurtherExamples.
Import PdfExport IdealDeck.

(** The files of the sample deck: five screenshots, then the document. *)
Lemma export_writes_screenshots_then_pdf_witness :
  filter isWriteFile (events (exportPresentationToPDF (project sampleConfigText (Response 200) 0)))
  = [ WriteFile "/project/exports/screenshots/slide-1.png";
      WriteFile "/project/exports/screenshots/slide-2-subSlide-1.png";
      WriteFile "/project/exports/screenshots/slide-2-subSlide-2.png";
      WriteFile "/project/exports/screenshots/slide-2-subSlide-3.png";
      WriteFile "/project/exports/screenshots/slide-3.png";
      WriteFile "/project/exports/presentation.pdf" ].
Proof.
  rewrite (export_writes_screenshots_then_pdf (project sampleConfigText (Response 200) 0)
             sampleConfigJson sampleConfig).
  - vm_compute. reflexivity.
  - vm_compute. reflexivity.
  - exact sampleConfig_typed.
  - reflexivity.
Defined.


(** The five pages of the sample deck: the three slides, the second one in
    its three states, each page 1920 by 1080. *)
Example sample_pages :
  files (final (exportPresentationToPDF (project sampleConfigText (Response 200) 0)))
    !! "/project/exports/presentation.pdf"
  = Some (Binary (Pdf [ Some (1920, 1080, Png {| slide := 0; state := 0 |});
                        Some (1920, 1080, Png {| slide := 1; state := 0 |});
                        Some (1920, 1080, Png {| slide := 1; state := 1 |});
                        Some (1920, 1080, Png {| slide := 1; state := 2 |});
                        Some (1920, 1080, Png {| slide := 2; state := 0 |}) ])).
Proof. vm_compute. reflexivity. Qed.

Lemma export_one_browser_session_witness :
  exists before executablePath during,
    events (exportPresentationToPDF (project sampleConfigText (Response 200) 0)) =
      before ++ launching executablePath ++ during ++ [Close] /\
    filter onPage before = [] /\
    filter onBrowserProcess before = [] /\
    filter onBrowserProcess during = [].
Proof.
  apply (export_one_browser_session (project sampleConfigText (Response 200) 0)
           sampleConfigJson sampleConfig).
  - vm_compute. reflexivity.
  - exact sampleConfig_typed.
  - reflexivity.
Defined.

Lemma export_loads_page_once_witness :
  filter isGoto (events (exportPresentationToPDF (project sampleConfigText (Response 200) 0)))
  = [Goto "http://localhost:5173" 30000].
Proof.
  apply (export_loads_page_once (project sampleConfigText (Response 200) 0)
           sampleConfigJson sampleConfig).
  - vm_compute. reflexivity.
  - exact sampleConfig_typed.
  - reflexivity.
Defined.

Lemma main_exit_code_witness :
  outcome (main (project sampleConfigText (Response 200) 0)) = Exit 0 /\
  exists bytes : Buffer,
    files (final (main (project sampleConfigText (Response 200) 0)))
      !! "/project/exports/presentation.pdf" = Some (Binary bytes) /\
    pdfPagesIn bytes <> [].
Proof.
  destruct (main_exit_code (project sampleConfigText (Response 200) 0))
    as (_ & Hserved & Hdoc).
  - intros raw Hraw. vm_compute in Hraw. injection Hraw as <-.
    exists sampleConfig. exact sampleConfig_typed.
  - assert (Hexit : outcome (main (project sampleConfigText (Response 200) 0)) = Exit 0).
    { apply Hserved. exists sampleConfigJson, sampleConfig.
      split; [vm_compute; reflexivity |]. split; [exact sampleConfig_typed | reflexivity]. }
    split; [exact Hexit | exact (Hdoc Hexit)].
Defined.

(** The sample deck exported: exit code 0.  Without an answer of the dev
    server: exit code 1. *)
Example main_exit_code_of_sample :
  outcome (main (project sampleConfigText (Response 200) 0)) = Exit 0 /\
  outcome (main (project sampleConfigText NoAnswer 0)) = Exit 1 /\
  outcome (main (project "{ devServerUrl: " (Response 200) 0)) = Exit 1.
Proof. repeat split; vm_compute; reflexivity. Qed.

End PdfExportFurtherExamples.

(** *** The script where the page stands still *)

Section BareDeckExamples.
Import PdfExport BareDeck.

(** A file that holds [null], and one that holds an array. *)
Lemma loadConfig_rejects_non_object_witness :
  (outcome (loadConfig (project "null" "linux" [] None)) = Exit 1 /\
   events (loadConfig (project "null" "linux" [] None)) =
     [ConsoleError "❌ Failed to load configuration:" TypeError]) /\
  (outcome (loadConfig (project "[1, 2]" "linux" [] None)) = Exit 1 /\
   events (loadConfig (project "[1, 2]" "linux" [] None)) =
     [ConsoleError "❌ Failed to load configuration:"
                   (Error "Invalid configuration: missing required fields")]).
Proof.
  split.
  - apply (loadConfig_rejects_non_object (project "null" "linux" [] None) "null" JNull).
    + vm_compute. reflexivity.
    + reflexivity.
    + discriminate.
  - apply (loadConfig_rejects_non_object (project "[1, 2]" "linux" [] None) "[1, 2]"
             (JArray [JNumber 1; JNumber 2])).
    + vm_compute. reflexivity.
    + reflexivity.
    + discriminate.
Defined.

(** To the fourth slide of a page without progress bar: three times
    ArrowRight, wherever the presentation is.  With a progress bar that says
    "n/a": no key at all. *)
Lemma navigateToSlide_unreadable_progress_witness :
  keys (events (navigateToSlide 3 typewriterConfig (project "null" "linux" [] None)))
    = [ArrowRight; ArrowRight; ArrowRight] /\
  events (navigateToSlide 3 typewriterConfig (project "null" "linux" [] (Some "n/a")))
    = [Evaluate; Sleep 500; WaitForFunction 3000].
Proof.
  destruct (navigateToSlide_unreadable_progress typewriterConfig 3
              (project "null" "linux" [] None)) as [Hmissing _].
  destruct (navigateToSlide_unreadable_progress typewriterConfig 3
              (project "null" "linux" [] (Some "n/a"))) as [_ Hnan].
  split.
  - apply Hmissing. left. reflexivity.
  - apply (Hnan "n/a"); [reflexivity | discriminate | reflexivity].
Defined.

(** The second slide has a typewriter effect and no wait time: 3000 ms. *)
Lemma waitForSlideContent_waits_witness :
  events (waitForSlideContent 1 typewriterConfig (project "null" "linux" [] None))
    = [ WaitForSelector "main" true 5000; WaitForFunction 3000; Sleep 3000;
        Sleep 1500; WaitForFunction 3000 ] /\
  events (waitForSlideContent 0 typewriterConfig (project "null" "linux" [] None))
    = [ WaitForSelector "main" true 5000; Sleep 1500; WaitForFunction 3000 ].
Proof.
  destruct (waitForSlideContent_waits 1 typewriterConfig (project "null" "linux" [] None))
    as (_ & Htype & _).
  destruct (waitForSlideContent_waits 0 typewriterConfig (project "null" "linux" [] None))
    as (_ & _ & Hplain).
  split.
  - apply Htype. vm_compute. reflexivity.
  - apply Hplain. vm_compute. discriminate.
Defined.

(** On macOS with Chromium only: Chromium.  On Linux: nothing is looked
    for, even where Chrome is at the macOS path. *)
Lemma findChromeExecutable_first_existing_witness :
  outcome (findChromeExecutable
             (project "null" "darwin"
                ["/Applications/Chromium.app/Contents/MacOS/Chromium"] None))
    = Ret (Some "/Applications/Chromium.app/Contents/MacOS/Chromium") /\
  outcome (findChromeExecutable
             (project "null" "linux"
                ["/Applications/Google Chrome.app/Contents/MacOS/Google Chrome"] None))
    = Ret None.
Proof.
  split.
  - rewrite (proj1 (findChromeExecutable_first_existing _)). vm_compute. reflexivity.
  - apply (findChromeExecutable_first_existing _); discriminate.
Defined.

End BareDeckExamples.

(** ** The base64 image fixer *)

Section ImageFixFurther.
Import ImageFix.
Context `{Node}.

Local Abbreviation Eff := (M World Event).

(** *** White space *)

Lemma trimStart_app_cons (p : jsstring) c q :
  isWhiteSpace c = false -> trimStart (p ++ c :: q) = trimStart p ++ c :: q.
Proof.
  intros Hc. induction p as [| x p IH]; cbn [app trimStart].
  - now rewrite Hc.
  - destruct (isWhiteSpace x); [exact IH | reflexivity].
Qed.

Lemma trimEnd_app_cons (a : jsstring) c b :
  isWhiteSpace c = false -> trimEnd (a ++ c :: b) = a ++ c :: trimEnd b.
Proof.
  intros Hc. unfold trimEnd.
  replace (rev (a ++ c :: b)) with (rev b ++ c :: rev a)
    by (rewrite rev_app_distr; cbn [rev]; now rewrite <- app_assoc).
  rewrite (trimStart_app_cons _ c _ Hc), rev_app_distr. cbn [rev].
  rewrite rev_involutive, <- app_assoc. reflexivity.
Qed.

Lemma trimStart_suffix (s : jsstring) :
  exists ws, s = ws ++ trimStart s /\ Forall (fun c => isWhiteSpace c = true) ws.
Proof.
  induction s as [| c s (ws & E & Hws)]; cbn [trimStart].
  - exists []. split; [reflexivity | constructor].
  - destruct (isWhiteSpace c) eqn:Hc.
    + exists (c :: ws). split; [cbn; now rewrite <- E | now constructor].
    + exists []. split; [reflexivity | constructor].
Qed.

Lemma trimEnd_prefix (s : jsstring) :
  exists ws, s = trimEnd s ++ ws /\ Forall (fun c => isWhiteSpace c = true) ws.
Proof.
  destruct (trimStart_suffix (rev s)) as (ws & E & Hws).
  exists (rev ws). split.
  - unfold trimEnd. rewrite <- rev_app_distr, <- E, rev_involutive. reflexivity.
  - apply Forall_rev, Hws.
Qed.

Lemma startsWith_prefix (s searchString : jsstring) :
  startsWith s searchString = true <-> exists rest, s = searchString ++ rest.
Proof.
  split.
  - revert s. induction searchString as [| p ps IH]; intros s Hs.
    + exists s. reflexivity.
    + destruct s as [| c cs]; [discriminate |]. cbn [startsWith] in Hs.
      apply andb_true_iff in Hs as [Hc Hcs]. apply Z.eqb_eq in Hc as ->.
      destruct (IH cs Hcs) as [rest ->]. exists rest. reflexivity.
  - intros [rest ->]. induction searchString as [| p ps IH]; [now destruct rest |].
    cbn [app startsWith]. now rewrite Z.eqb_refl.
Qed.

(** What follows a header that ends in a character other than white space
    does not matter to [trim]: only the white space in front does. *)
Lemma startsWith_trim (s a : jsstring) c :
  isWhiteSpace c = false ->
  startsWith (trim s) (a ++ [c]) = startsWith (trimStart s) (a ++ [c]).
Proof.
  intros Hc. unfold trim. fold (trimEnd (trimStart s)).
  set (u := trimStart s).
  destruct (startsWith u (a ++ [c])) eqn:Hu.
  - apply startsWith_prefix in Hu as [rest ->]. rewrite <- app_assoc. cbn [app].
    rewrite (trimEnd_app_cons _ _ _ Hc). apply startsWith_prefix.
    exists (trimEnd rest). now rewrite <- app_assoc.
  - destruct (startsWith (trimEnd u) (a ++ [c])) eqn:Ht; [| reflexivity].
    apply startsWith_prefix in Ht as [rest Ht].
    destruct (trimEnd_prefix u) as (ws & E & _).
    assert (Hu' : startsWith u (a ++ [c]) = true).
    { apply startsWith_prefix. exists (rest ++ ws). rewrite E at 1. rewrite Ht.
      now rewrite <- app_assoc. }
    congruence.
Qed.

Lemma removeWhiteSpace_trimStart (s : jsstring) :
  removeWhiteSpace (trimStart s) = removeWhiteSpace s.
Proof.
  unfold removeWhiteSpace. induction s as [| c s IH]; [reflexivity |].
  cbn [trimStart]. destruct (isWhiteSpace c) eqn:Hc; [| reflexivity].
  rewrite filter_cons_False by (rewrite Hc; discriminate). exact IH.
Qed.

Lemma removeWhiteSpace_rev (s : jsstring) :
  removeWhiteSpace (rev s) = rev (removeWhiteSpace s).
Proof.
  unfold removeWhiteSpace. induction s as [| c s IH]; [reflexivity |].
  cbn [rev]. rewrite filter_app, IH, !filter_cons, filter_nil.
  destruct (decide (isWhiteSpace c = false)); [reflexivity | now rewrite app_nil_r].
Qed.

(** [trim] before [replace(/\s/g, '')] changes nothing. *)
Lemma removeWhiteSpace_trim (s : jsstring) :
  removeWhiteSpace (trim s) = removeWhiteSpace s.
Proof.
  unfold trim.
  rewrite removeWhiteSpace_rev, removeWhiteSpace_trimStart, removeWhiteSpace_rev,
    rev_involutive.
  apply removeWhiteSpace_trimStart.
Qed.

(** *** [isBase64Encoded] and [decodeBase64ToBuffer] *)

(** X10: [isBase64Encoded] never throws and changes nothing: a path that cannot
    be read gives [false]; a file gives whether its text, after the white
    space in front, starts with the header.  What follows the header, white
    space at the end included, does not matter. *)
Theorem isBase64Encoded_reads_header filePath w :
  isBase64Encoded filePath w =
    (Ret (match files w !! filePath with
          | Some bytes => startsWith (trimStart (toStringUtf8 bytes)) base64Header
          | None => false
          end), w, []).
Proof.
  unfold isBase64Encoded, try_catch, bind, readFileSync, ret.
  destruct (files w !! filePath) as [bytes |].
  - change base64Header with ([105; 86; 66; 79; 82; 119; 48; 75; 71; 103] ++ [111]).
    rewrite startsWith_trim by reflexivity. reflexivity.
  - destruct (bool_decide _); reflexivity.
Qed.

(** X11: [decodeBase64ToBuffer] never throws, and decodes the text without its
    white space: the [trim] before the [replace] is redundant, and white
    space anywhere in the text changes nothing. *)
Theorem decodeBase64ToBuffer_skips_white_space (base64String : jsstring) w :
  decodeBase64ToBuffer base64String w =
    (Ret (bufferFromBase64 (removeWhiteSpace base64String)), w, []) /\
  (forall a ws b,
      base64String = a ++ ws ++ b -> Forall (fun c => isWhiteSpace c = true) ws ->
      decodeBase64ToBuffer base64String w = decodeBase64ToBuffer (a ++ b) w).
Proof.
  assert (Hrun : forall s, decodeBase64ToBuffer s w =
                           (Ret (bufferFromBase64 (removeWhiteSpace s)), w, [])).
  { intros s. unfold decodeBase64ToBuffer, try_catch, ret.
    now rewrite removeWhiteSpace_trim. }
  split; [apply Hrun |].
  intros a ws b -> Hws. rewrite !Hrun. do 3 f_equal.
  unfold removeWhiteSpace. rewrite !filter_app. f_equal.
  replace (filter _ ws) with (@nil Z); [reflexivity |].
  induction Hws as [| c ws Hc _ IH]; [reflexivity |].
  rewrite filter_cons_False by (rewrite Hc; discriminate). exact IH.
Qed.

(** *** [findPngFiles] *)

Lemma substring_all (s : string) : String.substring 0 (String.length s) s = s.
Proof. induction s as [| c s IH]; [reflexivity |]. cbn. now rewrite IH. Qed.

Lemma substring_append (p q : string) :
  String.substring (String.length p) (String.length q) (p +:+ q) = q.
Proof. induction p as [| c p IH]; [apply substring_all | exact IH]. Qed.

Lemma length_append (p q : string) :
  String.length (p +:+ q) = (String.length p + String.length q)%nat.
Proof. induction p as [| c p IH]; [reflexivity |]. simpl. f_equal. exact IH. Qed.

Lemma substring_split (s : string) (i : nat) :
  (i <= String.length s)%nat ->
  s = String.substring 0 i s +:+ String.substring i (String.length s - i) s.
Proof.
  revert i. induction s as [| c s IH]; intros i Hi.
  - destruct i; [reflexivity | cbn in Hi; lia].
  - destruct i as [| i].
    + cbn [String.substring String.length Nat.sub String.append].
      now rewrite substring_all.
    + cbn in Hi. cbn [String.substring String.length Nat.sub].
      change (String c ?a +:+ ?b) with (String c (a +:+ b)).
      f_equal. apply IH. lia.
Qed.

(** [endsWith]: the name is some text followed by the suffix. *)
Lemma endsWith_suffix (s suffix : string) :
  endsWith s suffix = true <-> exists stem, s = stem +:+ suffix.
Proof.
  unfold endsWith. split.
  - intros Hends. apply andb_true_iff in Hends as [Hle Heq].
    apply Nat.leb_le in Hle. apply String.eqb_eq in Heq.
    remember (String.length suffix) as k eqn:Hk.
    exists (String.substring 0 (String.length s - k) s).
    rewrite <- Heq.
    pose proof (substring_split s (String.length s - k) ltac:(lia)) as Hsplit.
    replace (String.length s - (String.length s - k))%nat with k in Hsplit by lia.
    exact Hsplit.
  - intros [stem ->]. apply andb_true_iff. split.
    + apply Nat.leb_le. rewrite length_append. lia.
    + rewrite length_append.
      replace (String.length stem + String.length suffix - String.length suffix)%nat
        with (String.length stem) by lia.
      rewrite substring_append. apply String.eqb_refl.
Qed.

(** X12: [findPngFiles] reads one directory and changes nothing.  Of its
    entries it keeps, in their order, the regular files whose names end in
    [.png], in lower case only, and gives them with the path of the
    directory in front; it does not go into sub-directories.  Where there
    is nothing, it gives the empty list. *)
Theorem findPngFiles_lists_png_files dir w :
  (forall items, dirs w !! dir = Some items ->
     findPngFiles dir w = (Ret (pngFilesIn dir items), w, []) /\
     forall path, path ∈ pngFilesIn dir items <->
       exists item stem, item ∈ items /\ isFile item = true /\
                         name item = stem +:+ ".png" /\
                         path = path_join dir (name item)) /\
  (dirs w !! dir = None -> files w !! dir = None -> findPngFiles dir w = (Ret [], w, [])).
Proof.
  rewrite findPngFiles_run. split.
  - intros items ->. split; [reflexivity |]. intros path.
    unfold pngFilesIn. rewrite list_elem_of_omap. split.
    + intros (item & Hin & Hitem).
      destruct (isFile item) eqn:Hfile; [| discriminate].
      destruct (endsWith (name item) ".png") eqn:Hends; [| discriminate].
      apply endsWith_suffix in Hends as [stem Hstem].
      injection Hitem as <-. exists item, stem. auto.
    + intros (item & stem & Hin & Hfile & Hstem & ->). exists item. split; [exact Hin |].
      rewrite Hfile, (proj2 (endsWith_suffix _ _)) by eauto. reflexivity.
  - intros -> ->. rewrite bool_decide_eq_false_2 by (intros [x Hx]; discriminate).
    reflexivity.
Qed.

(** *** [processFile] *)

(** X13: the fix: a file that can be written, whose text has the base64 header
    and decodes to bytes with the PNG signature, holds those bytes
    afterwards; the result reports their number, and the file is written
    once. *)
Theorem processFile_decodes filePath w bytes :
  files w !! filePath = Some bytes ->
  startsWith (trim (toStringUtf8 bytes)) base64Header = true ->
  take 8 (decoded bytes) = pngMagicBytes ->
  filePath ∉ readOnly w ->
  processFile filePath w =
    (Ret {| processed := true; reason := None;
            size := Some (Z.of_nat (length (decoded bytes))) |},
     setFiles (<[filePath := decoded bytes]> (files w)) w,
     [WriteFile filePath]).
Proof.
  intros Hfile Hstarts Hpng Hrw. rewrite processFile_run. unfold processFile_result.
  rewrite Hfile, Hstarts, (bool_decide_eq_true_2 _ Hpng), (bool_decide_eq_false_2 _ Hrw).
  reflexivity.
Qed.

(** X14: [processFile] always returns, and touches no other file: it creates
    and deletes nothing, and what it changes, if anything, is the content of
    the file it was given. *)
Theorem processFile_touches_only_its_file filePath w :
  let r := processFile filePath w in
  (exists result, outcome r = Ret result) /\
  (forall other, other <> filePath -> files (final r) !! other = files w !! other) /\
  dom (files (final r)) = dom (files w) /\
  dirs (final r) = dirs w /\
  Forall (fun e => e = WriteFile filePath) (events r).
Proof.
  cbv zeta. rewrite processFile_run.
  split; [apply processFile_returns |].
  pose proof (processFile_shape filePath w) as Hshape.
  split; [| split; [| split]].
  - intros other Hother.
    destruct (processFile_world filePath w) as [-> | (png & _ & _ & ->)]; [reflexivity |].
    cbn [files setFiles]. now rewrite lookup_insert_ne.
  - unfold shape in Hshape. congruence.
  - unfold shape in Hshape. congruence.
  - unfold processFile_result.
    destruct (files w !! filePath) as [bytes |]; [| constructor].
    destruct (startsWith _ _); cbn [negb]; [| constructor].
    destruct (bool_decide (take 8 _ = _)); cbn [negb]; [| constructor].
    destruct (bool_decide (_ ∈ _)); repeat constructor.
Qed.

(** *** What a scan counts and writes *)

Lemma written_app t1 t2 : written (t1 ++ t2) = written t1 ++ written t2.
Proof. apply omap_app. Qed.

Lemma assetFilesIn_shape w w' dir : shape w' = shape w -> assetFilesIn w' dir = assetFilesIn w dir.
Proof.
  intros Hshape. unfold assetFilesIn. rewrite (shape_root _ _ Hshape).
  assert (Hdirs : dirs w' = dirs w) by (unfold shape in Hshape; congruence).
  now rewrite Hdirs.
Qed.

(** [processFile] writes its file when, and only when, it reports it as
    processed. *)
Lemma processFile_written file w :
  exists result w' evs,
    processFile_result file w = (Ret result, w', evs) /\ shape w' = shape w /\
    ((processed result = true /\ evs = [WriteFile file] /\ is_Some (files w !! file)) \/
     (processed result = false /\ evs = [])).
Proof.
  pose proof (processFile_shape file w) as Hshape. revert Hshape.
  unfold processFile_result.
  destruct (files w !! file) as [bytes |] eqn:Hfile.
  2:{ intros Hshape. eexists _, _, _. split; [reflexivity |]. split; [exact Hshape |].
      right. split; reflexivity. }
  destruct (startsWith _ _); cbn [negb].
  2:{ intros Hshape. eexists _, _, _. split; [reflexivity |]. split; [exact Hshape |].
      right. split; reflexivity. }
  destruct (bool_decide (take 8 _ = _)); cbn [negb].
  2:{ intros Hshape. eexists _, _, _. split; [reflexivity |]. split; [exact Hshape |].
      right. split; reflexivity. }
  destruct (bool_decide (_ ∈ _)).
  - intros Hshape. eexists _, _, _. split; [reflexivity |]. split; [exact Hshape |].
    right. split; reflexivity.
  - intros Hshape. eexists _, _, _. split; [reflexivity |]. split; [exact Hshape |].
    left. split; [reflexivity |]. split; [reflexivity | eauto].
Qed.

(** One file: counted once, and written at most once, if it was there. *)
Lemma countFile_counts file t w :
  exists t' w' evs,
    countFile file t w = (Ret t', w', evs) /\ shape w' = shape w /\
    counted t' = counted t + 1 /\
    totalProcessed t' = totalProcessed t + Z.of_nat (length (written evs)) /\
    totalSkipped t <= totalSkipped t' /\ totalErrors t <= totalErrors t' /\
    sublist (written evs) [file] /\
    Forall (fun path => is_Some (files w !! path)) (written evs).
Proof.
  destruct (processFile_written file w)
    as (result & w' & evs & E & S & [(Hp & -> & Hsome) | (Hp & ->)]);
    unfold countFile; unfold bind at 1; rewrite processFile_run, E, Hp.
  - eexists _, _, _. split; [reflexivity |]. unfold counted. cbn.
    split; [exact S |]. split; [lia |]. split; [lia |]. split; [lia |].
    split; [lia |]. split; [reflexivity | constructor; [exact Hsome | constructor]].
  - destruct (bool_decide _).
    + eexists _, _, _. split; [reflexivity |]. unfold counted. cbn.
      split; [exact S |]. split; [lia |]. split; [lia |]. split; [lia |].
      split; [lia |]. split; [apply sublist_nil_l | constructor].
    + eexists _, _, _. split; [reflexivity |]. unfold counted. cbn.
      split; [exact S |]. split; [lia |]. split; [lia |]. split; [lia |].
      split; [lia |]. split; [apply sublist_nil_l | constructor].
Qed.

Lemma countFiles_counts files0 t w :
  exists t' w' evs,
    for_of files0 countFile t w = (Ret t', w', evs) /\ shape w' = shape w /\
    counted t' = counted t + Z.of_nat (length files0) /\
    totalProcessed t' = totalProcessed t + Z.of_nat (length (written evs)) /\
    totalSkipped t <= totalSkipped t' /\ totalErrors t <= totalErrors t' /\
    sublist (written evs) files0 /\
    Forall (fun path => is_Some (files w !! path)) (written evs).
Proof.
  revert t w. induction files0 as [| file files0 IH]; intros t w; cbn [for_of].
  - exists t, w, []. split; [reflexivity |]. cbn.
    split; [reflexivity |]. split; [lia |]. split; [lia |]. split; [lia |].
    split; [lia |]. split; constructor.
  - destruct (countFile_counts file t w)
      as (t1 & w1 & e1 & E1 & S1 & C1 & P1 & K1 & R1 & W1 & F1).
    destruct (IH t1 w1) as (t2 & w2 & e2 & E2 & S2 & C2 & P2 & K2 & R2 & W2 & F2).
    exists t2, w2, (e1 ++ e2). rewrite (bind_ret_run _ _ _ _ _ _ E1), E2.
    split; [reflexivity |]. rewrite written_app, length_app.
    split; [congruence |]. split; [cbn [length]; lia |]. split; [lia |].
    split; [lia |]. split; [lia |]. split.
    + change (file :: files0) with ([file] ++ files0). apply sublist_app; assumption.
    + apply Forall_app. split; [exact F1 |].
      eapply Forall_impl; [exact F2 |]. cbv beta. intros path.
      apply (shape_is_file w w1 path S1).
Qed.

(** One directory.  Whatever the outcome, the files written are PNG files
    of the directory that were there; when the scan returns, each PNG file
    of the directory was counted once. *)
Lemma scanDir_counts dir t w :
  let r := scanDir dir t w in
  shape (final r) = shape w /\
  sublist (written (events r)) (assetFilesIn w dir) /\
  Forall (fun path => is_Some (files w !! path)) (written (events r)) /\
  (scannable dir w ->
   exists t', outcome r = Ret t' /\
     counted t' = counted t + Z.of_nat (length (assetFilesIn w dir)) /\
     totalProcessed t' = totalProcessed t + Z.of_nat (length (written (events r))) /\
     totalSkipped t <= totalSkipped t' /\ totalErrors t <= totalErrors t').
Proof.
  cbv zeta. rewrite scanDir_unfold. cbv zeta. unfold assetFilesIn, scannable.
  set (fullDirPath := path_join (PROJECT_ROOT w) dir).
  destruct (negb _) eqn:Hfound.
  - cbn [final events outcome fst snd written omap list_omap].
    apply negb_true_iff, orb_false_iff in Hfound as [_ Hd].
    apply bool_decide_eq_false_1 in Hd.
    destruct (dirs w !! fullDirPath) as [items |]; [exfalso; eauto |].
    split; [reflexivity |]. split; [constructor |]. split; [constructor |].
    intros _. exists t. cbn. repeat split; lia.
  - rewrite findPngFiles_run.
    destruct (dirs w !! fullDirPath) as [items |] eqn:Hdir.
    + destruct (countFiles_counts (pngFilesIn fullDirPath items) t w)
        as (t' & w' & evs & -> & S & C & P & K & R & W & F).
      cbn [final events outcome fst snd app]. change (written (ConsoleLog ?x :: ?l)) with (written l).
      split; [exact S |]. split; [exact W |]. split; [exact F |].
      intros _. exists t'. auto.
    + destruct (bool_decide (is_Some (files w !! fullDirPath))) eqn:Hfile.
      * cbn [final events outcome fst snd written omap list_omap].
        split; [reflexivity |]. split; [constructor |]. split; [constructor |].
        intros Hscan. apply bool_decide_eq_true_1, Hscan in Hfile.
        destruct Hfile; discriminate.
      * cbn [final events outcome fst snd written omap list_omap app].
        split; [reflexivity |]. split; [constructor |]. split; [constructor |].
        intros _. exists t. cbn. repeat split; lia.
Qed.

Lemma events_bind {A B} (m : Eff A) (f : A -> Eff B) w :
  events (bind m f w) =
    events (m w) ++ match outcome (m w) with
                    | Ret a => events (f a (final (m w)))
                    | _ => []
                    end.
Proof.
  unfold bind. destruct (m w) as [[[a | c | e] w1] t1]; cbn [outcome final events fst snd];
    [| now rewrite app_nil_r | now rewrite app_nil_r].
  destruct (f a w1) as [[r w2] t2]. reflexivity.
Qed.

Lemma outcome_bind {A B} (m : Eff A) (f : A -> Eff B) w :
  outcome (bind m f w) =
    match outcome (m w) with
    | Ret a => outcome (f a (final (m w)))
    | Exit c => Exit c
    | Throw e => Throw e
    end.
Proof.
  unfold bind. destruct (m w) as [[[a | c | e] w1] t1]; cbn [outcome final events fst snd];
    try reflexivity.
  destruct (f a w1) as [[r w2] t2]. reflexivity.
Qed.

(** The loop over the asset directories. *)
Lemma scanDirs_counts dirs0 t w :
  let r := for_of dirs0 scanDir t w in
  shape (final r) = shape w /\
  sublist (written (events r)) (dirs0 ≫= assetFilesIn w) /\
  Forall (fun path => is_Some (files w !! path)) (written (events r)) /\
  ((forall dir, dir ∈ dirs0 -> scannable dir w) ->
   exists t', outcome r = Ret t' /\
     counted t' = counted t + Z.of_nat (length (dirs0 ≫= assetFilesIn w)) /\
     totalProcessed t' = totalProcessed t + Z.of_nat (length (written (events r))) /\
     totalSkipped t <= totalSkipped t' /\ totalErrors t <= totalErrors t').
Proof.
  cbv zeta. revert t w. induction dirs0 as [| dir dirs0 IH]; intros t w; cbn [for_of].
  - cbn. split; [reflexivity |]. split; [constructor |]. split; [constructor |].
    intros _. exists t. repeat split; lia.
  - rewrite final_bind, events_bind, outcome_bind.
    destruct (scanDir_counts dir t w) as (S1 & W1 & F1 & R1).
    cbn [mbind list_bind].
    destruct (outcome (scanDir dir t w)) as [t1 | c | e] eqn:Hout.
    + destruct (IH t1 (final (scanDir dir t w))) as (S2 & W2 & F2 & R2).
      rewrite written_app, length_app.
      split; [congruence |]. split; [| split].
      * apply sublist_app; [exact W1 |].
        erewrite list_bind_ext; [exact W2 | | reflexivity].
        intros d. symmetry. apply assetFilesIn_shape, S1.
      * apply Forall_app. split; [exact F1 |].
        eapply Forall_impl; [exact F2 |]. cbv beta. intros path.
        apply (shape_is_file w _ path S1).
      * intros Hscan.
        destruct (R1 (Hscan dir ltac:(rewrite elem_of_cons; now left)))
          as (t1' & [= <-] & C1 & P1 & K1 & E1).
        destruct R2 as (t2 & Hret & C2 & P2 & K2 & E2).
        { intros d Hd. apply (shape_scannable d w _ S1), Hscan.
          rewrite elem_of_cons. now right. }
        exists t2. split; [exact Hret |]. rewrite length_app.
        erewrite (list_bind_ext (assetFilesIn (final (scanDir dir t w))) (assetFilesIn w))
          in C2; [| intros d; apply assetFilesIn_shape, S1 | reflexivity].
        repeat split; lia.
    + rewrite app_nil_r. split; [exact S1 |].
      split; [now apply sublist_inserts_r |]. split; [exact F1 |].
      intros Hscan.
      destruct (R1 (Hscan dir ltac:(rewrite elem_of_cons; now left))) as (t1' & [=] & _).
    + rewrite app_nil_r. split; [exact S1 |].
      split; [now apply sublist_inserts_r |]. split; [exact F1 |].
      intros Hscan.
      destruct (R1 (Hscan dir ltac:(rewrite elem_of_cons; now left))) as (t1' & [=] & _).
Qed.

(** The trace of [main]: the first line, the scan, the summary. *)
Lemma main_events w :
  let loop := for_of ASSET_DIRS scanDir
                {| totalProcessed := 0; totalSkipped := 0; totalErrors := 0 |} w in
  events (main w) =
    ConsoleLog ("🔍 Scanning for base64-encoded PNG images in: " +:+ PROJECT_ROOT w +:+ nl)
    :: events loop ++ match outcome loop with
                      | Ret t => summary t
                      | _ => []
                      end.
Proof.
  cbv zeta. unfold main.
  rewrite events_bind. cbn [gets outcome final events fst snd app].
  rewrite events_bind. cbn [emit outcome final events fst snd app]. f_equal.
  rewrite events_bind. f_equal.
  destruct (outcome (for_of ASSET_DIRS scanDir _ w)) as [t | c | e]; try reflexivity.
  unfold summary, bind, emit, exit. cbn.
  destruct (0 <? totalProcessed t); reflexivity.
Qed.

Lemma script_events w : events (script w) = events (main w).
Proof. unfold script. destruct (main w) as [[[[] | c | e] w'] t]; reflexivity. Qed.

(** X15: the summary accounts for every PNG file of the asset directories:
    each was counted once, as decoded, skipped or failed, and the number
    reported as decoded is the number of files written. *)
Theorem script_accounts_for_every_png w :
  (forall dir, dir ∈ ASSET_DIRS -> scannable dir w) ->
  exists t scan,
    events (script w) =
      ConsoleLog ("🔍 Scanning for base64-encoded PNG images in: " +:+ PROJECT_ROOT w +:+ nl)
      :: scan ++ summary t /\
    totalProcessed t + totalSkipped t + totalErrors t = Z.of_nat (length (assetFiles w)) /\
    totalProcessed t = Z.of_nat (length (written scan)) /\
    0 <= totalSkipped t /\ 0 <= totalErrors t.
Proof.
  intros Hscan. rewrite script_events, main_events. cbv zeta.
  destruct (scanDirs_counts ASSET_DIRS
              {| totalProcessed := 0; totalSkipped := 0; totalErrors := 0 |} w)
    as (_ & _ & _ & R).
  destruct (R Hscan) as (t & -> & C & P & K & E).
  eexists t, _. split; [reflexivity |].
  unfold counted in C. cbn [totalProcessed totalSkipped totalErrors] in C, P, K, E.
  unfold assetFiles. repeat split; lia.
Qed.

(** X16: the script writes no other file than PNG files that were in the asset
    directories when it started: it creates nothing, and touches nothing
    outside those directories or below them. *)
Theorem script_rewrites_only_asset_pngs w path :
  path ∈ written (events (script w)) ->
  is_Some (files w !! path) /\
  exists dir items item stem,
    dir ∈ ASSET_DIRS /\
    dirs w !! path_join (PROJECT_ROOT w) dir = Some items /\
    item ∈ items /\ isFile item = true /\ name item = stem +:+ ".png" /\
    path = path_join (path_join (PROJECT_ROOT w) dir) (name item).
Proof.
  rewrite script_events, main_events. cbv zeta.
  destruct (scanDirs_counts ASSET_DIRS
              {| totalProcessed := 0; totalSkipped := 0; totalErrors := 0 |} w)
    as (_ & Hsub & Hthere & _).
  change (written (ConsoleLog ?x :: ?l)) with (written l). rewrite written_app.
  replace (written (match outcome _ with Ret t => summary t | _ => [] end)) with (@nil string).
  2:{ destruct (outcome _) as [t | c | e]; try reflexivity.
      unfold summary. destruct (0 <? totalProcessed t); reflexivity. }
  rewrite app_nil_r. intros Hin. split.
  - rewrite Forall_forall in Hthere. apply Hthere, Hin.
  - pose proof (elem_of_sublist _ _ _ Hin Hsub) as Hasset.
    apply list_elem_of_bind in Hasset as (dir & Hfiles & Hdir).
    unfold assetFilesIn in Hfiles.
    destruct (dirs w !! path_join (PROJECT_ROOT w) dir) as [items |] eqn:Hitems;
      [| now apply elem_of_nil in Hfiles].
    unfold pngFilesIn in Hfiles. apply list_elem_of_omap in Hfiles as (item & Hitem & Hkeep).
    destruct (isFile item) eqn:Hfile; [| discriminate].
    destruct (endsWith (name item) ".png") eqn:Hends; [| discriminate].
    apply endsWith_suffix in Hends as [stem Hstem]. injection Hkeep as <-.
    exists dir, items, item, stem. repeat split; auto.
Qed.


End ImageFixFurther.

(** *** The image fixer on the sample project, again *)

Section ImageFixFurtherExamples.
Import ImageFix SampleAssets.

(** [logo.png] holds the base64 text of a PNG of 70 bytes. *)
Lemma processFile_decodes_witness :
  processFile "/site/public/assets/logo.png" project =
    (Ret {| processed := true; reason := None;
            size := Some (Z.of_nat (length (decoded pixelText))) |},
     setFiles (<["/site/public/assets/logo.png" := decoded pixelText]> (files project)) project,
     [WriteFile "/site/public/assets/logo.png"]) /\
  decoded pixelText = pixelPng /\ length pixelPng = 70%nat.
Proof.
  split.
  - apply (processFile_decodes "/site/public/assets/logo.png" project pixelText).
    + vm_compute. reflexivity.
    + vm_compute. reflexivity.
    + vm_compute. reflexivity.
    + intros Hin. unfold project in Hin. cbn [readOnly] in Hin.
      apply elem_of_singleton in Hin. discriminate Hin.
  - split; vm_compute; reflexivity.
Defined.

(** Three PNG files in the sample project: one decoded, one skipped, one
    that could not be written. *)
Lemma script_accounts_for_every_png_witness :
  exists t scan,
    events (script project) =
      ConsoleLog ("🔍 Scanning for base64-encoded PNG images in: /site" +:+ nl)
      :: scan ++ summary t /\
    totalProcessed t + totalSkipped t + totalErrors t = 3 /\
    totalProcessed t = Z.of_nat (length (written scan)) /\
    0 <= totalSkipped t /\ 0 <= totalErrors t.
Proof.
  destruct (script_accounts_for_every_png project project_scannable)
    as (t & scan & E & C & P & K & R).
  exists t, scan. split; [exact E |]. split; [| auto].
  rewrite C. vm_compute. reflexivity.
Defined.

Lemma script_rewrites_only_asset_pngs_witness :
  is_Some (files project !! "/site/public/assets/logo.png") /\
  exists dir items item stem,
    dir ∈ ASSET_DIRS /\
    dirs project !! path_join (PROJECT_ROOT project) dir = Some items /\
    item ∈ items /\ isFile item = true /\ name item = stem +:+ ".png" /\
    "/site/public/assets/logo.png" = path_join (path_join (PROJECT_ROOT project) dir) (name item).
Proof.
  apply (script_rewrites_only_asset_pngs project "/site/public/assets/logo.png").
  replace (written (events (script project))) with ["/site/public/assets/logo.png"]
    by (vm_compute; reflexivity).
  apply elem_of_cons. now left.
Defined.

End ImageFixFurtherExamples.
